(** * phy.plot._vispy_utils: the pan/zoom transform and the bake pipeline

    A shallow embedding of [PanZoom], [_BakeVisual] and [BaseSpikeVisual]
    from [phy/plot/_vispy_utils.py].

    Numbers.  Python floats and numpy's float64 are modelled by the real
    numbers [R]: the development speaks about the order and field structure
    of the values (clamping, the pointer correction), not about binary64
    rounding or overflow.  A division of Python floats by zero raises
    [ZeroDivisionError].  A division of numpy scalars by zero does not raise:
    it gives an infinity or NaN, which the model keeps as the value
    [NonFinite] of [npfloat]; pan, the only attribute such a value can reach,
    has components of that type.  The conversions to [np.float32] in
    [_normalize] are an explicit rounding function [f32], a parameter about
    which nothing is assumed.

    Effects.  Every method is a state transformer that may raise: a value of
    [M S A] takes the object before the call and gives the outcome together
    with the object after it.  A raised exception keeps the mutations made
    before it, as in Python. *)

From Stdlib Require Import Reals Lra List String Ascii Bool ZArith Lia QArith Qround.
From Stdlib Require Import Sorting.Sorted Sorting.Permutation.
Import ListNotations.

Set Implicit Arguments.

(** ** Exceptions and the state-and-exception monad *)

Inductive exn : Type :=
| AssertionError
| TypeError
| AttributeError
| IndexError
| ValueError
| ZeroDivisionError.

Inductive outcome (A : Type) : Type :=
| Ret (a : A)
| Raise (e : exn).

Arguments Ret {A} a.
Arguments Raise {A} e.

Definition M (S A : Type) : Type := S -> outcome A * S.

Definition ret {S A : Type} (a : A) : M S A := fun s => (Ret a, s).

Definition raise {S A : Type} (e : exn) : M S A := fun s => (Raise e, s).

Definition bind {S A B : Type} (m : M S A) (k : A -> M S B) : M S B :=
  fun s =>
    match m s with
    | (Ret a, s') => k a s'
    | (Raise e, s') => (Raise e, s')
    end.

Definition get {S : Type} : M S S := fun s => (Ret s, s).

Definition put {S : Type} (s : S) : M S unit := fun _ => (Ret tt, s).

Definition modify {S : Type} (f : S -> S) : M S unit := fun s => (Ret tt, f s).

(** [assert cond] *)
Definition assert {S : Type} (b : bool) : M S unit :=
  if b then ret tt else raise AssertionError.

(** A value that may fail, used inside a method. *)
Definition lift {S A : Type} (o : outcome A) : M S A := fun s => (o, s).

Declare Scope monad_scope.
Delimit Scope monad_scope with monad.

Notation "x <- c1 ;; c2" := (bind c1 (fun x => c2))
  (at level 61, c1 at next level, right associativity) : monad_scope.
Notation "c1 ;; c2" := (bind c1 (fun _ => c2))
  (at level 61, right associativity) : monad_scope.

(** [for x in l: body x] *)
Fixpoint for_each {S A : Type} (l : list A) (body : A -> M S unit) : M S unit :=
  match l with
  | [] => ret tt
  | x :: l' => bind (body x) (fun _ => for_each l' body)
  end.

(** ** PanZoom *)

Module PanZoom.

Local Open Scope R_scope.

(** Python's two-argument [min] and [max]: the first argument is kept unless
    the second is strictly better. *)
Definition py_min (a b : R) : R := if Rlt_dec b a then b else a.
Definition py_max (a b : R) : R := if Rlt_dec a b then b else a.

(** [np.sign] *)
Definition sign (x : R) : R :=
  if Rlt_dec 0 x then 1 else if Rlt_dec x 0 then -1 else 0.

(** [x % 1] on floats: the result lies in [[0, 1)]. *)
Definition mod1 (x : R) : R := frac_part x.

(** A numpy float scalar: a real number, or [NonFinite] for an infinity or
    NaN, which is what numpy returns (with a warning) for a division by zero.
    The sums, differences and products the transform forms with such a value
    are again infinite or NaN. *)
Inductive npfloat : Type :=
| Fin (r : R)
| NonFinite.

Definition np_add (a b : npfloat) : npfloat :=
  match a, b with
  | Fin x, Fin y => Fin (x + y)
  | _, _ => NonFinite
  end.

Definition np_sub (a b : npfloat) : npfloat :=
  match a, b with
  | Fin x, Fin y => Fin (x - y)
  | _, _ => NonFinite
  end.

Definition np_mul (a b : npfloat) : npfloat :=
  match a, b with
  | Fin x, Fin y => Fin (x * y)
  | _, _ => NonFinite
  end.

Definition np_opp (a : npfloat) : npfloat :=
  match a with
  | Fin x => Fin (- x)
  | NonFinite => NonFinite
  end.

(** [a / b] on numpy scalars, for a finite divisor: a zero divisor gives an
    infinity or NaN and no exception. *)
Definition np_div (a : npfloat) (b : R) : npfloat :=
  match a with
  | Fin x => if Req_dec_T b 0 then NonFinite else Fin (x / b)
  | NonFinite => NonFinite
  end.

(** The value of the zoom uniform: [zoom * aspect] is a 2-vector when the
    aspect is set and a bare scalar when [_aspect] is [None]. *)
Inductive uniform : Type :=
| UScalar (r : R)
| UVec (x y : R).

(** A GPU program, seen through the two uniforms the transform writes. *)
Record Program : Type := mkProgram {
  u_pan : option (npfloat * npfloat);
  u_zoom : option uniform
}.

(** The canvas, seen through what the transform uses: its size, the event
    handlers connected to it and the number of [update()] requests. *)
Record Canvas : Type := mkCanvas {
  size : R * R;
  connected : list string;
  updates : nat
}.

Record t : Type := mkPanZoom {
  _aspect : option R;
  _pan : npfloat * npfloat;
  _zoom : R;
  _zmin : R;
  _zmax : R;
  _zoom_to_pointer : bool;
  _n_rows : Z;
  _canvas : option Canvas;
  _canvas_aspect : R * R;
  _width : R;
  _height : R;
  _u_pan : npfloat * npfloat;
  _u_zoom : uniform;
  _programs : list Program
}.

Definition __init__ (aspect : option R) (pan : npfloat * npfloat) (zoom zmin zmax : R)
    : t :=
  {| _aspect := aspect;
     _pan := pan;
     _zoom := zoom;
     _zmin := zmin;
     _zmax := zmax;
     _zoom_to_pointer := true;
     _n_rows := 1%Z;
     _canvas := None;
     _canvas_aspect := (1, 1);
     _width := 1;
     _height := 1;
     _u_pan := pan;
     _u_zoom := UVec zoom zoom;
     _programs := [] |}.

(** The constructor's default arguments. *)
Definition default : t := __init__ (Some 1) (Fin 0, Fin 0) 1 (1 / 100000) 100000.

Definition is_attached (pz : t) : bool :=
  match _canvas pz with Some _ => true | None => false end.

(** Field updates. *)
Definition with_zoom (z : R) (pz : t) : t :=
  mkPanZoom (_aspect pz) (_pan pz) z (_zmin pz) (_zmax pz)
    (_zoom_to_pointer pz) (_n_rows pz) (_canvas pz) (_canvas_aspect pz)
    (_width pz) (_height pz) (_u_pan pz) (_u_zoom pz) (_programs pz).

Definition with_zmin (z : R) (pz : t) : t :=
  mkPanZoom (_aspect pz) (_pan pz) (_zoom pz) z (_zmax pz)
    (_zoom_to_pointer pz) (_n_rows pz) (_canvas pz) (_canvas_aspect pz)
    (_width pz) (_height pz) (_u_pan pz) (_u_zoom pz) (_programs pz).

Definition with_zmax (z : R) (pz : t) : t :=
  mkPanZoom (_aspect pz) (_pan pz) (_zoom pz) (_zmin pz) z
    (_zoom_to_pointer pz) (_n_rows pz) (_canvas pz) (_canvas_aspect pz)
    (_width pz) (_height pz) (_u_pan pz) (_u_zoom pz) (_programs pz).

Definition with_u_zoom (u : uniform) (ps : list Program) (pz : t) : t :=
  mkPanZoom (_aspect pz) (_pan pz) (_zoom pz) (_zmin pz) (_zmax pz)
    (_zoom_to_pointer pz) (_n_rows pz) (_canvas pz) (_canvas_aspect pz)
    (_width pz) (_height pz) (_u_pan pz) u ps.

Definition with_pan (p : npfloat * npfloat) (ps : list Program) (pz : t) : t :=
  mkPanZoom (_aspect pz) p (_zoom pz) (_zmin pz) (_zmax pz)
    (_zoom_to_pointer pz) (_n_rows pz) (_canvas pz) (_canvas_aspect pz)
    (_width pz) (_height pz) p (_u_zoom pz) ps.

Definition with_n_rows (n : Z) (pz : t) : t :=
  mkPanZoom (_aspect pz) (_pan pz) (_zoom pz) (_zmin pz) (_zmax pz)
    (_zoom_to_pointer pz) n (_canvas pz) (_canvas_aspect pz)
    (_width pz) (_height pz) (_u_pan pz) (_u_zoom pz) (_programs pz).

Definition with_zoom_to_pointer (b : bool) (pz : t) : t :=
  mkPanZoom (_aspect pz) (_pan pz) (_zoom pz) (_zmin pz) (_zmax pz)
    b (_n_rows pz) (_canvas pz) (_canvas_aspect pz)
    (_width pz) (_height pz) (_u_pan pz) (_u_zoom pz) (_programs pz).

Definition with_aspect (a : option R) (pz : t) : t :=
  mkPanZoom a (_pan pz) (_zoom pz) (_zmin pz) (_zmax pz)
    (_zoom_to_pointer pz) (_n_rows pz) (_canvas pz) (_canvas_aspect pz)
    (_width pz) (_height pz) (_u_pan pz) (_u_zoom pz) (_programs pz).

Definition with_canvas (c : option Canvas) (pz : t) : t :=
  mkPanZoom (_aspect pz) (_pan pz) (_zoom pz) (_zmin pz) (_zmax pz)
    (_zoom_to_pointer pz) (_n_rows pz) c (_canvas_aspect pz)
    (_width pz) (_height pz) (_u_pan pz) (_u_zoom pz) (_programs pz).

Definition with_size (w h : R) (ca : R * R) (pz : t) : t :=
  mkPanZoom (_aspect pz) (_pan pz) (_zoom pz) (_zmin pz) (_zmax pz)
    (_zoom_to_pointer pz) (_n_rows pz) (_canvas pz) ca
    w h (_u_pan pz) (_u_zoom pz) (_programs pz).

(** [program["u_zoom"] = u] and [program["u_pan"] = p] *)
Definition set_u_zoom (u : uniform) (p : Program) : Program :=
  {| u_pan := u_pan p; u_zoom := Some u |}.

Definition set_u_pan (v : npfloat * npfloat) (p : Program) : Program :=
  {| u_pan := Some v; u_zoom := u_zoom p |}.

(** The local [aspect] of the zoom setter, [attach] and [on_mouse_wheel]:
    [1.0], replaced by [_canvas_aspect * _aspect] when [_aspect] is set. *)
Definition aspect_factor (pz : t) : uniform :=
  match _aspect pz with
  | None => UScalar 1
  | Some a => UVec (fst (_canvas_aspect pz) * a) (snd (_canvas_aspect pz) * a)
  end.

(** [zoom * aspect] *)
Definition scale (z : R) (u : uniform) : uniform :=
  match u with
  | UScalar r => UScalar (z * r)
  | UVec x y => UVec (z * x) (z * y)
  end.

(** The effective zoom vector of the current state. *)
Definition effective_zoom (pz : t) : uniform := scale (_zoom pz) (aspect_factor pz).

(** The setters of [zoom_to_pointer], [n_rows] and [aspect]. *)
Definition zoom_to_pointer_setter (value : bool) (pz : t) : t :=
  with_zoom_to_pointer value pz.

Definition n_rows_setter (value : Z) (pz : t) : t := with_n_rows value pz.

Definition aspect_setter (value : option R) (pz : t) : t := with_aspect value pz.

(** [pan.setter] *)
Definition pan_setter (value : npfloat * npfloat) (pz : t) : t :=
  with_pan value (map (set_u_pan value) (_programs pz)) pz.

(** [zoom.setter] *)
Definition zoom_setter (value : R) (pz : t) : t :=
  let pz1 := with_zoom (py_max (py_min value (_zmax pz)) (_zmin pz)) pz in
  if negb (is_attached pz1) then pz1
  else
    let u := scale (_zoom pz1) (aspect_factor pz1) in
    with_u_zoom u (map (set_u_zoom u) (_programs pz1)) pz1.

(** [zmin.setter] and [zmax.setter] *)
Definition zmin_setter (value : R) (pz : t) : t :=
  with_zmin (py_min value (_zmax pz)) pz.

Definition zmax_setter (value : R) (pz : t) : t :=
  with_zmax (py_max value (_zmin pz)) pz.

Definition with_programs (ps : list Program) (pz : t) : t :=
  with_u_zoom (_u_zoom pz) ps pz.

(** Division of Python floats: a zero divisor raises. *)
Definition div (a b : R) : outcome R :=
  if Req_dec_T b 0 then Raise ZeroDivisionError else Ret (a / b).

(** The aspect correction of a canvas whose width/height ratio is [aspect]. *)
Definition canvas_aspect_of (aspect : R) : R * R :=
  if Rlt_dec 1 aspect then (1 / aspect, 1) else (1, aspect / 1).

Local Open Scope monad_scope.

(** [on_resize(event)], with [event.size = sz] *)
Definition on_resize (sz : R * R) : M t unit :=
  modify (fun pz => with_size (fst sz) (snd sz) (_canvas_aspect pz) pz) ;;
  pz <- get ;;
  aspect <- lift (div (_width pz) (_height pz)) ;;
  modify (with_size (_width pz) (_height pz) (canvas_aspect_of aspect)) ;;
  pz <- get ;;
  modify (zoom_setter (_zoom pz)).

(** [_normalize_grid(x_y)]: the position holds Python numbers and the
    recorded size Python floats, so a zero divisor raises. *)
Definition _normalize_grid (x_y : R * R) : M t (R * R) :=
  pz <- get ;;
  let x0 := fst x_y in
  let y0 := snd x_y in
  x0 <- lift (div x0 (_width pz)) ;;
  y0 <- lift (div y0 (_height pz)) ;;
  let x0 := x0 * IZR (_n_rows pz) in
  let y0 := y0 * IZR (_n_rows pz) in
  let x0 := mod1 x0 in
  let y0 := mod1 y0 in
  let x0 := - (1 - 2 * x0) in
  let y0 := - (1 - 2 * y0) in
  x0 <- lift (div x0 (IZR (_n_rows pz))) ;;
  y0 <- lift (div y0 (IZR (_n_rows pz))) ;;
  ret (x0, y0).

(** A mouse-wheel event: [event.delta] and [event.pos], pairs of Python
    numbers. *)
Record WheelEvent : Type := mkWheel {
  delta : R * R;
  pos : R * R
}.

(** [self._canvas.update()] *)
Definition canvas_update : M t unit :=
  pz <- get ;;
  match _canvas pz with
  | None => raise AttributeError
  | Some c =>
      put (with_canvas (Some (mkCanvas (size c) (connected c) (S (updates c)))) pz)
  end.

(** [on_mouse_wheel(event)].  [zoom_x *= aspect[0]] makes the four zooms
    numpy scalars, so the four divisions [1. / zoom] do not raise. *)
Definition on_mouse_wheel (event : WheelEvent) : M t unit :=
  let dx := sign (snd (delta event)) * (5 / 100) in
  xy <- _normalize_grid (pos event) ;;
  let x0 := fst xy in
  let y0 := snd xy in
  pz <- get ;;
  let pan_x := fst (_pan pz) in
  let pan_y := snd (_pan pz) in
  let zoom_x := _zoom pz in
  let zoom_y := _zoom pz in
  let zoom_x_new := zoom_x * exp (25 / 10 * dx) in
  let zoom_y_new := zoom_y * exp (25 / 10 * dx) in
  modify (zoom_setter zoom_x_new) ;;
  pz1 <- get ;;
  (if _zoom_to_pointer pz1 then
     match aspect_factor pz1 with
     | UScalar _ => raise TypeError
     | UVec a0 a1 =>
         let zoom_x := zoom_x * a0 in
         let zoom_y := zoom_y * a1 in
         let zoom_x_new := zoom_x_new * a0 in
         let zoom_y_new := zoom_y_new * a1 in
         modify (pan_setter
                   (np_sub pan_x
                      (np_mul (Fin x0)
                         (np_sub (np_div (Fin 1) zoom_x) (np_div (Fin 1) zoom_x_new))),
                    np_add pan_y
                      (np_mul (Fin y0)
                         (np_sub (np_div (Fin 1) zoom_y) (np_div (Fin 1) zoom_y_new)))))
     end
   else ret tt) ;;
  canvas_update.

(** [add(programs)] *)
Definition add (programs : list Program) (pz : t) : t :=
  fold_left
    (fun pz program =>
       with_programs
         (_programs pz ++ [set_u_pan (_u_pan pz) (set_u_zoom (_u_zoom pz) program)])
         pz)
    programs pz.

(** [canvas.connect(handler)] on the canvas the transform holds. *)
Definition connect (handler : string) : M t unit :=
  pz <- get ;;
  match _canvas pz with
  | None => raise AttributeError
  | Some c =>
      put (with_canvas (Some (mkCanvas (size c) (connected c ++ [handler]) (updates c))) pz)
  end.

(** [attach(canvas)] *)
Definition attach (canvas : Canvas) : M t unit :=
  modify (with_canvas (Some canvas)) ;;
  modify (fun pz =>
            with_size (fst (size canvas)) (snd (size canvas)) (_canvas_aspect pz) pz) ;;
  pz <- get ;;
  aspect <- lift (div (_width pz) (_height pz)) ;;
  modify (with_size (_width pz) (_height pz) (canvas_aspect_of aspect)) ;;
  modify (fun pz => with_u_zoom (scale (_zoom pz) (aspect_factor pz)) (_programs pz) pz) ;;
  connect "on_resize" ;;
  connect "on_mouse_wheel" ;;
  connect "on_mouse_move" ;;
  connect "on_key_press".

(** The state [attach] leaves behind on a canvas of non-zero height. *)
Definition attached (c : Canvas) (pz : t) : t :=
  let w := fst (size c) in
  let h := snd (size c) in
  let ca := canvas_aspect_of (w / h) in
  mkPanZoom (_aspect pz) (_pan pz) (_zoom pz) (_zmin pz) (_zmax pz)
    (_zoom_to_pointer pz) (_n_rows pz)
    (Some (mkCanvas (size c)
             ((((connected c ++ ["on_resize"%string]) ++ ["on_mouse_wheel"%string])
                 ++ ["on_mouse_move"%string]) ++ ["on_key_press"%string])
             (updates c)))
    ca w h (_u_pan pz)
    (scale (_zoom pz) (aspect_factor (with_size w h ca pz)))
    (_programs pz).

(** The coordinate [_normalize_grid] computes along one axis of length [w]. *)
Definition grid (x w : R) (n : Z) : R :=
  - (1 - 2 * mod1 (x / w * IZR n)) / IZR n.

(** A call to one of the two zoom-bound setters. *)
Inductive bound_call : Type :=
| SetZmin (value : R)
| SetZmax (value : R).

Definition run_bound_call (pz : t) (c : bound_call) : t :=
  match c with
  | SetZmin v => zmin_setter v pz
  | SetZmax v => zmax_setter v pz
  end.

Definition run_bound_calls (cs : list bound_call) (pz : t) : t :=
  fold_left run_bound_call cs pz.

(** *** Statements about the transform, to be compared with the code *)

(** "After the zoom setter ran, [zmin <= zoom <= zmax] holds." *)
Definition zoom_within_bounds (pz : t) (z : R) : Prop :=
  _zmin (zoom_setter z pz) <= _zoom (zoom_setter z pz) <= _zmax (zoom_setter z pz).

(** "After attach, the zoom uniform seen by the registered programs reflects
    the zoom stored while unattached": the zoom setter with [z] on [pz], then
    [attach(c)]. *)
Definition pushed_at_attach (pz : t) (z : R) (c : Canvas) : Prop :=
  forall pz', attach c (zoom_setter z pz) = (Ret tt, pz') ->
    forall p, In p (_programs pz') -> u_zoom p = Some (effective_zoom pz').


(** "The wheel handler moves pan by the grid-normalized pointer times
    [1/zoom_old - 1/zoom_new], on each axis, for the effective zoom vectors
    before and after the event" (the x term subtracted, the y term added, as
    the handler orients them). *)
Definition pan_follows_pointer (pz : t) (event : WheelEvent) : Prop :=
  forall pz' x0 y0 zx zy zx' zy',
    on_mouse_wheel event pz = (Ret tt, pz') ->
    fst (_normalize_grid (pos event) pz) = Ret (x0, y0) ->
    effective_zoom pz = UVec zx zy ->
    effective_zoom pz' = UVec zx' zy' ->
    _pan pz' = (np_sub (fst (_pan pz)) (Fin (x0 * (1 / zx - 1 / zx'))),
                np_add (snd (_pan pz)) (Fin (y0 * (1 / zy - 1 / zy')))).

(** *** Concrete transforms and events *)

Definition canvas_2x2 : Canvas := mkCanvas (2, 2) [] 0.

Definition blank_program : Program := mkProgram None None.

(** [PanZoom(zmin=10.0, zmax=1.0)]: the constructor accepts crossed bounds. *)
Definition crossed_bounds : t := __init__ (Some 1) (Fin 0, Fin 0) 1 10 1.

(** [PanZoom()], a program added, the zoom set to 2 before [attach]. *)
Definition registered_then_zoomed : t := zoom_setter 2 (add [blank_program] default).

(** [PanZoom(zoom=1.0, zmin=0.1, zmax=1.0)] attached to a 2x2 canvas: the
    zoom sits on its upper bound. *)
Definition at_zmax : t :=
  snd (attach canvas_2x2 (__init__ (Some 1) (Fin 0, Fin 0) 1 (1 / 10) 1)).


(** [PanZoom(zoom=0.0, zmin=0.0, zmax=1.0)] attached to a 2x2 canvas: the
    effective zoom is zero on both axes. *)
Definition zero_zoom : t :=
  snd (attach canvas_2x2 (__init__ (Some 1) (Fin 0, Fin 0) 0 0 1)).

(** One wheel notch up with the pointer on the canvas origin. *)
Definition wheel_up_origin : WheelEvent := mkWheel (0, 1) (0, 0).

(** *** The other handlers *)

(** A numpy [float32] result: the exact result rounded by [f32], the
    rounding of a real number to [np.float32]. *)
Definition np_round (f32 : R -> R) (a : npfloat) : npfloat :=
  match a with
  | Fin x => Fin (f32 x)
  | NonFinite => NonFinite
  end.

(** [_normalize(x_y)]: the position and the recorded size become [float32]
    arrays, and [x_y / (size / 2.) - 1] is computed on them, each operation
    rounding to [float32]; the division by a zero half-size does not raise.
    The method only reads the transform. *)
Definition _normalize (f32 : R -> R) (x_y : R * R) (pz : t) : npfloat * npfloat :=
  let half_w := f32 (f32 (_width pz) / 2) in
  let half_h := f32 (f32 (_height pz) / 2) in
  (np_round f32 (np_sub (np_round f32 (np_div (Fin (f32 (fst x_y))) half_w)) (Fin 1)),
   np_round f32 (np_sub (np_round f32 (np_div (Fin (f32 (snd x_y))) half_h)) (Fin 1))).

(** A mouse-move event: [event.is_dragging], [event.modifiers] and the
    positions of [event.press_event], [event.last_event] and the event. *)
Record MoveEvent : Type := mkMove {
  is_dragging : bool;
  modifiers : list string;
  press_event_pos : R * R;
  last_event_pos : R * R;
  move_pos : R * R
}.

(** The truth value of a sequence. *)
Definition truthy {A : Type} (l : list A) : bool :=
  match l with [] => false | _ :: _ => true end.

(** [on_mouse_move(event)].  [dx] and [dy] are [float32] scalars and the
    zooms are elements of the zoom uniform, so the two divisions do not
    raise. *)
Definition on_mouse_move (f32 : R -> R) (event : MoveEvent) : M t unit :=
  if is_dragging event && negb (truthy (modifiers event)) then
    pz <- get ;;
    let p0 := _normalize f32 (press_event_pos event) pz in
    let p1 := _normalize f32 (last_event_pos event) pz in
    let p := _normalize f32 (move_pos event) pz in
    let dx := np_round f32 (np_sub (fst p) (fst p1)) in
    let dy := np_opp (np_round f32 (np_sub (snd p) (snd p1))) in
    let pan_x := fst (_pan pz) in
    let pan_y := snd (_pan pz) in
    match _u_zoom pz with
    | UScalar _ => raise TypeError
    | UVec zoom_x zoom_y =>
        modify (pan_setter (np_add pan_x (np_div dx zoom_x),
                            np_add pan_y (np_div dy zoom_y))) ;;
        canvas_update
    end
  else ret tt.

(** A key event: [event.key] by name and [event.modifiers]. *)
Record KeyEvent : Type := mkKey {
  key : string;
  key_modifiers : list string
}.

Definition _arrows : list string := ["Left"; "Right"; "Up"; "Down"]%string.
Definition _pm : list string := ["+"; "-"]%string.

(** [key in names] *)
Definition key_in (k : string) (names : list string) : bool :=
  existsb (String.eqb k) names.

(** [self.pan += (a, b)] *)
Definition pan_iadd (a b : R) : M t unit :=
  pz <- get ;;
  modify (pan_setter (np_add (fst (_pan pz)) (Fin a), np_add (snd (_pan pz)) (Fin b))).

(** [self.zoom *= f] *)
Definition zoom_imul (f : R) : M t unit :=
  pz <- get ;;
  modify (zoom_setter (_zoom pz * f)).

(** [on_key_press(event)] *)
Definition on_key_press (event : KeyEvent) : M t unit :=
  let key := key event in
  if truthy (key_modifiers event) then ret tt
  else
    (if key_in key _arrows then
       pz <- get ;;
       k <- lift (div (1 / 10) (_zoom pz)) ;;
       (if String.eqb key "Left" then pan_iadd k 0
        else if String.eqb key "Right" then pan_iadd (- k) 0
        else if String.eqb key "Down" then pan_iadd 0 k
        else if String.eqb key "Up" then pan_iadd 0 (- k)
        else ret tt) ;;
       canvas_update
     else ret tt) ;;
    (if key_in key _pm then
       let k := 5 / 100 in
       (if String.eqb key "-" then zoom_imul (1 - k)
        else if String.eqb key "+" then zoom_imul (1 + k)
        else ret tt) ;;
       canvas_update
     else ret tt) ;;
    (if String.eqb key "R" then
       modify (pan_setter (Fin 0, Fin 0)) ;;
       modify (zoom_setter 1) ;;
       canvas_update
     else ret tt).

(** The transform of [BaseSpikeCanvas.__init__]: [PanZoom()], the visual's
    new program added, then [attach(self)]. *)
Definition spike_canvas_init (canvas : Canvas) : M t unit :=
  modify (add [mkProgram None None]) ;;
  attach canvas.

(** *** Sequences of calls *)

(** A call on the transform: a setter, [add], or a handler receiving an
    event. *)
Inductive call : Type :=
| SetPan (value : npfloat * npfloat)
| SetZoom (value : R)
| SetBound (c : bound_call)
| SetAspect (value : option R)
| SetNRows (value : Z)
| SetZoomToPointer (value : bool)
| Add (programs : list Program)
| Resize (sz : R * R)
| Wheel (event : WheelEvent)
| Move (event : MoveEvent)
| Key (event : KeyEvent).

(** The transform after a call, whether the call returned or raised. *)
Definition after (f32 : R -> R) (pz : t) (c : call) : t :=
  match c with
  | SetPan v => pan_setter v pz
  | SetZoom z => zoom_setter z pz
  | SetBound b => run_bound_call pz b
  | SetAspect a => aspect_setter a pz
  | SetNRows n => n_rows_setter n pz
  | SetZoomToPointer b => zoom_to_pointer_setter b pz
  | Add ps => add ps pz
  | Resize sz => snd (on_resize sz pz)
  | Wheel e => snd (on_mouse_wheel e pz)
  | Move e => snd (on_mouse_move f32 e pz)
  | Key e => snd (on_key_press e pz)
  end.

Definition after_all (f32 : R -> R) (cs : list call) (pz : t) : t :=
  fold_left (after f32) cs pz.

(** Every registered program holds the uniforms of the transform. *)
Definition coherent (pz : t) : Prop :=
  Forall (fun p => u_pan p = Some (_u_pan pz) /\ u_zoom p = Some (_u_zoom pz))
    (_programs pz).

(** The zoom lies within ordered bounds. *)
Definition in_bounds (pz : t) : Prop :=
  _zmin pz <= _zoom pz <= _zmax pz.

(** The transform is attached and its zoom uniform is the effective zoom. *)
Definition up_to_date (pz : t) : Prop :=
  is_attached pz = true /\ _u_zoom pz = effective_zoom pz.

(** What the wheel, drag and key handlers read but never write. *)
Definition settings (pz : t)
  : option R * bool * Z * R * R * (R * R) * R * R * bool * list Canvas :=
  (_aspect pz, _zoom_to_pointer pz, _n_rows pz, _width pz, _height pz,
   _canvas_aspect pz, _zmin pz, _zmax pz, is_attached pz,
   match _canvas pz with
   | Some c => [mkCanvas (size c) (connected c) 0]
   | None => []
   end).

(** The transform after [self._canvas.update()] on the canvas [c] it holds. *)
Definition updated (c : Canvas) (pz : t) : t :=
  with_canvas (Some (mkCanvas (size c) (connected c) (S (updates c)))) pz.

(** The factor by which a wheel event multiplies the zoom. *)
Definition wheel_factor (event : WheelEvent) : R :=
  exp (25 / 10 * (sign (snd (delta event)) * (5 / 100))).

(** The displacement an arrow key adds to pan, for the step [k]. *)
Definition arrow_step (name : string) (k : R) : R * R :=
  if String.eqb name "Left" then (k, 0)
  else if String.eqb name "Right" then (- k, 0)
  else if String.eqb name "Down" then (0, k)
  else (0, - k).

(** The drag event from [last] to [current], started at [press]. *)
Definition drag (press last current : R * R) : MoveEvent :=
  mkMove true [] press last current.

Definition is_bound_call (c : call) : bool :=
  match c with SetBound _ => true | _ => false end.

Definition is_aspect_call (c : call) : bool :=
  match c with SetAspect _ => true | _ => false end.

End PanZoom.

(** ** The bake pipeline *)

Module Bake.

Local Open Scope monad_scope.
Local Open Scope string_scope.

(** [sorted(names)] on a list of [str]: Python orders strings by code point,
    which is [String.leb].  Insertion from the right is stable. *)
Fixpoint insert (x : string) (l : list string) : list string :=
  match l with
  | [] => [x]
  | y :: l' => if String.leb x y then x :: l else y :: insert x l'
  end.

Fixpoint sorted (l : list string) : list string :=
  match l with
  | [] => []
  | x :: l' => insert x (sorted l')
  end.

(** The lexicographic order on names. *)
Definition lex_le (a b : string) : Prop := String.leb a b = true.

(** What a frame makes observable outside the visual: the bake methods the
    pass invokes, by method name, and the draw calls sent to the GPU
    program, by primitive topology. *)
Inductive event : Type :=
| Baked (method : string)
| GLDraw (mode : string).

Section BakeVisual.

(** The attributes the concrete visual class adds. *)
Variable D : Type.

Record Visual : Type := mkVisual {
  _to_bake : list string;
  _empty : bool;
  fields : D
}.

(** A visual together with the log of what it made observable. *)
Record World : Type := mkWorld {
  visual : Visual;
  gl_log : list event
}.

(** The class attribute [_gl_draw_mode] and the bake methods of the concrete
    class: [methods name] is [getattr(self, name)] when [hasattr(self, name)]. *)
Variable _gl_draw_mode : string.
Variable methods : string -> option (M Visual unit).

Definition with_to_bake (l : list string) (v : Visual) : Visual :=
  mkVisual l (_empty v) (fields v).

Definition with_empty (b : bool) (v : Visual) : Visual :=
  mkVisual (_to_bake v) b (fields v).

Definition with_fields (d : D) (v : Visual) : Visual :=
  mkVisual (_to_bake v) (_empty v) d.

(** [_BakeVisual.__init__] *)
Definition new_visual (d : D) : Visual := mkVisual [] true d.

(** A method of the visual, run inside a frame. *)
Definition on_visual {A : Type} (m : M Visual A) : M World A :=
  fun w =>
    let r := m (visual w) in
    (fst r, mkWorld (snd r) (gl_log w)).

Definition emit (e : event) : M World unit :=
  modify (fun w => mkWorld (visual w) (gl_log w ++ [e])%list).

(** [empty.setter] *)
Definition empty_setter (value : bool) : M Visual unit :=
  modify (with_empty value).

(** [bake in self._to_bake] *)
Definition mem (bake : string) (l : list string) : bool :=
  existsb (String.eqb bake) l.

(** [set_to_bake], called with any number of names *)
Definition set_to_bake (bakes : list string) : M Visual unit :=
  for_each bakes
    (fun bake =>
       v <- get ;;
       if negb (mem bake (_to_bake v))
       then put (with_to_bake (_to_bake v ++ [bake])%list v)
       else ret tt).

(** The body of the loop of [_bake]. *)
Definition bake_one (bake : string) : M World unit :=
  let name := "_bake_" ++ bake in
  match methods name with
  | Some method => emit (Baked name) ;; on_visual method
  | None => ret tt
  end.

(** [_bake()]: [None] is the bare [return] of the empty case. *)
Definition _bake : M World (option bool) :=
  w <- get ;;
  if _empty (visual w) then ret None
  else
    let n_bake := List.length (_to_bake (visual w)) in
    for_each (sorted (_to_bake (visual w))) bake_one ;;
    on_visual (modify (with_to_bake [])) ;;
    ret (Some (0 <? n_bake)%nat).

(** [draw()] *)
Definition draw : M World unit :=
  _bake ;;
  w <- get ;;
  if negb (_empty (visual w)) then emit (GLDraw _gl_draw_mode) else ret tt.

(** The bake methods a log records, in the order of their invocation. *)
Definition baked (log : list event) : list string :=
  flat_map (fun e => match e with Baked m => [m] | GLDraw _ => [] end) log.

(** The draw calls a log records. *)
Definition draw_calls (log : list event) : list string :=
  flat_map (fun e => match e with GLDraw m => [m] | Baked _ => [] end) log.

(** The method names the pass resolves for a list of dirty names, skipping
    the names for which the class declares no method. *)
Definition declared (names : list string) : list string :=
  flat_map
    (fun bake =>
       match methods ("_bake_" ++ bake) with
       | Some _ => ["_bake_" ++ bake]
       | None => []
       end)
    names.

End BakeVisual.

(** *** Arrays *)

(** A numpy array: its shape and its elements in row-major order. *)
Record ndarray (A : Type) : Type := mkArray {
  shape : list nat;
  flat : list A
}.

Definition ndim {A : Type} (a : ndarray A) : nat := List.length (shape a).

(** [arr.shape[0]]: indexing the empty shape tuple raises [IndexError]. *)
Definition shape0 {A : Type} (a : ndarray A) : outcome nat :=
  match shape a with
  | [] => Raise IndexError
  | n :: _ => Ret n
  end.

(** [len(arr)]: a 0-d array has no length. *)
Definition len {A : Type} (a : ndarray A) : outcome nat :=
  match shape a with
  | [] => Raise TypeError
  | n :: _ => Ret n
  end.

(** [np.arange(n).astype(np.int64)] *)
Definition arange (n : nat) : ndarray Z :=
  mkArray [n] (map Z.of_nat (seq 0 n)).

(** One index along an axis of length [n]: negative indices count from the
    end, anything else out of range raises. *)
Definition index_one (n : nat) (i : Z) : outcome nat :=
  if ((0 <=? i) && (i <? Z.of_nat n))%Z then Ret (Z.to_nat i)
  else if ((- Z.of_nat n <=? i) && (i <? 0))%Z then Ret (Z.to_nat (Z.of_nat n + i))
  else Raise IndexError.

Fixpoint map_outcome {A B : Type} (f : A -> outcome B) (l : list A) : outcome (list B) :=
  match l with
  | [] => Ret []
  | x :: l' =>
      match f x with
      | Raise e => Raise e
      | Ret y =>
          match map_outcome f l' with
          | Raise e => Raise e
          | Ret ys => Ret (y :: ys)
          end
      end
  end.

(** [a[ids]] with an integer array [ids]: selection along the first axis. *)
Definition getitem (a ids : ndarray Z) : outcome (ndarray Z) :=
  match shape a with
  | [] => Raise IndexError
  | n :: rest =>
      let row := fold_right Nat.mul 1%nat rest in
      match map_outcome (index_one n) (flat ids) with
      | Raise e => Raise e
      | Ret rows =>
          Ret (mkArray (shape ids ++ rest)%list
                 (flat_map (fun i => firstn row (skipn (i * row) (flat a))) rows))
      end
  end.

Definition shape_eqb (s1 s2 : list nat) : bool :=
  if list_eq_dec Nat.eq_dec s1 s2 then true else false.

(** *** BaseSpikeVisual *)

(** The attributes of [BaseSpikeVisual].  [_masks], [_cluster_colors] and
    [n_channels] do not exist before their first assignment; [n_channels] is
    assigned by the concrete subclass.  [program_u_cluster_color] is the
    texture [program['u_cluster_color']]. *)
Record SpikeFields : Type := mkSpikeFields {
  n_spikes : option nat;
  _spike_clusters : option (ndarray Z);
  _spike_ids : option (ndarray Z);
  _masks : option (ndarray Q);
  n_channels : option nat;
  _cluster_colors : option (ndarray Q);
  program_u_cluster_color : option (ndarray Z)
}.

Definition SpikeVisual : Type := Visual SpikeFields.

Section BaseSpikeVisual.

(** The two helpers imported from [phy.utils.array], whose source is not part
    of this file: the conversion of a value to an array and the sorted
    distinct values of an integer array. *)
Variable _as_array : forall A : Type, ndarray A -> ndarray A.
Variable _unique : ndarray Z -> ndarray Z.

(** [BaseSpikeVisual.__init__] *)
Definition new_spike_visual : SpikeVisual :=
  new_visual (mkSpikeFields None None None None None None None).

Definition set_n_spikes (n : option nat) (v : SpikeVisual) : SpikeVisual :=
  let f := fields v in
  with_fields (mkSpikeFields n (_spike_clusters f) (_spike_ids f) (_masks f)
                 (n_channels f) (_cluster_colors f) (program_u_cluster_color f)) v.

Definition set__spike_clusters (a : option (ndarray Z)) (v : SpikeVisual) : SpikeVisual :=
  let f := fields v in
  with_fields (mkSpikeFields (n_spikes f) a (_spike_ids f) (_masks f)
                 (n_channels f) (_cluster_colors f) (program_u_cluster_color f)) v.

Definition set__spike_ids (a : option (ndarray Z)) (v : SpikeVisual) : SpikeVisual :=
  let f := fields v in
  with_fields (mkSpikeFields (n_spikes f) (_spike_clusters f) a (_masks f)
                 (n_channels f) (_cluster_colors f) (program_u_cluster_color f)) v.

Definition set__masks (a : option (ndarray Q)) (v : SpikeVisual) : SpikeVisual :=
  let f := fields v in
  with_fields (mkSpikeFields (n_spikes f) (_spike_clusters f) (_spike_ids f) a
                 (n_channels f) (_cluster_colors f) (program_u_cluster_color f)) v.

Definition set_n_channels (n : option nat) (v : SpikeVisual) : SpikeVisual :=
  let f := fields v in
  with_fields (mkSpikeFields (n_spikes f) (_spike_clusters f) (_spike_ids f) (_masks f)
                 n (_cluster_colors f) (program_u_cluster_color f)) v.

Definition set__cluster_colors (a : option (ndarray Q)) (v : SpikeVisual) : SpikeVisual :=
  let f := fields v in
  with_fields (mkSpikeFields (n_spikes f) (_spike_clusters f) (_spike_ids f) (_masks f)
                 (n_channels f) a (program_u_cluster_color f)) v.

(** Reading an attribute that may not exist yet. *)
Definition getattr {A : Type} (x : option A) : M SpikeVisual A :=
  match x with
  | Some a => ret a
  | None => raise AttributeError
  end.

(** [_set_or_assert_n_spikes(arr)] *)
Definition _set_or_assert_n_spikes {A : Type} (arr : ndarray A) : M SpikeVisual unit :=
  v <- get ;;
  match n_spikes (fields v) with
  | None => n <- lift (shape0 arr) ;; modify (set_n_spikes (Some n))
  | Some _ => ret tt
  end ;;
  n <- lift (shape0 arr) ;;
  v <- get ;;
  assert (match n_spikes (fields v) with
          | Some m => (n =? m)%nat
          | None => false
          end).

(** [spike_clusters.setter] *)
Definition spike_clusters_setter (value : ndarray Z) : M SpikeVisual unit :=
  let value := _as_array value in
  modify (set__spike_clusters (Some value)) ;;
  set_to_bake ["spikes_clusters"].

(** [masks.setter] *)
Definition masks_setter (value : ndarray Q) : M SpikeVisual unit :=
  let value := _as_array value in
  _set_or_assert_n_spikes value ;;
  assert (ndim value =? 2)%nat ;;
  v <- get ;;
  n_ch <- getattr (n_channels (fields v)) ;;
  assert (match n_spikes (fields v) with
          | Some n => shape_eqb (shape value) [n; n_ch]
          | None => false
          end) ;;
  modify (set__masks (Some value)) ;;
  set_to_bake ["spikes"].

(** The [spike_ids] property: the getter fills [_spike_ids] on first use;
    [np.arange(None)] raises [TypeError]. *)
Definition spike_ids : M SpikeVisual (ndarray Z) :=
  v <- get ;;
  match _spike_ids (fields v) with
  | None =>
      match n_spikes (fields v) with
      | None => raise TypeError
      | Some n => modify (set__spike_ids (Some (arange n))) ;; ret (arange n)
      end
  | Some ids => ret ids
  end.

(** [spike_ids.setter] *)
Definition spike_ids_setter (value : ndarray Z) : M SpikeVisual unit :=
  let value := _as_array value in
  _set_or_assert_n_spikes value ;;
  modify (set__spike_ids (Some value)) ;;
  set_to_bake ["spikes"].

(** The [cluster_ids] property: [_unique(self.spike_clusters[self.spike_ids])];
    subscripting [None] raises [TypeError]. *)
Definition cluster_ids : M SpikeVisual (ndarray Z) :=
  v <- get ;;
  let spike_clusters := _spike_clusters (fields v) in
  ids <- spike_ids ;;
  match spike_clusters with
  | None => raise TypeError
  | Some sc => selected <- lift (getitem sc ids) ;; ret (_unique selected)
  end.

(** The [n_clusters] property *)
Definition n_clusters : M SpikeVisual nat :=
  ids <- cluster_ids ;;
  lift (len ids).

(** [cluster_colors.setter] *)
Definition cluster_colors_setter (value : ndarray Q) : M SpikeVisual unit :=
  modify (set__cluster_colors (Some (_as_array value))) ;;
  v <- get ;;
  colors <- getattr (_cluster_colors (fields v)) ;;
  n <- lift (len colors) ;;
  n_cl <- n_clusters ;;
  assert (n =? n_cl)%nat ;;
  set_to_bake ["color"].

(** [(x * 255).astype(np.uint8)] on one element: truncation toward zero,
    then the low eight bits. *)
Definition to_uint8 (x : Q) : Z :=
  let y := (x * 255)%Q in
  ((if Qle_bool 0 y then Qfloor y else Qceiling y) mod 256)%Z.

(** [arr.reshape((1, n, -1))]: the last axis takes what is left, when the
    size allows it. *)
Definition reshape_1_n {A : Type} (n : nat) (a : ndarray A) : outcome (ndarray A) :=
  let total := List.length (flat a) in
  if (n =? 0)%nat then Raise ValueError
  else if (total mod n =? 0)%nat then Ret (mkArray [1%nat; n; (total / n)%nat] (flat a))
  else Raise ValueError.

Definition set_program_u_cluster_color (a : option (ndarray Z)) (v : SpikeVisual) : SpikeVisual :=
  let f := fields v in
  with_fields (mkSpikeFields (n_spikes f) (_spike_clusters f) (_spike_ids f) (_masks f)
                 (n_channels f) (_cluster_colors f) a) v.

(** [_bake_color()] *)
Definition _bake_color : M SpikeVisual unit :=
  v <- get ;;
  colors <- getattr (_cluster_colors (fields v)) ;;
  n_cl <- n_clusters ;;
  u_cluster_color <- lift (reshape_1_n n_cl colors) ;;
  let u_cluster_color :=
    mkArray (shape u_cluster_color) (map to_uint8 (flat u_cluster_color)) in
  modify (set_program_u_cluster_color (Some u_cluster_color)).

(** [hasattr]/[getattr] on a [BaseSpikeVisual], for the names [_bake] asks. *)
Definition spike_methods (name : string) : option (M SpikeVisual unit) :=
  if String.eqb name "_bake_color" then Some _bake_color else None.

End BaseSpikeVisual.

(** *** AxisVisual (a BoxVisual) *)

(** The attributes of [AxisVisual] and the two entries of its GPU program that
    its bake methods write. *)
Record AxisFields : Type := mkAxisFields {
  _n_rows : option Z;
  _positions : list Q;
  program_n_rows : option Z;
  program_a_position : option (ndarray Q)
}.

Definition AxisVisual : Type := Visual AxisFields.

(** [AxisVisual.__init__] *)
Definition new_axis_visual : AxisVisual :=
  new_visual (mkAxisFields None [0%Q; 0%Q] None None).

(** [BoxVisual.n_rows.setter] *)
Definition n_rows_setter (value : Z) : M AxisVisual unit :=
  assert (0 <=? value)%Z ;;
  modify (fun v =>
            let f := fields v in
            with_fields (mkAxisFields (Some value) (_positions f)
                           (program_n_rows f) (program_a_position f)) v) ;;
  modify (with_empty (negb (0 <? value)%Z)) ;;
  set_to_bake ["n_rows"].

(** [AxisVisual.positions.setter] *)
Definition positions_setter (value : list Q) : M AxisVisual unit :=
  assert (List.length value =? 2)%nat ;;
  modify (fun v =>
            let f := fields v in
            with_fields (mkAxisFields (_n_rows f) value
                           (program_n_rows f) (program_a_position f)) v) ;;
  set_to_bake ["positions"].

(** [AxisVisual._bake_n_rows] *)
Definition _bake_n_rows : M AxisVisual unit :=
  modify (fun v =>
            let f := fields v in
            with_fields (mkAxisFields (_n_rows f) (_positions f)
                           (_n_rows f) (program_a_position f)) v).

(** The vertices of the two axes of box [i]: position, box index, axis. *)
Definition axis_rows (x y : Q) (i : nat) : list Q :=
  let c := 1%Q in
  let k := inject_Z (Z.of_nat i) in
  [x; (- c)%Q; k; 0%Q;
   x; c; k; 0%Q;
   (- c)%Q; y; k; 1%Q;
   c; y; k; 1%Q].

(** [AxisVisual._bake_positions] *)
Definition _bake_positions : M AxisVisual unit :=
  v <- get ;;
  match _n_rows (fields v) with
  | None => ret tt
  | Some n =>
      if (n =? 0)%Z then ret tt
      else
        match _positions (fields v) with
        | [x; y] =>
            let n_boxes := Z.to_nat (n * n) in
            let position :=
              mkArray [(4 * n_boxes)%nat; 4%nat]
                (flat_map (axis_rows x y) (seq 0 n_boxes)) in
            let f := fields v in
            put (with_fields (mkAxisFields (_n_rows f) (_positions f)
                                (program_n_rows f) (Some position)) v)
        | _ => raise ValueError
        end
  end.

(** [hasattr]/[getattr] on an [AxisVisual], for the names [_bake] asks. *)
Definition axis_methods (name : string) : option (M AxisVisual unit) :=
  if String.eqb name "_bake_n_rows" then Some _bake_n_rows
  else if String.eqb name "_bake_positions" then Some _bake_positions
  else None.

(** [AxisVisual._gl_draw_mode], inherited from [BoxVisual]. *)
Definition axis_gl_draw_mode : string := "lines".

(** *** Statements about the pipeline, to be compared with the code *)

Section Statements.

Variable D : Type.
Variable methods : string -> option (M (Visual D) unit).

(** The dirty set when the loop of [_bake] is over, before it is reset. *)
Definition marks_after_loop (w : World D) : list string :=
  _to_bake (visual (snd (for_each (sorted (_to_bake (visual w))) (bake_one methods) w))).

(** "A name marked by a bake routine while the pass is processing is
    preserved for the next drain." *)
Definition marks_survive_bake (w : World D) : Prop :=
  forall r w', _bake methods w = (Ret r, w') ->
    forall name,
      In name (marks_after_loop w) -> ~ In name (_to_bake (visual w)) ->
      In name (_to_bake (visual w')).

(** The visual after the bake routines of [names] ran on it one after the
    other, the names without a routine being skipped; [None] when a routine
    raised. *)
Fixpoint routines_run (names : list string) (v : Visual D) : option (Visual D) :=
  match names with
  | [] => Some v
  | bake :: names' =>
      match methods ("_bake_" ++ bake) with
      | None => routines_run names' v
      | Some method =>
          match method v with
          | (Ret _, v1) => routines_run names' v1
          | (Raise _, _) => None
          end
      end
  end.

(** "The pass returns whether any work was performed": true exactly when a
    bake routine was invoked. *)
Definition returns_work_performed (w : World D) : Prop :=
  forall r w', _bake methods w = (Ret r, w') ->
    (r = Some true
     <-> (List.length (baked (gl_log w)) < List.length (baked (gl_log w')))%nat).

End Statements.

(** *** Concrete helpers, visuals and arrays *)

(** An array is its own conversion. *)
Definition as_array_id (A : Type) (a : ndarray A) : ndarray A := a.

(** The sorted distinct values of an integer array. *)
Fixpoint insert_distinct (x : Z) (l : list Z) : list Z :=
  match l with
  | [] => [x]
  | y :: l' =>
      if (x <? y)%Z then x :: l
      else if (x =? y)%Z then l
      else y :: insert_distinct x l'
  end.

Definition np_unique (a : ndarray Z) : ndarray Z :=
  let values := fold_right insert_distinct [] (flat a) in
  mkArray [List.length values] values.

(** A subclass of [AxisVisual] whose [_bake_n_rows] asks for the positions to
    be baked again, since their number depends on [n_rows]. *)
Definition remarking_methods (name : string) : option (M AxisVisual unit) :=
  if String.eqb name "_bake_n_rows"
  then Some (_bake_n_rows ;; set_to_bake ["positions"])
  else axis_methods name.

(** A visual in a frame that has logged nothing yet. *)
Definition fresh {D : Type} (v : Visual D) : World D := mkWorld v [].

(** [v = AxisVisual(); v.n_rows = 2] *)
Definition axis_two_rows : AxisVisual := snd (n_rows_setter 2 new_axis_visual).

(** [v = AxisVisual(); v.positions = (.5, .5); v.n_rows = 2] *)
Definition axis_positions_then_rows : AxisVisual :=
  snd (n_rows_setter 2 (snd (positions_setter [1 # 2; 1 # 2] new_axis_visual))).

(** [v = AxisVisual(); v.n_rows = 0; v.positions = (.5, .5)]: an empty visual
    with two pending names. *)
Definition axis_no_rows : AxisVisual :=
  snd (positions_setter [1 # 2; 1 # 2] (snd (n_rows_setter 0 new_axis_visual))).

(** [v = AxisVisual(); v.positions = (.5, .5); v.n_rows = 2; v.empty = True]:
    a visual made empty with two pending names. *)
Definition axis_hidden : AxisVisual :=
  snd (empty_setter true axis_positions_then_rows).

Definition clusters_01 : ndarray Z := mkArray [2%nat] [0%Z; 1%Z].

(** A non-empty spike visual whose spike clusters were just assigned. *)
Definition spikes_reclustered : SpikeVisual :=
  snd (empty_setter false
         (snd (spike_clusters_setter as_array_id clusters_01 new_spike_visual))).

Definition colors_2x3 : ndarray Q :=
  mkArray [2%nat; 3%nat] [1; 0; 0; 0; 1; 0]%Q.

Definition colors_3x3 : ndarray Q :=
  mkArray [3%nat; 3%nat] [1; 0; 0; 0; 1; 0; 0; 0; 1]%Q.

(** A spike visual with two spikes in two clusters and their two colours. *)
Definition two_clusters : SpikeVisual :=
  snd (cluster_colors_setter as_array_id np_unique colors_2x3
         (snd (spike_clusters_setter as_array_id clusters_01
                 (snd (spike_ids_setter as_array_id (arange 2) new_spike_visual))))).

(** A spike visual with 50 spikes on 3 channels, and masks for 100 spikes. *)
Definition fifty_spikes : SpikeVisual :=
  snd (spike_ids_setter as_array_id (arange 50)
         (set_n_channels (Some 3%nat) new_spike_visual)).

Definition masks_100x3 : ndarray Q :=
  mkArray [100%nat; 3%nat] (repeat 1%Q 300).

(** The non-empty visual [two_clusters] after its spike clusters were
    replaced by an array of a single spike, while it still shows two spikes. *)
Definition clusters_too_short : SpikeVisual :=
  snd (spike_clusters_setter as_array_id (mkArray [1%nat] [0%Z])
         (snd (empty_setter false two_clusters))).

(** [v = AxisVisual(); v.n_rows = n; v.positions = (x, y)], then a frame. *)
Definition axis_frame (n : Z) (x y : Q) : M (World AxisFields) unit :=
  on_visual (n_rows_setter n) ;;
  on_visual (positions_setter [x; y]) ;;
  draw axis_gl_draw_mode axis_methods.

(** *** The dirty list *)

(** The dirty list [l] once the names [bakes] have been marked, one after
    the other. *)
Definition marked (bakes l : list string) : list string :=
  fold_left (fun l bake => if mem bake l then l else (l ++ [bake])%list) bakes l.

End Bake.

(** ** _tesselate_histogram *)

(** The function builds its two coordinate columns by strided slice
    assignment.  Columns are lists of rationals, as the elements of the
    arrays above: the statements are about which value lands in which cell. *)

Module Histogram.

Import Bake.

Definition obind {A B : Type} (o : outcome A) (k : A -> outcome B) : outcome B :=
  match o with
  | Ret a => k a
  | Raise e => Raise e
  end.

Declare Scope outcome_scope.
Delimit Scope outcome_scope with outcome.

Notation "x <~ c1 ;; c2" := (obind c1 (fun x => c2))
  (at level 61, c1 at next level, right associativity) : outcome_scope.

(** [a / n] for a float [a] and an integer [n] *)
Definition fdiv (a : Q) (n : nat) : outcome Q :=
  if (n =? 0)%nat then Raise ZeroDivisionError
  else Ret (a / inject_Z (Z.of_nat n))%Q.

(** [l[i] = v] for a position [i] inside the list. *)
Fixpoint update {A : Type} (i : nat) (v : A) (l : list A) : list A :=
  match l, i with
  | [], _ => []
  | _ :: l', O => v :: l'
  | a :: l', S i' => a :: update i' v l'
  end.

(** A bound of a slice over [n] elements, [None] when it is omitted: a
    negative bound counts from the end, and every bound is clipped. *)
Definition slice_bound (n : nat) (b : option Z) (default : nat) : nat :=
  match b with
  | None => default
  | Some z => if (z <? 0)%Z then Z.to_nat (Z.of_nat n + z) else Nat.min (Z.to_nat z) n
  end.

Fixpoint range_from (start step count : nat) : list nat :=
  match count with
  | O => []
  | S c => start :: range_from (start + step) step c
  end.

(** [range(start, stop, step)] for a positive [step]. *)
Definition range (start stop step : nat) : list nat :=
  range_from start step ((stop - start + (step - 1)) / step).

(** The cells [idx] of [l] receive the elements of [src], in order. *)
Fixpoint write {A : Type} (idx : list nat) (src : list A) (l : list A) : list A :=
  match idx, src with
  | i :: idx', v :: src' => write idx' src' (update i v l)
  | _, _ => l
  end.

(** [x[start:stop:step] = src]: the source has one element per selected cell,
    or a single element that is broadcast; any other length raises. *)
Definition set_slice (start stop : option Z) (step : nat) (src x : list Q)
    : outcome (list Q) :=
  let n := List.length x in
  let idx := range (slice_bound n start 0) (slice_bound n stop n) step in
  if (List.length src =? List.length idx)%nat then Ret (write idx src x)
  else
    match src with
    | [v] => Ret (write idx (repeat v (List.length idx)) x)
    | _ => Raise ValueError
    end.

(** [x[i] = v] *)
Definition set_item (i : Z) (v : Q) (x : list Q) : outcome (list Q) :=
  match index_one (List.length x) i with
  | Raise e => Raise e
  | Ret k => Ret (update k v x)
  end.

Definition interleave (x y : list Q) : list Q :=
  flat_map (fun p => [fst p; snd p]) (combine x y).

(** [np.c_[x, y]]: the two columns side by side. *)
Definition c_ (x y : list Q) : outcome (ndarray Q) :=
  if (List.length x =? List.length y)%nat
  then Ret (mkArray [List.length x; 2%nat] (interleave x y))
  else Raise ValueError.

(** [_tesselate_histogram(hist)] *)
Definition _tesselate_histogram (hist : ndarray Q) : outcome (ndarray Q) :=
  (if negb (ndim hist =? 1)%nat then Raise AssertionError
   else
     nsamples <~ len hist ;;
     dx <~ fdiv 2 nsamples ;;
     let x0 := map (fun k => (-1 + dx * inject_Z (Z.of_nat k))%Q) (seq 0 nsamples) in
     let x := repeat 0%Q (5 * nsamples + 1) in
     let y := repeat (-1 * 1)%Q (5 * nsamples + 1) in
     x <~ set_slice (Some 0%Z) (Some (-1)%Z) 5 x0 x ;;
     x <~ set_slice (Some 1%Z) None 5 x0 x ;;
     x <~ set_slice (Some 2%Z) None 5 (map (fun a => (a + dx)%Q) x0) x ;;
     x <~ set_slice (Some 3%Z) None 5 x0 x ;;
     x <~ set_slice (Some 4%Z) None 5 (map (fun a => (a + dx)%Q) x0) x ;;
     x <~ set_item (-1) 1%Q x ;;
     let top := map (fun h => (-1 + 2 * h)%Q) (flat hist) in
     y <~ set_slice (Some 1%Z) None 5 top y ;;
     y <~ set_slice (Some 2%Z) None 5 top y ;;
     c_ x y)%outcome.

(** Row [k] of an array with two columns. *)
Definition row (a : ndarray Q) (k : nat) : Q * Q :=
  (nth (2 * k) (flat a) 0%Q, nth (2 * k + 1) (flat a) 0%Q).

(** A histogram of three bins. *)
Definition hist_3 : ndarray Q := mkArray [3%nat] [1 # 2; 1; 0]%Q.

End Histogram.

(** * Properties of the pan/zoom transform *)

Unset Implicit Arguments.

Module PanZoomSpec.

Import PanZoom.
Local Open Scope R_scope.

(** Python's [min] and [max] agree with the real minimum and maximum. *)
Lemma py_min_Rmin (a b : R) : py_min a b = Rmin a b.
Proof.
  unfold py_min, Rmin.
  destruct (Rlt_dec b a), (Rle_dec a b); lra.
Qed.

Lemma py_max_Rmax (a b : R) : py_max a b = Rmax a b.
Proof.
  unfold py_max, Rmax.
  destruct (Rlt_dec a b), (Rle_dec a b); lra.
Qed.

Lemma py_min_le_r (a b : R) : py_min a b <= b.
Proof. unfold py_min; destruct (Rlt_dec b a); lra. Qed.

Lemma py_max_ge_r (a b : R) : b <= py_max a b.
Proof. unfold py_max; destruct (Rlt_dec a b); lra. Qed.

(** The zoom setter leaves the bounds alone and stores the clamped value,
    attached or not. *)
Lemma zoom_setter_fields (z : R) (pz : t) :
  _zoom (zoom_setter z pz) = py_max (py_min z (_zmax pz)) (_zmin pz)
  /\ _zmin (zoom_setter z pz) = _zmin pz
  /\ _zmax (zoom_setter z pz) = _zmax pz
  /\ _pan (zoom_setter z pz) = _pan pz
  /\ _canvas (zoom_setter z pz) = _canvas pz
  /\ _aspect (zoom_setter z pz) = _aspect pz
  /\ _canvas_aspect (zoom_setter z pz) = _canvas_aspect pz
  /\ _zoom_to_pointer (zoom_setter z pz) = _zoom_to_pointer pz.
Proof.
  unfold zoom_setter, is_attached; simpl.
  destruct (_canvas pz) eqn:E; simpl; rewrite ?E; repeat split; reflexivity.
Qed.

(** C3, as the code has it.  For every zoom input [z] the zoom setter stores
    the maximum of [zmin] and the minimum of [z] and [zmax] and leaves the
    bounds untouched; it is a total function, so no input is rejected.  The
    stored zoom is never below [zmin].  It is at most [zmax] when the bounds
    are ordered, [zmin <= zmax]; when they are crossed the stored zoom is
    [zmin], above [zmax], whatever [z] is. *)
Theorem zoom_setter_clamps (pz : t) (z : R) :
  _zoom (zoom_setter z pz) = Rmax (Rmin z (_zmax pz)) (_zmin pz)
  /\ _zmin (zoom_setter z pz) = _zmin pz
  /\ _zmax (zoom_setter z pz) = _zmax pz
  /\ _zmin (zoom_setter z pz) <= _zoom (zoom_setter z pz)
  /\ (_zmin pz <= _zmax pz ->
      _zmin (zoom_setter z pz) <= _zoom (zoom_setter z pz) <= _zmax (zoom_setter z pz))
  /\ (_zmax pz < _zmin pz ->
      _zoom (zoom_setter z pz) = _zmin pz
      /\ _zmax (zoom_setter z pz) < _zoom (zoom_setter z pz)).
Proof.
  destruct (zoom_setter_fields z pz) as (Hz & Hmin & Hmax & _).
  rewrite Hz, Hmin, Hmax, py_min_Rmin, py_max_Rmax.
  split; [reflexivity |]. split; [reflexivity |]. split; [reflexivity |].
  split; [apply Rmax_r |].
  split.
  - intro Hbounds. split; [apply Rmax_r |].
    apply Rmax_lub; [apply Rmin_r | assumption].
  - intro Hcrossed.
    pose proof (Rmin_r z (_zmax pz)) as Hm.
    assert (Heq : Rmax (Rmin z (_zmax pz)) (_zmin pz) = _zmin pz)
      by (apply Rmax_right; lra).
    rewrite Heq. split; [reflexivity | exact Hcrossed].
Qed.

(** Scenario 1: zoom=1.0, zmin=0.1, zmax=10.0, then the setter with 50.0. *)
Lemma zoom_setter_clamps_witness :
  _zmin (__init__ (Some 1) (Fin 0, Fin 0) 1 (1 / 10) 10)
    <= _zmax (__init__ (Some 1) (Fin 0, Fin 0) 1 (1 / 10) 10)
  /\ _zoom (zoom_setter 50 (__init__ (Some 1) (Fin 0, Fin 0) 1 (1 / 10) 10)) = 10
  /\ _zmin (zoom_setter 50 (__init__ (Some 1) (Fin 0, Fin 0) 1 (1 / 10) 10))
       <= _zoom (zoom_setter 50 (__init__ (Some 1) (Fin 0, Fin 0) 1 (1 / 10) 10))
       <= _zmax (zoom_setter 50 (__init__ (Some 1) (Fin 0, Fin 0) 1 (1 / 10) 10)).
Proof.
  assert (Hb : _zmin (__init__ (Some 1) (Fin 0, Fin 0) 1 (1 / 10) 10)
               <= _zmax (__init__ (Some 1) (Fin 0, Fin 0) 1 (1 / 10) 10))
    by (simpl; lra).
  destruct (zoom_setter_clamps (__init__ (Some 1) (Fin 0, Fin 0) 1 (1 / 10) 10) 50)
    as (Hz & _ & _ & _ & Hin & _).
  split; [exact Hb |]. split; [| exact (Hin Hb)].
  rewrite Hz; simpl.
  unfold Rmin, Rmax.
  destruct (Rle_dec 50 10); [lra |].
  destruct (Rle_dec 10 (1 / 10)); lra.
Defined.

(** C3, as stated for every transform, fails: the constructor accepts
    [zmin=10.0, zmax=1.0], and on that transform the setter called with 5.0
    stores 10.0, which is above [zmax]. *)
Lemma crossed_bounds_escape_zmax : ~ zoom_within_bounds crossed_bounds 5.
Proof.
  unfold zoom_within_bounds.
  destruct (zoom_setter_fields 5 crossed_bounds) as (Hz & Hmin & Hmax & _).
  rewrite Hz, Hmin, Hmax. simpl.
  unfold py_min, py_max.
  destruct (Rlt_dec 1 5); [| lra].
  destruct (Rlt_dec 1 10); lra.
Qed.

Lemma run_bound_call_ordered (pz : t) (c : bound_call) :
  _zmin (run_bound_call pz c) <= _zmax (run_bound_call pz c).
Proof.
  destruct c as [v | v]; simpl.
  - apply py_min_le_r.
  - apply py_max_ge_r.
Qed.

(** C4. After every call of a zoom-bound setter, whatever the calls before
    it, their order and their values, [zmin <= zmax] holds: the [zmin] setter
    stores the minimum of its value and the current [zmax], the [zmax] setter
    the maximum of its value and the current [zmin]. *)
Theorem zoom_bounds_ordered (pz : t) (cs : list bound_call) (c : bound_call) :
  _zmin (run_bound_calls (cs ++ [c]) pz) <= _zmax (run_bound_calls (cs ++ [c]) pz)
  /\ (forall v, _zmin (zmin_setter v pz) = Rmin v (_zmax pz)
                /\ _zmax (zmin_setter v pz) = _zmax pz)
  /\ (forall v, _zmax (zmax_setter v pz) = Rmax v (_zmin pz)
                /\ _zmin (zmax_setter v pz) = _zmin pz).
Proof.
  split; [| split].
  - unfold run_bound_calls. rewrite fold_left_app. simpl.
    apply run_bound_call_ordered.
  - intro v; simpl; rewrite py_min_Rmin; split; reflexivity.
  - intro v; simpl; rewrite py_max_Rmax; split; reflexivity.
Qed.

(** C10. The constructor stores [pan], [zoom], [zmin] and [zmax] as given,
    unclamped and unchecked, so a new transform satisfies
    [zmin <= zoom <= zmax] exactly when the arguments do.
    [PanZoom(zoom=50.0, zmax=10.0)] has zoom 50.0, above its [zmax]; the
    other setters leave it there and the zoom setter is the first to clamp. *)
Theorem init_stores_verbatim
    (aspect : option R) (pan : npfloat * npfloat) (zoom zmin zmax : R) :
  _pan (__init__ aspect pan zoom zmin zmax) = pan
  /\ _zoom (__init__ aspect pan zoom zmin zmax) = zoom
  /\ _zmin (__init__ aspect pan zoom zmin zmax) = zmin
  /\ _zmax (__init__ aspect pan zoom zmin zmax) = zmax
  /\ (_zmin (__init__ aspect pan zoom zmin zmax)
        <= _zoom (__init__ aspect pan zoom zmin zmax)
        <= _zmax (__init__ aspect pan zoom zmin zmax)
      <-> zmin <= zoom <= zmax)
  /\ _zoom (__init__ (Some 1) (Fin 0, Fin 0) 50 (1 / 100000) 10) = 50
  /\ ~ (_zoom (__init__ (Some 1) (Fin 0, Fin 0) 50 (1 / 100000) 10)
          <= _zmax (__init__ (Some 1) (Fin 0, Fin 0) 50 (1 / 100000) 10))
  /\ (forall v, _zoom (zmin_setter v (__init__ aspect pan zoom zmin zmax)) = zoom)
  /\ (forall v, _zoom (zmax_setter v (__init__ aspect pan zoom zmin zmax)) = zoom)
  /\ (forall v, _zoom (pan_setter v (__init__ aspect pan zoom zmin zmax)) = zoom)
  /\ _zoom (zoom_setter 50 (__init__ (Some 1) (Fin 0, Fin 0) 50 (1 / 100000) 10)) = 10.
Proof.
  simpl. repeat split; try tauto; try lra.
  unfold zoom_setter; simpl. unfold py_min, py_max.
  destruct (Rlt_dec 10 50); [| lra].
  destruct (Rlt_dec 10 (1 / 100000)); lra.
Qed.

(** *** Attachment and the zoom uniform *)

Lemma div_Ret (a b : R) : b <> 0 -> div a b = Ret (a / b).
Proof.
  intro Hb. unfold div. destruct (Req_dec_T b 0); [contradiction | reflexivity].
Qed.

Lemma div_Raise (a : R) : div a 0 = Raise ZeroDivisionError.
Proof.
  unfold div. destruct (Req_dec_T 0 0); [reflexivity | lra].
Qed.

Lemma attach_ok (c : Canvas) (pz : t) :
  snd (size c) <> 0 -> attach c pz = (Ret tt, attached c pz).
Proof.
  intro Hh.
  unfold attach, bind, modify, get, lift, connect, put; simpl.
  rewrite div_Ret by assumption; simpl.
  reflexivity.
Qed.

Lemma attached_effective_zoom (c : Canvas) (pz : t) :
  _u_zoom (attached c pz) = effective_zoom (attached c pz).
Proof. reflexivity. Qed.

Lemma zoom_setter_unattached (z : R) (pz : t) :
  is_attached pz = false ->
  zoom_setter z pz = with_zoom (py_max (py_min z (_zmax pz)) (_zmin pz)) pz.
Proof.
  unfold zoom_setter, is_attached; simpl.
  intro H. destruct (_canvas pz); [discriminate | reflexivity].
Qed.

Lemma zoom_setter_attached (z : R) (pz : t) :
  is_attached pz = true ->
  _u_zoom (zoom_setter z pz) = effective_zoom (zoom_setter z pz)
  /\ _programs (zoom_setter z pz)
     = map (set_u_zoom (effective_zoom (zoom_setter z pz))) (_programs pz).
Proof.
  unfold zoom_setter, is_attached; simpl.
  intro H. destruct (_canvas pz) eqn:E; [| discriminate].
  simpl. split; reflexivity.
Qed.

Lemma add_one (p : Program) (pz : t) :
  _programs (add [p] pz)
  = (_programs pz ++ [set_u_pan (_u_pan pz) (set_u_zoom (_u_zoom pz) p)])%list.
Proof. reflexivity. Qed.

(** C9, as the code has it.  While the transform is unattached the zoom
    setter stores the clamped value and changes nothing else: no uniform is
    pushed.  [attach] then recomputes the transform's own zoom uniform from
    the stored zoom but pushes nothing: the registered programs are exactly
    as before.  The stored zoom reaches them with the next zoom setter call,
    which writes the effective zoom to every registered program, and a
    program registered after [attach] receives it at registration. *)
Theorem zoom_push_deferred_past_attach
    (pz : t) (z : R) (c : Canvas)
    (Hun : is_attached pz = false) (Hh : snd (size c) <> 0) :
  zoom_setter z pz = with_zoom (py_max (py_min z (_zmax pz)) (_zmin pz)) pz
  /\ _programs (zoom_setter z pz) = _programs pz
  /\ _u_zoom (zoom_setter z pz) = _u_zoom pz
  /\ exists pz',
       attach c (zoom_setter z pz) = (Ret tt, pz')
       /\ is_attached pz' = true
       /\ _zoom pz' = _zoom (zoom_setter z pz)
       /\ _u_zoom pz' = effective_zoom pz'
       /\ _programs pz' = _programs pz
       /\ (forall z' p, In p (_programs (zoom_setter z' pz')) ->
             u_zoom p = Some (effective_zoom (zoom_setter z' pz')))
       /\ (forall p, exists q,
             _programs (add [p] pz') = (_programs pz' ++ [q])%list
             /\ u_zoom q = Some (effective_zoom pz')).
Proof.
  rewrite (zoom_setter_unattached z pz Hun).
  split; [reflexivity |]. split; [reflexivity |]. split; [reflexivity |].
  exists (attached c (with_zoom (py_max (py_min z (_zmax pz)) (_zmin pz)) pz)).
  split; [apply attach_ok; assumption |].
  split; [reflexivity |]. split; [reflexivity |].
  split; [apply attached_effective_zoom |].
  split; [reflexivity |].
  split.
  - intros z' p Hin.
    destruct (zoom_setter_attached z'
                (attached c (with_zoom (py_max (py_min z (_zmax pz)) (_zmin pz)) pz)))
      as [_ Hps]; [reflexivity |].
    rewrite Hps in Hin. apply in_map_iff in Hin.
    destruct Hin as (q & Hq & _). subst p. reflexivity.
  - intro p. eexists. split; [apply add_one |].
    simpl. reflexivity.
Qed.

Lemma zoom_push_deferred_past_attach_witness :
  is_attached (add [blank_program] default) = false
  /\ snd (size canvas_2x2) <> 0
  /\ _programs (zoom_setter 2 (add [blank_program] default))
     = _programs (add [blank_program] default).
Proof.
  split; [reflexivity |]. split; [simpl; lra |].
  destruct (zoom_push_deferred_past_attach (add [blank_program] default) 2 canvas_2x2)
    as (_ & H & _); [reflexivity | simpl; lra | exact H].
Defined.

(** C9, as stated, fails: a program registered before [attach] still holds
    the zoom uniform it was given at registration, [(1, 1)], after the zoom
    was set to 2 and the transform attached, when the effective zoom is
    [(2, 2)]. *)
Lemma attach_pushes_nothing :
  ~ pushed_at_attach (add [blank_program] default) 2 canvas_2x2.
Proof.
  unfold pushed_at_attach. intro H.
  assert (Hh : snd (size canvas_2x2) <> 0) by (simpl; lra).
  specialize (H _ (attach_ok canvas_2x2 _ Hh)
                (mkProgram (Some (Fin 0, Fin 0)) (Some (UVec 1 1)))).
  assert (Hz : zoom_setter 2 (add [blank_program] default)
               = with_zoom 2 (add [blank_program] default)).
  { rewrite zoom_setter_unattached by reflexivity. simpl.
    unfold py_min, py_max.
    destruct (Rlt_dec 100000 2); [lra |].
    destruct (Rlt_dec 2 (1 / 100000)); [lra | reflexivity]. }
  rewrite Hz in H.
  assert (Hin : In (mkProgram (Some (Fin 0, Fin 0)) (Some (UVec 1 1)))
                  (_programs (attached canvas_2x2
                                (with_zoom 2 (add [blank_program] default)))))
    by (simpl; left; reflexivity).
  specialize (H Hin).
  unfold effective_zoom, aspect_factor in H. simpl in H.
  unfold canvas_aspect_of in H.
  destruct (Rlt_dec 1 (2 / 2)) as [Hlt | _]; [lra |].
  simpl in H. injection H as Hx _. lra.
Qed.

(** *** The wheel handler *)

Lemma exp_gt_1 (x : R) : 0 < x -> 1 < exp x.
Proof.
  intro Hx. rewrite <- exp_0. apply exp_increasing. exact Hx.
Qed.

Lemma sign_pos (x : R) : 0 < x -> sign x = 1.
Proof.
  intro Hx. unfold sign. destruct (Rlt_dec 0 x); [reflexivity | contradiction].
Qed.

Lemma mod1_int (k : Z) : mod1 (IZR k) = 0.
Proof.
  unfold mod1, frac_part.
  rewrite <- (Int_part_spec (IZR k) k); lra.
Qed.




Lemma normalize_grid_ok (x_y : R * R) (pz : t) :
  _width pz <> 0 -> _height pz <> 0 -> IZR (_n_rows pz) <> 0 ->
  _normalize_grid x_y pz
  = (Ret (grid (fst x_y) (_width pz) (_n_rows pz),
          grid (snd x_y) (_height pz) (_n_rows pz)), pz).
Proof.
  intros Hw Hh Hn.
  unfold _normalize_grid, bind, get, lift, ret.
  rewrite (div_Ret _ _ Hw), (div_Ret _ _ Hh).
  rewrite !div_Ret by assumption.
  reflexivity.
Qed.


(** Arithmetic on numpy scalars. *)
Lemma np_div_Fin (x b : R) : b <> 0 -> np_div (Fin x) b = Fin (x / b).
Proof.
  intro Hb. unfold np_div. destruct (Req_dec_T b 0); [contradiction | reflexivity].
Qed.

Lemma np_div_zero (a : npfloat) : np_div a 0 = NonFinite.
Proof.
  destruct a as [x |]; [| reflexivity].
  unfold np_div. destruct (Req_dec_T 0 0); [reflexivity | lra].
Qed.



Lemma canvas_update_attached (c : Canvas) (pz : t) :
  _canvas pz = Some c -> canvas_update pz = (Ret tt, updated c pz).
Proof.
  intro Hc. unfold canvas_update, bind, get, put. rewrite Hc. reflexivity.
Qed.


(** The wheel handler, step by step, once the pointer is normalized. *)
Lemma on_mouse_wheel_steps (event : WheelEvent) (pz : t) :
  _width pz <> 0 -> _height pz <> 0 -> IZR (_n_rows pz) <> 0 ->
  on_mouse_wheel event pz
  = let pz1 := zoom_setter (_zoom pz * wheel_factor event) pz in
    let x0 := grid (fst (pos event)) (_width pz) (_n_rows pz) in
    let y0 := grid (snd (pos event)) (_height pz) (_n_rows pz) in
    if _zoom_to_pointer pz1 then
      match aspect_factor pz1 with
      | UScalar _ => (Raise TypeError, pz1)
      | UVec a0 a1 =>
          canvas_update
            (pan_setter
               (np_sub (fst (_pan pz))
                  (np_mul (Fin x0)
                     (np_sub (np_div (Fin 1) (_zoom pz * a0))
                        (np_div (Fin 1) (_zoom pz * wheel_factor event * a0)))),
                np_add (snd (_pan pz))
                  (np_mul (Fin y0)
                     (np_sub (np_div (Fin 1) (_zoom pz * a1))
                        (np_div (Fin 1) (_zoom pz * wheel_factor event * a1)))))
               pz1)
      end
    else canvas_update pz1.
Proof.
  intros Hw Hh Hn.
  unfold on_mouse_wheel. unfold bind at 1.
  rewrite (normalize_grid_ok _ _ Hw Hh Hn).
  unfold bind, get, modify, lift, ret, raise. fold (wheel_factor event).
  cbv zeta. cbn [fst snd].
  destruct (_zoom_to_pointer (zoom_setter (_zoom pz * wheel_factor event) pz));
    [| reflexivity].
  destruct (aspect_factor (zoom_setter (_zoom pz * wheel_factor event) pz))
    as [r | a0 a1]; reflexivity.
Qed.

(** The handler on an attached transform with zoom-to-pointer on and an
    aspect set: it returns, the zoom is the clamped product and pan is
    corrected with the product before clamping. *)
Lemma on_mouse_wheel_attached (event : WheelEvent) (pz : t) (c : Canvas) (a : R) :
  _canvas pz = Some c -> _aspect pz = Some a -> _zoom_to_pointer pz = true ->
  _width pz <> 0 -> _height pz <> 0 -> IZR (_n_rows pz) <> 0 ->
  let k := wheel_factor event in
  let x0 := grid (fst (pos event)) (_width pz) (_n_rows pz) in
  let y0 := grid (snd (pos event)) (_height pz) (_n_rows pz) in
  let ax := fst (_canvas_aspect pz) * a in
  let ay := snd (_canvas_aspect pz) * a in
  exists pz',
    on_mouse_wheel event pz = (Ret tt, pz')
    /\ _zoom pz' = py_max (py_min (_zoom pz * k) (_zmax pz)) (_zmin pz)
    /\ effective_zoom pz' = UVec (_zoom pz' * ax) (_zoom pz' * ay)
    /\ _pan pz'
       = (np_sub (fst (_pan pz))
            (np_mul (Fin x0)
               (np_sub (np_div (Fin 1) (_zoom pz * ax))
                  (np_div (Fin 1) (_zoom pz * k * ax)))),
          np_add (snd (_pan pz))
            (np_mul (Fin y0)
               (np_sub (np_div (Fin 1) (_zoom pz * ay))
                  (np_div (Fin 1) (_zoom pz * k * ay))))).
Proof.
  intros Hc Ha Hp Hw Hh Hn k x0 y0 ax ay.
  rewrite (on_mouse_wheel_steps event pz Hw Hh Hn). cbv zeta. fold k.
  destruct (zoom_setter_fields (_zoom pz * k) pz)
    as (Hz & _ & _ & Hpan & Hc1 & Ha1 & Hca1 & Hp1).
  set (pz1 := zoom_setter (_zoom pz * k) pz) in *. clearbody pz1.
  rewrite Hp1, Hp.
  unfold aspect_factor. rewrite Ha1, Ha, Hca1.
  fold ax ay. fold x0 y0.
  rewrite (canvas_update_attached c) by (simpl; rewrite Hc1; exact Hc).
  eexists. split; [reflexivity |].
  unfold effective_zoom, aspect_factor. simpl.
  rewrite Hz, Ha1, Ha, Hca1.
  repeat split; reflexivity.
Qed.

Lemma scaled_zoom_nonzero (z k ax : R) : 0 < k -> z * ax <> 0 -> z * k * ax <> 0.
Proof.
  intros Hk Hz H0. apply Hz.
  replace (z * k * ax) with (k * (z * ax)) in H0 by ring.
  apply Rmult_integral in H0. destruct H0; [lra | assumption].
Qed.

Lemma wheel_factor_pos (event : WheelEvent) : 0 < wheel_factor event.
Proof. unfold wheel_factor. apply exp_pos. Qed.

(** With a non-zero effective zoom the correction of pan is finite. *)
Lemma on_mouse_wheel_ok (event : WheelEvent) (pz : t) (c : Canvas) (a : R) :
  _canvas pz = Some c -> _aspect pz = Some a -> _zoom_to_pointer pz = true ->
  _width pz <> 0 -> _height pz <> 0 -> IZR (_n_rows pz) <> 0 ->
  _zoom pz * (fst (_canvas_aspect pz) * a) <> 0 ->
  _zoom pz * (snd (_canvas_aspect pz) * a) <> 0 ->
  let k := exp (25 / 10 * (sign (snd (delta event)) * (5 / 100))) in
  let x0 := grid (fst (pos event)) (_width pz) (_n_rows pz) in
  let y0 := grid (snd (pos event)) (_height pz) (_n_rows pz) in
  let ax := fst (_canvas_aspect pz) * a in
  let ay := snd (_canvas_aspect pz) * a in
  exists pz',
    on_mouse_wheel event pz = (Ret tt, pz')
    /\ _zoom pz' = py_max (py_min (_zoom pz * k) (_zmax pz)) (_zmin pz)
    /\ effective_zoom pz' = UVec (_zoom pz' * ax) (_zoom pz' * ay)
    /\ _pan pz'
       = (np_sub (fst (_pan pz))
            (Fin (x0 * (1 / (_zoom pz * ax) - 1 / (_zoom pz * k * ax)))),
          np_add (snd (_pan pz))
            (Fin (y0 * (1 / (_zoom pz * ay) - 1 / (_zoom pz * k * ay))))).
Proof.
  intros Hc Ha Hp Hw Hh Hn Hzx Hzy k x0 y0 ax ay.
  destruct (on_mouse_wheel_attached event pz c a Hc Ha Hp Hw Hh Hn)
    as (pz' & Hrun & Hz & Heff & Hpan).
  change (wheel_factor event) with k in Hz, Hpan.
  pose proof (wheel_factor_pos event) as Hk. change (wheel_factor event) with k in Hk.
  exists pz'. split; [exact Hrun |]. split; [exact Hz |]. split; [exact Heff |].
  rewrite Hpan.
  rewrite (np_div_Fin 1 _ Hzx), (np_div_Fin 1 _ Hzy).
  rewrite (np_div_Fin 1 _ (scaled_zoom_nonzero _ _ _ Hk Hzx)).
  rewrite (np_div_Fin 1 _ (scaled_zoom_nonzero _ _ _ Hk Hzy)).
  reflexivity.
Qed.

Lemma inv_lt_1 (k : R) : 1 < k -> / k < 1.
Proof.
  intro Hk. rewrite <- Rinv_1.
  apply Rinv_lt_contravar; lra.
Qed.

Lemma canvas_aspect_square : canvas_aspect_of (2 / 2) = (1, 1).
Proof.
  unfold canvas_aspect_of.
  destruct (Rlt_dec 1 (2 / 2)); [lra |].
  f_equal; lra.
Qed.

Lemma wheel_up_factor : exp (25 / 10 * (sign (snd (delta wheel_up_origin)) * (5 / 100))) = exp (1 / 8).
Proof.
  simpl. rewrite sign_pos by lra. f_equal. lra.
Qed.



Lemma at_zmax_eq :
  at_zmax = attached canvas_2x2 (__init__ (Some 1) (Fin 0, Fin 0) 1 (1 / 10) 1).
Proof.
  unfold at_zmax. rewrite attach_ok by (simpl; lra). reflexivity.
Qed.



Lemma clamp_inside (z lo hi : R) : lo <= z <= hi -> py_max (py_min z hi) lo = z.
Proof.
  intros [Hlo Hhi]. unfold py_min, py_max.
  destruct (Rlt_dec hi z); [lra |].
  destruct (Rlt_dec z lo); lra.
Qed.

(** Away from the zoom bounds the handler does what C7 says: the zoom is
    multiplied by [exp(2.5 * sign(delta) * 0.05)] and pan moves by the
    grid-normalized pointer times the difference of the inverse effective
    zooms before and after the event. *)
Lemma wheel_unclamped_follows_pointer
    (event : WheelEvent) (pz : t) (c : Canvas) (a : R) :
  _canvas pz = Some c -> _aspect pz = Some a -> _zoom_to_pointer pz = true ->
  _width pz <> 0 -> _height pz <> 0 -> IZR (_n_rows pz) <> 0 ->
  _zoom pz * (fst (_canvas_aspect pz) * a) <> 0 ->
  _zoom pz * (snd (_canvas_aspect pz) * a) <> 0 ->
  _zmin pz
    <= _zoom pz * exp (25 / 10 * (sign (snd (delta event)) * (5 / 100)))
    <= _zmax pz ->
  pan_follows_pointer pz event
  /\ exists pz',
       on_mouse_wheel event pz = (Ret tt, pz')
       /\ _zoom pz' = _zoom pz * exp (25 / 10 * (sign (snd (delta event)) * (5 / 100))).
Proof.
  intros Hc Ha Hp Hw Hh Hn Hzx Hzy Hin.
  destruct (on_mouse_wheel_ok event pz c a Hc Ha Hp Hw Hh Hn Hzx Hzy)
    as (pz' & Hrun & Hz & Heff & Hpan).
  rewrite (clamp_inside _ _ _ Hin) in Hz.
  split.
  - intros pz'' x0 y0 zx zy zx' zy' Hrun' Hnorm He He'.
    rewrite Hrun in Hrun'. injection Hrun' as <-.
    rewrite (normalize_grid_ok _ _ Hw Hh Hn) in Hnorm. simpl in Hnorm.
    injection Hnorm as <- <-.
    rewrite Heff, Hz in He'. injection He' as <- <-.
    unfold effective_zoom, aspect_factor in He. rewrite Ha in He. simpl in He.
    injection He as <- <-.
    exact Hpan.
  - exists pz'. split; assumption.
Qed.

(** C7 at the upper zoom bound.  With the zoom already on [zmax], one wheel
    notch up leaves the zoom and the effective zoom vector as they were (the
    setter clamps), so the correction the claim describes is zero and the
    point under the pointer would stay where it is; the handler computes the
    correction from the product before clamping and moves pan from [(0, 0)]
    to [(1 - 1/exp(1/8), -(1 - 1/exp(1/8)))]. *)
Theorem wheel_at_zmax_moves_pan :
  exists pz',
    on_mouse_wheel wheel_up_origin at_zmax = (Ret tt, pz')
    /\ _zoom at_zmax = 1
    /\ _zoom pz' = 1
    /\ effective_zoom pz' = effective_zoom at_zmax
    /\ _pan at_zmax = (Fin 0, Fin 0)
    /\ _pan pz' = (Fin (1 - / exp (1 / 8)), Fin (- (1 - / exp (1 / 8))))
    /\ 0 < 1 - / exp (1 / 8)
    /\ ~ pan_follows_pointer at_zmax wheel_up_origin.
Proof.
  rewrite at_zmax_eq.
  set (pz := attached canvas_2x2 (__init__ (Some 1) (Fin 0, Fin 0) 1 (1 / 10) 1)).
  assert (Hca : _canvas_aspect pz = (1, 1)) by apply canvas_aspect_square.
  pose proof (exp_gt_1 (1 / 8) ltac:(lra)) as Hk1.
  pose proof (inv_lt_1 _ Hk1) as Hk.
  assert (Hw : _width pz <> 0) by (simpl; lra).
  assert (Hh : _height pz <> 0) by (simpl; lra).
  assert (Hn : IZR (_n_rows pz) <> 0) by (simpl; lra).
  destruct (on_mouse_wheel_ok wheel_up_origin pz
              (mkCanvas (2, 2)
                 ["on_resize"%string; "on_mouse_wheel"%string;
                  "on_mouse_move"%string; "on_key_press"%string] 0) 1)
    as (pz' & Hrun & Hz & Heff & Hpan);
    try reflexivity; try assumption; try (rewrite Hca; simpl; lra).
  rewrite wheel_up_factor in Hz, Hpan.
  set (k := exp (1 / 8)) in *.
  assert (Hz1 : _zoom pz' = 1).
  { rewrite Hz. simpl. unfold py_min, py_max.
    destruct (Rlt_dec 1 (1 * k)); [| lra].
    destruct (Rlt_dec 1 (1 / 10)); lra. }
  assert (Hx0 : grid 0 2 1 = -1).
  { unfold grid. replace (0 / 2 * 1) with (IZR 0) by lra.
    rewrite mod1_int. lra. }
  assert (Hpan' : _pan pz' = (Fin (1 - / k), Fin (- (1 - / k)))).
  { rewrite Hpan, Hca. simpl. rewrite Hx0. f_equal; f_equal; field; lra. }
  assert (Heq : effective_zoom pz' = effective_zoom pz).
  { rewrite Heff, Hz1. reflexivity. }
  exists pz'. split; [exact Hrun |].
  split; [reflexivity |]. split; [exact Hz1 |]. split; [exact Heq |].
  split; [reflexivity |]. split; [exact Hpan' |]. split; [lra |].
  intro Hclaim.
  specialize (Hclaim pz' (grid 0 2 1) (grid 0 2 1)
                (1 * (1 * 1)) (1 * (1 * 1)) (1 * (1 * 1)) (1 * (1 * 1)) Hrun).
  rewrite Hpan' in Hclaim.
  assert (H : (Fin (1 - / k), Fin (- (1 - / k)))
              = (np_sub (fst (_pan pz))
                   (Fin (grid 0 2 1 * (1 / (1 * (1 * 1)) - 1 / (1 * (1 * 1))))),
                 np_add (snd (_pan pz))
                   (Fin (grid 0 2 1 * (1 / (1 * (1 * 1)) - 1 / (1 * (1 * 1))))))).
  { apply Hclaim.
    - rewrite (normalize_grid_ok _ _ Hw Hh Hn). reflexivity.
    - unfold effective_zoom, aspect_factor. simpl. rewrite canvas_aspect_square.
      reflexivity.
    - rewrite Heq. unfold effective_zoom, aspect_factor. simpl.
      rewrite canvas_aspect_square. reflexivity. }
  simpl in H. injection H as Hx _. lra.
Qed.

End PanZoomSpec.

(** * Properties of the bake pipeline *)

Module BakeSpec.

Import Bake.
Local Open Scope string_scope.

Lemma leb_false_flip (a b : string) : String.leb a b = false -> String.leb b a = true.
Proof.
  intro H. destruct (String.leb_total a b) as [Hab | Hba]; [congruence | exact Hba].
Qed.

Lemma insert_perm (x : string) (l : list string) : Permutation (insert x l) (x :: l).
Proof.
  induction l as [| y l IH]; simpl.
  - apply Permutation_refl.
  - destruct (String.leb x y).
    + apply Permutation_refl.
    + apply perm_trans with (y :: x :: l).
      * apply perm_skip. exact IH.
      * apply perm_swap.
Qed.

Lemma sorted_perm (l : list string) : Permutation (sorted l) l.
Proof.
  induction l as [| x l IH]; simpl.
  - apply perm_nil.
  - apply perm_trans with (x :: sorted l).
    + apply insert_perm.
    + apply perm_skip. exact IH.
Qed.

Lemma insert_hd (x a : string) (l : list string) :
  lex_le a x -> HdRel lex_le a l -> HdRel lex_le a (insert x l).
Proof.
  intros Hax Hal. destruct l as [| y l]; simpl.
  - constructor. exact Hax.
  - destruct (String.leb x y); constructor.
    + exact Hax.
    + inversion Hal; assumption.
Qed.

Lemma insert_sorted (x : string) (l : list string) :
  Sorted lex_le l -> Sorted lex_le (insert x l).
Proof.
  induction 1 as [| y l Hs IH Hhd]; simpl.
  - repeat constructor.
  - destruct (String.leb x y) eqn:Hxy.
    + constructor; [constructor; assumption | constructor; exact Hxy].
    + constructor; [exact IH |].
      apply insert_hd; [apply leb_false_flip; exact Hxy | exact Hhd].
Qed.

Lemma sorted_Sorted (l : list string) : Sorted lex_le (sorted l).
Proof.
  induction l as [| x l IH]; simpl.
  - constructor.
  - apply insert_sorted. exact IH.
Qed.

Section Pipeline.

Variable D : Type.
Variable mode : string.
Variable methods : string -> option (M (Visual D) unit).

Lemma declared_cons (bake : string) (names : list string) :
  declared methods (bake :: names)
  = (match methods ("_bake_" ++ bake)%string with
     | Some _ => [("_bake_" ++ bake)%string]
     | None => []
     end ++ declared methods names)%list.
Proof. reflexivity. Qed.

(** One turn of the loop of [_bake] that does not raise. *)
Lemma bake_one_log (bake : string) (w w1 : World D) :
  bake_one methods bake w = (Ret tt, w1) ->
  gl_log w1
  = (gl_log w ++ map Baked (match methods ("_bake_" ++ bake)%string with
                            | Some _ => [("_bake_" ++ bake)%string]
                            | None => []
                            end))%list.
Proof.
  unfold bake_one.
  destruct (methods ("_bake_" ++ bake)%string) as [m |]; intro Hone.
  - unfold bind, emit, modify, on_visual in Hone.
    cbn [fst snd visual gl_log] in Hone.
    destruct (m (visual w)) as [[[] | e] v1];
      cbn [fst snd] in Hone; [| discriminate].
    injection Hone as <-. reflexivity.
  - unfold ret in Hone. injection Hone as <-.
    simpl. rewrite app_nil_r. reflexivity.
Qed.

(** The loop of [_bake], when it runs to its end, logs one invocation for
    each name that has a method, in the order of the names. *)
Lemma loop_log (names : list string) :
  forall (w w' : World D),
    for_each names (bake_one methods) w = (Ret tt, w') ->
    gl_log w' = (gl_log w ++ map Baked (declared methods names))%list.
Proof.
  induction names as [| bake names IH]; intros w w' Hrun.
  - simpl in Hrun. unfold ret in Hrun. injection Hrun as <-.
    simpl. rewrite app_nil_r. reflexivity.
  - cbn [for_each] in Hrun. unfold bind in Hrun.
    destruct (bake_one methods bake w) as [[[] | e] w1] eqn:Hone; [| discriminate].
    apply IH in Hrun. rewrite Hrun.
    rewrite (bake_one_log _ _ _ Hone), declared_cons, map_app, app_assoc.
    reflexivity.
Qed.

(** The loop returns when no method raises. *)
Lemma loop_returns (names : list string) :
  (forall name m v, methods name = Some m -> fst (m v) = Ret tt) ->
  forall w : World D, fst (for_each names (bake_one methods) w) = Ret tt.
Proof.
  intro Htotal.
  induction names as [| bake names IH]; intro w; simpl.
  - reflexivity.
  - unfold bind.
    destruct (bake_one methods bake w) as [[[] | e] w1] eqn:Hone.
    + apply IH.
    + exfalso. unfold bake_one in Hone.
      destruct (methods ("_bake_" ++ bake)) as [m |] eqn:Hm.
      * unfold bind, emit, modify, on_visual in Hone. simpl in Hone.
        pose proof (Htotal _ m (visual w) Hm) as Hret.
        destruct (m (visual w)) as [o v1]. simpl in *. subst o. discriminate.
      * discriminate.
Qed.

Lemma bake_empty (w : World D) :
  _empty (visual w) = true -> _bake methods w = (Ret None, w).
Proof.
  intro He. unfold _bake, bind, get. rewrite He. reflexivity.
Qed.

Lemma bake_nonempty (w : World D) (r : option bool) (w' : World D) :
  _empty (visual w) = false ->
  _bake methods w = (Ret r, w') ->
  exists w1,
    for_each (sorted (_to_bake (visual w))) (bake_one methods) w = (Ret tt, w1)
    /\ w' = mkWorld (with_to_bake [] (visual w1)) (gl_log w1)
    /\ r = Some (0 <? List.length (_to_bake (visual w)))%nat.
Proof.
  intros He Hrun. unfold _bake in Hrun. unfold bind at 1 in Hrun.
  unfold get in Hrun. rewrite He in Hrun.
  unfold bind in Hrun.
  destruct (for_each (sorted (_to_bake (visual w))) (bake_one methods) w)
    as [[[] | e] w1]; [| discriminate].
  unfold on_visual, modify, ret in Hrun. simpl in Hrun.
  injection Hrun as <- <-.
  exists w1. repeat split; reflexivity.
Qed.

Lemma bake_returns (w : World D) :
  (forall name m v, methods name = Some m -> fst (m v) = Ret tt) ->
  exists r w', _bake methods w = (Ret r, w').
Proof.
  intro Htotal. destruct (_empty (visual w)) eqn:He.
  - exists None, w. apply bake_empty. exact He.
  - pose proof (loop_returns (sorted (_to_bake (visual w))) Htotal w) as Hloop.
    unfold _bake. unfold bind at 1. unfold get. rewrite He. unfold bind.
    destruct (for_each (sorted (_to_bake (visual w))) (bake_one methods) w)
      as [o w1]. simpl in Hloop. subst o.
    unfold on_visual, modify, ret. simpl. eexists. eexists. reflexivity.
Qed.

Lemma draw_empty (w : World D) :
  _empty (visual w) = true -> draw mode methods w = (Ret tt, w).
Proof.
  intro He. unfold draw. unfold bind at 1. rewrite (bake_empty w He).
  unfold bind, get. rewrite He. reflexivity.
Qed.

Lemma draw_calls_app (l1 l2 : list event) :
  draw_calls (l1 ++ l2) = (draw_calls l1 ++ draw_calls l2)%list.
Proof. unfold draw_calls. apply flat_map_app. Qed.

Lemma draw_calls_map_Baked (names : list string) : draw_calls (map Baked names) = [].
Proof.
  induction names as [| n names IH]; simpl; [reflexivity | exact IH].
Qed.

(** A completed pass over a non-empty visual: the dirty set is reset and
    the log has grown by the methods of the names read at the start. *)
Lemma bake_nonempty_effect (w : World D) (r : option bool) (w' : World D) :
  _empty (visual w) = false ->
  _bake methods w = (Ret r, w') ->
  _to_bake (visual w') = []
  /\ gl_log w'
     = (gl_log w ++ map Baked (declared methods (sorted (_to_bake (visual w)))))%list
  /\ r = Some (0 <? List.length (_to_bake (visual w)))%nat.
Proof.
  intros He Hrun.
  destruct (bake_nonempty w r w' He Hrun) as (w1 & Hloop & -> & ->).
  split; [reflexivity |]. split; [| reflexivity].
  simpl. apply loop_log. exact Hloop.
Qed.

(** One turn of the loop of [_bake]. *)
Lemma bake_one_steps (bake : string) (w : World D) :
  bake_one methods bake w
  = match methods ("_bake_" ++ bake) with
    | Some m =>
        (fst (m (visual w)),
         mkWorld (snd (m (visual w))) (gl_log w ++ [Baked ("_bake_" ++ bake)])%list)
    | None => (Ret tt, w)
    end.
Proof.
  unfold bake_one. destruct (methods ("_bake_" ++ bake)); reflexivity.
Qed.

(** When no routine raises, the loop of [_bake] leaves the visual the
    routines produce, run in the order of the names. *)
Lemma loop_runs_routines (names : list string) :
  forall (w : World D) (v1 : Visual D),
    routines_run methods names (visual w) = Some v1 ->
    for_each names (bake_one methods) w
    = (Ret tt, mkWorld v1 (gl_log w ++ map Baked (declared methods names))%list).
Proof.
  induction names as [| bake names IH]; intros w v1 Hrun.
  - simpl in Hrun. injection Hrun as <-.
    simpl. rewrite app_nil_r. destruct w; reflexivity.
  - cbn [routines_run] in Hrun. cbn [for_each]. rewrite declared_cons.
    unfold bind. rewrite bake_one_steps.
    destruct (methods ("_bake_" ++ bake)) as [m |].
    + revert Hrun. destruct (m (visual w)) as [[[] | e] v2]; intro Hrun;
        [| discriminate].
      cbn [fst snd].
      rewrite (IH (mkWorld v2 (gl_log w ++ [Baked ("_bake_" ++ bake)])%list) v1 Hrun).
      cbn [gl_log]. rewrite map_app, <- app_assoc. reflexivity.
    + rewrite (IH w v1 Hrun). reflexivity.
Qed.

(** When a routine raises, so does the loop. *)
Lemma loop_fails (names : list string) :
  forall w : World D,
    routines_run methods names (visual w) = None ->
    exists e, fst (for_each names (bake_one methods) w) = Raise e.
Proof.
  induction names as [| bake names IH]; intros w Hrun.
  - discriminate.
  - cbn [routines_run] in Hrun. cbn [for_each].
    unfold bind. rewrite bake_one_steps.
    destruct (methods ("_bake_" ++ bake)) as [m |].
    + revert Hrun. destruct (m (visual w)) as [[[] | e] v2]; intro Hrun; cbn [fst snd].
      * apply (IH (mkWorld v2 (gl_log w ++ [Baked ("_bake_" ++ bake)])%list) Hrun).
      * exists e. reflexivity.
    + apply (IH w Hrun).
Qed.

(** A pass over a non-empty visual whose routines return: the routines of
    the marked names have run in sorted order, the dirty set is reset and
    the flag tells whether any name was marked. *)
Lemma bake_runs_routines (w : World D) (v1 : Visual D) :
  _empty (visual w) = false ->
  routines_run methods (sorted (_to_bake (visual w))) (visual w) = Some v1 ->
  _bake methods w
  = (Ret (Some (0 <? List.length (_to_bake (visual w)))%nat),
     mkWorld (with_to_bake [] v1)
       (gl_log w ++ map Baked (declared methods (sorted (_to_bake (visual w)))))%list).
Proof.
  intros He Hrun. unfold _bake. unfold bind at 1. unfold get. rewrite He.
  unfold bind. rewrite (loop_runs_routines _ w v1 Hrun).
  reflexivity.
Qed.

(** [draw] on such a visual: the pass, then the draw call unless a routine
    emptied the visual. *)
Lemma draw_runs_routines (w : World D) (v1 : Visual D) :
  _empty (visual w) = false ->
  routines_run methods (sorted (_to_bake (visual w))) (visual w) = Some v1 ->
  draw mode methods w
  = (Ret tt,
     mkWorld (with_to_bake [] v1)
       (gl_log w ++ map Baked (declared methods (sorted (_to_bake (visual w))))
          ++ (if _empty v1 then [] else [GLDraw mode]))%list).
Proof.
  intros He Hrun. unfold draw. unfold bind at 1.
  rewrite (bake_runs_routines w v1 He Hrun).
  unfold bind, get, emit, modify, ret. cbn [visual _empty with_to_bake gl_log].
  destruct (_empty v1); simpl.
  - rewrite app_nil_r. reflexivity.
  - rewrite app_assoc. reflexivity.
Qed.

(** [draw] raises when a routine does, and issues no draw call. *)
Lemma draw_fails (w : World D) :
  _empty (visual w) = false ->
  routines_run methods (sorted (_to_bake (visual w))) (visual w) = None ->
  exists e, fst (draw mode methods w) = Raise e.
Proof.
  intros He Hrun.
  destruct (loop_fails _ w Hrun) as [e Hloop].
  exists e. unfold draw. unfold bind at 1. unfold _bake. unfold bind at 1.
  unfold get. rewrite He. unfold bind.
  destruct (for_each (sorted (_to_bake (visual w))) (bake_one methods) w) as [o w1].
  simpl in Hloop. subst o. reflexivity.
Qed.

(** C1, as the code has it.  When a bake pass on a non-empty visual
    completes, the dirty set is empty, whatever the bake routines marked while
    the pass ran: the names are read once, before the first routine, the
    routines of exactly those names are invoked, and the set is reset after
    the last routine, which discards the names marked in between.  On an
    empty visual the pass leaves the visual, dirty set included, as it was. *)
Theorem bake_resets_dirty_set
    (w : World D) (r : option bool) (w' : World D)
    (Hrun : _bake methods w = (Ret r, w')) :
  (_empty (visual w) = false ->
     _to_bake (visual w') = []
     /\ gl_log w'
        = (gl_log w ++ map Baked (declared methods (sorted (_to_bake (visual w)))))%list)
  /\ (_empty (visual w) = true -> w' = w).
Proof.
  split; intro He.
  - destruct (bake_nonempty_effect w r w' He Hrun) as (Hclear & Hlog & _).
    split; assumption.
  - rewrite (bake_empty w He) in Hrun. injection Hrun as _ <-. reflexivity.
Qed.

(** C5. An empty visual never draws: [_bake] returns at once without touching
    the dirty set, and [draw] returns with the visual and the log exactly as
    they were, so no draw call is issued whatever the dirty set holds, frame
    after frame.  Once the visual is made non-empty the pending names are all
    still there, and the next [draw] performs the pending bake: when the bake
    routines of the pending names return, [draw] returns, the visual is what
    these routines, run in sorted order of the names, make of it, the dirty
    set is reset, and the draw call is issued (unless a routine emptied the
    visual again); when one of them raises, so does [draw]. *)
Theorem empty_visual_never_draws
    (w : World D) (Hempty : _empty (visual w) = true) :
  _bake methods w = (Ret None, w)
  /\ draw mode methods w = (Ret tt, w)
  /\ (forall n, Nat.iter n (fun w0 => snd (draw mode methods w0)) w = w)
  /\ _to_bake (visual (snd (on_visual (empty_setter false) w))) = _to_bake (visual w)
  /\ (forall v1,
        routines_run methods (sorted (_to_bake (visual w))) (with_empty false (visual w))
        = Some v1 ->
        draw mode methods (snd (on_visual (empty_setter false) w))
        = (Ret tt,
           mkWorld (with_to_bake [] v1)
             (gl_log w ++ map Baked (declared methods (sorted (_to_bake (visual w))))
                ++ (if _empty v1 then [] else [GLDraw mode]))%list))
  /\ (routines_run methods (sorted (_to_bake (visual w))) (with_empty false (visual w))
      = None ->
      exists e, fst (draw mode methods (snd (on_visual (empty_setter false) w))) = Raise e).
Proof.
  split; [apply bake_empty; exact Hempty |].
  split; [apply draw_empty; exact Hempty |].
  split.
  { induction n as [| n IH]; simpl; [reflexivity |].
    rewrite IH, (draw_empty w Hempty). reflexivity. }
  split; [reflexivity |].
  split.
  - intros v1 Hrun.
    apply (draw_runs_routines (snd (on_visual (empty_setter false) w)) v1 eq_refl Hrun).
  - intro Hrun.
    apply (draw_fails (snd (on_visual (empty_setter false) w)) eq_refl Hrun).
Qed.

(** The order and the skipping of C6 hold.  One bake pass over a non-empty
    visual whose routines return runs the bake methods of the marked names in
    lexicographic order of the names (['color'] before ['spikes']) and skips
    the names for which the class declares no method; the flag it returns
    tells whether any name was marked when the pass began. *)
Lemma bake_in_lexicographic_order
    (w : World D) (v1 : Visual D)
    (Hne : _empty (visual w) = false)
    (Hrun : routines_run methods (sorted (_to_bake (visual w))) (visual w) = Some v1) :
  _bake methods w
  = (Ret (Some (0 <? List.length (_to_bake (visual w)))%nat),
     mkWorld (with_to_bake [] v1)
       (gl_log w ++ map Baked (declared methods (sorted (_to_bake (visual w)))))%list)
  /\ Sorted lex_le (sorted (_to_bake (visual w)))
  /\ Permutation (sorted (_to_bake (visual w))) (_to_bake (visual w))
  /\ ((0 <? List.length (_to_bake (visual w)))%nat = true <-> _to_bake (visual w) <> [])
  /\ sorted ["color"; "spikes"] = ["color"; "spikes"]
  /\ sorted ["spikes"; "color"] = ["color"; "spikes"].
Proof.
  split; [apply bake_runs_routines; assumption |].
  split; [apply sorted_Sorted |].
  split; [apply sorted_perm |].
  split; [| split; reflexivity].
  destruct (_to_bake (visual w)) as [| name names]; simpl; split; intro H.
  - discriminate.
  - exfalso. apply H. reflexivity.
  - discriminate.
  - reflexivity.
Qed.

End Pipeline.

(** *** The pipeline on concrete visuals *)

Lemma bake_resets_dirty_set_witness :
  exists r w',
    _bake remarking_methods (fresh axis_two_rows) = (Ret r, w')
    /\ _empty (visual (fresh axis_two_rows)) = false
    /\ _to_bake (visual w') = [].
Proof.
  destruct (_bake remarking_methods (fresh axis_two_rows)) as [[r | e] w'] eqn:Hrun.
  - exists r, w'. split; [reflexivity |]. split; [reflexivity |].
    destruct (bake_resets_dirty_set AxisFields remarking_methods
                (fresh axis_two_rows) r w' Hrun) as [Hne _].
    destruct (Hne eq_refl) as [Hclear _]. exact Hclear.
  - vm_compute in Hrun. discriminate.
Defined.

(** C1, as stated, fails: while [n_rows] is baked, the bake method marks
    [positions], which was not in the dirty set; when the pass is over the
    dirty set is empty and [positions] is gone without having been baked. *)
Lemma mark_made_during_bake_is_lost :
  ~ marks_survive_bake remarking_methods (fresh axis_two_rows).
Proof.
  intro H.
  assert (Hrun : _bake remarking_methods (fresh axis_two_rows)
                 = (Ret (Some true),
                    snd (_bake remarking_methods (fresh axis_two_rows))))
    by (vm_compute; reflexivity).
  specialize (H _ _ Hrun "positions").
  assert (Hin : In "positions" (marks_after_loop remarking_methods (fresh axis_two_rows)))
    by (vm_compute; right; left; reflexivity).
  assert (Hnot : ~ In "positions" (_to_bake (visual (fresh axis_two_rows)))).
  { vm_compute. intros [Heq | []]. discriminate. }
  specialize (H Hin Hnot). vm_compute in H. exact H.
Qed.

(** A hidden axis visual with two pending names: [draw] does nothing; made
    non-empty, its next [draw] bakes the rows, then the positions, and
    draws. *)
Lemma empty_visual_never_draws_witness :
  _empty (visual (fresh axis_hidden)) = true
  /\ _to_bake (visual (fresh axis_hidden)) = ["positions"; "n_rows"]
  /\ draw axis_gl_draw_mode axis_methods (fresh axis_hidden)
     = (Ret tt, fresh axis_hidden)
  /\ exists w2,
       draw axis_gl_draw_mode axis_methods
         (snd (on_visual (empty_setter false) (fresh axis_hidden)))
       = (Ret tt, w2)
       /\ gl_log w2 = [Baked "_bake_n_rows"; Baked "_bake_positions"; GLDraw "lines"]
       /\ program_n_rows (fields (visual w2)) = Some 2%Z
       /\ option_map (@shape Q) (program_a_position (fields (visual w2)))
          = Some [16%nat; 4%nat]
       /\ _to_bake (visual w2) = [].
Proof.
  split; [reflexivity |]. split; [reflexivity |].
  destruct (empty_visual_never_draws AxisFields axis_gl_draw_mode axis_methods
              (fresh axis_hidden) eq_refl) as (_ & Hdraw & _ & _ & Hnext & _).
  split; [exact Hdraw |].
  eexists. split; [apply Hnext; vm_compute; reflexivity |].
  repeat split.
Defined.

(** C6 on the returned flag.  [_bake] is documented to return whether
    something has been baked.  On a non-empty spike visual whose only marked
    name, [spikes_clusters], has no bake method in its class, the pass invokes
    no bake method, leaves the attributes as they are, resets the dirty set,
    and returns [True]. *)
Theorem bake_reports_work_when_all_skipped :
  _empty spikes_reclustered = false
  /\ _to_bake spikes_reclustered = ["spikes_clusters"]
  /\ spike_methods np_unique "_bake_spikes_clusters" = None
  /\ _bake (spike_methods np_unique) (fresh spikes_reclustered)
     = (Ret (Some true), fresh (with_to_bake [] spikes_reclustered))
  /\ baked (gl_log (snd (_bake (spike_methods np_unique) (fresh spikes_reclustered))))
     = []
  /\ ~ returns_work_performed (spike_methods np_unique) (fresh spikes_reclustered).
Proof.
  assert (Hrun : _bake (spike_methods np_unique) (fresh spikes_reclustered)
                 = (Ret (Some true), fresh (with_to_bake [] spikes_reclustered))).
  { apply (bake_runs_routines SpikeFields (spike_methods np_unique)
             (fresh spikes_reclustered) spikes_reclustered); reflexivity. }
  split; [reflexivity |]. split; [reflexivity |]. split; [reflexivity |].
  split; [exact Hrun |].
  split; [rewrite Hrun; reflexivity |].
  intro H.
  destruct (H _ _ Hrun) as [Hwork _].
  specialize (Hwork eq_refl). simpl in Hwork.
  inversion Hwork.
Qed.

(** *** The attribute setters of BaseSpikeVisual *)

Section Setters.

Variable _as_array : forall A : Type, ndarray A -> ndarray A.
Variable _unique : ndarray Z -> ndarray Z.

Lemma set_to_bake_one (bake : string) (v : SpikeVisual) :
  fst (set_to_bake [bake] v) = Ret tt
  /\ fields (snd (set_to_bake [bake] v)) = fields v.
Proof.
  unfold set_to_bake, for_each, bind, get, put, ret.
  destruct (negb (mem bake (_to_bake v))); simpl; split; reflexivity.
Qed.

(** Reading [n_clusters] may fill [_spike_ids] but touches neither the dirty
    set nor the stored colours. *)
Lemma n_clusters_frame (v : SpikeVisual) :
  _to_bake (snd (n_clusters _unique v)) = _to_bake v
  /\ _cluster_colors (fields (snd (n_clusters _unique v))) = _cluster_colors (fields v).
Proof.
  unfold n_clusters, cluster_ids, spike_ids, bind, get, modify, lift, ret, raise.
  destruct (_spike_ids (fields v)) as [ids |] eqn:Hids; simpl.
  - destruct (_spike_clusters (fields v)) as [sc |]; simpl; [| split; reflexivity].
    destruct (getitem sc ids) as [sel | e]; simpl; [| split; reflexivity].
    destruct (len (_unique sel)); split; reflexivity.
  - destruct (n_spikes (fields v)) as [n |]; simpl; [| split; reflexivity].
    destruct (_spike_clusters (fields v)) as [sc |]; simpl; [| split; reflexivity].
    destruct (getitem sc (arange n)) as [sel | e]; simpl; [| split; reflexivity].
    destruct (len (_unique sel)); split; reflexivity.
Qed.

(** The colour setter, step by step. *)
Lemma cluster_colors_setter_steps (value : ndarray Q) (v : SpikeVisual) :
  cluster_colors_setter _as_array _unique value v
  = let v0 := set__cluster_colors (Some (_as_array Q value)) v in
    match len (_as_array Q value) with
    | Raise e => (Raise e, v0)
    | Ret n =>
        match n_clusters _unique v0 with
        | (Raise e, v1) => (Raise e, v1)
        | (Ret n_cl, v1) =>
            if (n =? n_cl)%nat then set_to_bake ["color"] v1
            else (Raise AssertionError, v1)
        end
    end.
Proof.
  unfold cluster_colors_setter, bind, modify, get, getattr, lift, ret, assert, raise.
  cbn [_cluster_colors fields set__cluster_colors with_fields].
  destruct (len (_as_array Q value)) as [n | e]; [| reflexivity].
  destruct (n_clusters _unique _) as [[n_cl | e] v1]; [| reflexivity].
  destruct (n =? n_cl)%nat; reflexivity.
Qed.

(** Whenever the colour setter raises, the dirty set is as before but the
    new array is already stored. *)
Lemma cluster_colors_setter_failure (value : ndarray Q) (v : SpikeVisual) (e : exn) :
  fst (cluster_colors_setter _as_array _unique value v) = Raise e ->
  _to_bake (snd (cluster_colors_setter _as_array _unique value v)) = _to_bake v
  /\ _cluster_colors (fields (snd (cluster_colors_setter _as_array _unique value v)))
     = Some (_as_array Q value).
Proof.
  rewrite cluster_colors_setter_steps. cbv zeta.
  destruct (len (_as_array Q value)) as [n | e1]; [| intros _; split; reflexivity].
  pose proof (n_clusters_frame (set__cluster_colors (Some (_as_array Q value)) v))
    as [Hbake Hcol].
  destruct (n_clusters _unique (set__cluster_colors (Some (_as_array Q value)) v))
    as [[n_cl | e2] v1]; cbn [fst snd] in *; [| intros _; split; assumption].
  destruct (n =? n_cl)%nat; cbn [fst snd].
  - pose proof (set_to_bake_one "color" v1) as [Hret _].
    intro Hf.
    assert (Habs : Ret tt = Raise (A:=unit) e)
      by (etransitivity; [symmetry; exact Hret | exact Hf]).
    discriminate.
  - intros _. split; assumption.
Qed.

(** With the number of spikes established, masks with another number of rows
    are refused before anything is stored or marked. *)
Lemma masks_setter_wrong_rows (value : ndarray Q) (v : SpikeVisual) (n m : nat) (rest : list nat) :
  n_spikes (fields v) = Some n ->
  shape (_as_array Q value) = m :: rest ->
  m <> n ->
  masks_setter _as_array value v = (Raise AssertionError, v).
Proof.
  intros Hn Hshape Hneq.
  unfold masks_setter, _set_or_assert_n_spikes.
  unfold bind, get, lift, ret, shape0, assert, raise.
  rewrite Hn, Hshape. cbn [fst snd]. rewrite Hn.
  destruct (Nat.eqb_spec m n); [contradiction | reflexivity].
Qed.

End Setters.

(** C2 on the colour setter.  The visual shows two clusters and holds their
    two colours; the setter is given three colours.  It raises
    [AssertionError] and the dirty set is as before, but the three-colour
    array has replaced the stored one: the assignment comes before the check.
    The masks setter, given 100 rows when 50 spikes are established, raises
    and changes nothing. *)
Theorem cluster_colors_stored_before_check :
  fst (cluster_colors_setter as_array_id np_unique colors_3x3 two_clusters)
  = Raise AssertionError
  /\ _to_bake (snd (cluster_colors_setter as_array_id np_unique colors_3x3 two_clusters))
     = _to_bake two_clusters
  /\ _cluster_colors (fields two_clusters) = Some colors_2x3
  /\ _cluster_colors
       (fields (snd (cluster_colors_setter as_array_id np_unique colors_3x3 two_clusters)))
     = Some colors_3x3
  /\ snd (cluster_colors_setter as_array_id np_unique colors_3x3 two_clusters)
     <> two_clusters
  /\ masks_setter as_array_id masks_100x3 fifty_spikes
     = (Raise AssertionError, fifty_spikes).
Proof.
  split; [vm_compute; reflexivity |].
  split; [vm_compute; reflexivity |].
  split; [vm_compute; reflexivity |].
  split; [vm_compute; reflexivity |].
  split; [| vm_compute; reflexivity].
  intro Heq.
  assert (H : _cluster_colors
                (fields (snd (cluster_colors_setter as_array_id np_unique
                                colors_3x3 two_clusters)))
              = _cluster_colors (fields two_clusters))
    by (rewrite Heq; reflexivity).
  vm_compute in H. discriminate.
Qed.

End BakeSpec.

(** * Further properties of the pan/zoom transform *)

Module PanZoomMore.

Import PanZoom.
Import PanZoomSpec.
Local Open Scope R_scope.

(** *** What the handlers can change *)

Lemma normalize_grid_state (x_y : R * R) (pz : t) :
  snd (_normalize_grid x_y pz) = pz.
Proof.
  unfold _normalize_grid, bind, get, lift, ret.
  destruct (div (fst x_y) (_width pz)); [| reflexivity].
  destruct (div (snd x_y) (_height pz)); [| reflexivity].
  destruct (div _ (IZR (_n_rows pz))); [| reflexivity].
  destruct (div _ (IZR (_n_rows pz))); reflexivity.
Qed.

Section Preservation.

(** A property of the transform that the pan setter, the zoom setter and a
    canvas update request keep. *)
Variable P : t -> Prop.
Hypothesis P_pan : forall v pz, P pz -> P (pan_setter v pz).
Hypothesis P_zoom : forall z pz, P pz -> P (zoom_setter z pz).
Hypothesis P_update :
  forall c pz, _canvas pz = Some c -> P pz ->
    P (with_canvas (Some (mkCanvas (size c) (connected c) (S (updates c)))) pz).

Lemma canvas_update_keeps (pz : t) : P pz -> P (snd (canvas_update pz)).
Proof.
  intro H. unfold canvas_update, bind, get, put, raise.
  destruct (_canvas pz) as [c |] eqn:Hc; simpl; [apply P_update; assumption | exact H].
Qed.

Lemma then_update_keeps (m : M t unit) (pz : t) :
  P (snd (m pz)) -> P (snd (bind m (fun _ => canvas_update) pz)).
Proof.
  intro H. unfold bind. destruct (m pz) as [[[] | e] s]; simpl in *.
  - apply canvas_update_keeps. exact H.
  - exact H.
Qed.

Lemma on_mouse_wheel_keeps (event : WheelEvent) (pz : t) :
  P pz -> P (snd (on_mouse_wheel event pz)).
Proof.
  intro H. unfold on_mouse_wheel. unfold bind at 1.
  pose proof (normalize_grid_state (pos event) pz) as Hs.
  destruct (_normalize_grid (pos event) pz) as [[xy | e] s]; simpl in Hs; subst s;
    [| exact H].
  unfold bind at 1. unfold get at 1.
  unfold bind at 1. unfold modify at 1.
  unfold bind at 1. unfold get at 1.
  set (pz1 := zoom_setter _ pz).
  assert (H1 : P pz1) by (apply P_zoom; exact H).
  clearbody pz1.
  apply then_update_keeps.
  destruct (_zoom_to_pointer pz1); [| exact H1].
  destruct (aspect_factor pz1) as [r | a0 a1]; [exact H1 |].
  unfold modify. simpl. apply P_pan. exact H1.
Qed.

Lemma on_mouse_move_keeps (f32 : R -> R) (event : MoveEvent) (pz : t) :
  P pz -> P (snd (on_mouse_move f32 event pz)).
Proof.
  intro H. unfold on_mouse_move.
  destruct (is_dragging event && negb (truthy (modifiers event))); [| exact H].
  unfold bind at 1. unfold get at 1.
  destruct (_u_zoom pz) as [r | zoom_x zoom_y]; [exact H |].
  apply then_update_keeps. simpl. apply P_pan. exact H.
Qed.

Lemma pan_iadd_keeps (a b : R) (pz : t) : P pz -> P (snd (pan_iadd a b pz)).
Proof. intro H. unfold pan_iadd, bind, get, modify. simpl. apply P_pan. exact H. Qed.

Lemma zoom_imul_keeps (f : R) (pz : t) : P pz -> P (snd (zoom_imul f pz)).
Proof. intro H. unfold zoom_imul, bind, get, modify. simpl. apply P_zoom. exact H. Qed.

Lemma seq_keeps (m1 : M t unit) (m2 : M t unit) (pz : t) :
  P (snd (m1 pz)) -> (forall s, P s -> P (snd (m2 s))) ->
  P (snd (bind m1 (fun _ => m2) pz)).
Proof.
  intros H1 H2. unfold bind. destruct (m1 pz) as [[[] | e] s]; simpl in *.
  - apply H2. exact H1.
  - exact H1.
Qed.

Lemma on_key_press_keeps (event : KeyEvent) (pz : t) :
  P pz -> P (snd (on_key_press event pz)).
Proof.
  intro H. unfold on_key_press.
  destruct (truthy (key_modifiers event)); [exact H |].
  apply seq_keeps; [| intros s Hs; apply seq_keeps].
  - destruct (key_in (key event) _arrows); [| exact H].
    unfold bind at 1. unfold get at 1.
    unfold bind at 1. unfold lift at 1.
    destruct (div (1 / 10) (_zoom pz)) as [k | e]; [| exact H].
    apply then_update_keeps.
    repeat match goal with
           | |- context [if ?b then _ else _] => destruct b
           end; try (apply pan_iadd_keeps; exact H); exact H.
  - destruct (key_in (key event) _pm); [| exact Hs].
    apply then_update_keeps.
    repeat match goal with
           | |- context [if ?b then _ else _] => destruct b
           end; try (apply zoom_imul_keeps; exact Hs); exact Hs.
  - intros s' Hs'.
    destruct (String.eqb (key event) "R"); [| exact Hs'].
    unfold bind at 1. unfold modify at 1.
    unfold bind at 1. unfold modify at 1.
    apply canvas_update_keeps. apply P_zoom. apply P_pan. exact Hs'.
Qed.

End Preservation.

(** *** Registered programs hold the transform's uniforms *)

Lemma coherent_pan (v : npfloat * npfloat) (pz : t) :
  coherent pz -> coherent (pan_setter v pz).
Proof.
  unfold coherent. intro H. simpl.
  apply Forall_map. eapply Forall_impl; [| exact H].
  intros p [_ Hz]. simpl. split; [reflexivity | exact Hz].
Qed.

Lemma coherent_zoom (z : R) (pz : t) : coherent pz -> coherent (zoom_setter z pz).
Proof.
  unfold coherent, zoom_setter, is_attached. intro H. simpl.
  destruct (_canvas pz); simpl; [| exact H].
  apply Forall_map. eapply Forall_impl; [| exact H].
  intros p [Hp _]. simpl. split; [exact Hp | reflexivity].
Qed.

Lemma coherent_update (c : Canvas) (pz : t) :
  _canvas pz = Some c -> coherent pz ->
  coherent (with_canvas (Some (mkCanvas (size c) (connected c) (S (updates c)))) pz).
Proof. intros _ H. exact H. Qed.

Lemma coherent_add (ps : list Program) (pz : t) : coherent pz -> coherent (add ps pz).
Proof.
  unfold add. revert pz.
  induction ps as [| p ps IH]; intros pz H; simpl; [exact H |].
  apply IH. unfold coherent. simpl.
  apply Forall_app. split; [exact H |].
  constructor; [| constructor]. simpl. split; reflexivity.
Qed.

Lemma coherent_resize (sz : R * R) (pz : t) :
  coherent pz -> coherent (snd (on_resize sz pz)).
Proof.
  intro H. unfold on_resize, bind, modify, get, lift. simpl.
  destruct (div (fst sz) (snd sz)) as [a | e]; simpl; [| exact H].
  apply coherent_zoom. exact H.
Qed.

Lemma coherent_after (f32 : R -> R) (pz : t) (c : call) :
  coherent pz -> coherent (after f32 pz c).
Proof.
  intro H. destruct c as [v | z | b | a | n | b | ps | sz | e | e | e]; simpl.
  - apply coherent_pan; exact H.
  - apply coherent_zoom; exact H.
  - destruct b; exact H.
  - exact H.
  - exact H.
  - exact H.
  - apply coherent_add; exact H.
  - apply coherent_resize; exact H.
  - apply on_mouse_wheel_keeps;
      [exact coherent_pan | exact coherent_zoom | exact coherent_update | exact H].
  - apply on_mouse_move_keeps;
      [exact coherent_pan | exact coherent_update | exact H].
  - apply on_key_press_keeps;
      [exact coherent_pan | exact coherent_zoom | exact coherent_update | exact H].
Qed.

(** X1. Whatever setters, [add] calls and event handlers run on the
    transform, in any order and whether they return or raise, every
    registered program keeps holding the transform's current pan and zoom
    uniforms, once it does. *)
Theorem programs_stay_coherent
    (f32 : R -> R) (cs : list call) (pz : t) (Hcoh : coherent pz) :
  coherent (after_all f32 cs pz).
Proof.
  unfold after_all. revert pz Hcoh.
  induction cs as [| c cs IH]; intros pz H; simpl; [exact H |].
  apply IH. apply coherent_after. exact H.
Qed.

Lemma programs_stay_coherent_witness :
  coherent default
  /\ coherent (after_all (fun x => x)
                 [Add [blank_program]; SetZoom 2; SetPan (Fin 1, Fin 1)] default).
Proof.
  assert (H : coherent default) by constructor.
  split; [exact H |].
  apply (programs_stay_coherent (fun x => x)
           [Add [blank_program]; SetZoom 2; SetPan (Fin 1, Fin 1)] default H).
Defined.

(** *** The zoom and its bounds *)

Lemma in_bounds_zoom (z : R) (pz : t) : in_bounds pz -> in_bounds (zoom_setter z pz).
Proof.
  unfold in_bounds. intros [Hlo Hhi].
  destruct (zoom_setter_fields z pz) as (Hz & Hmin & Hmax & _).
  rewrite Hz, Hmin, Hmax. split; [apply py_max_ge_r |].
  pose proof (py_min_le_r z (_zmax pz)) as Hm.
  unfold py_max. destruct (Rlt_dec (py_min z (_zmax pz)) (_zmin pz)); lra.
Qed.

Lemma in_bounds_pan (v : npfloat * npfloat) (pz : t) :
  in_bounds pz -> in_bounds (pan_setter v pz).
Proof. intro H. exact H. Qed.

Lemma in_bounds_update (c : Canvas) (pz : t) :
  _canvas pz = Some c -> in_bounds pz ->
  in_bounds (with_canvas (Some (mkCanvas (size c) (connected c) (S (updates c)))) pz).
Proof. intros _ H. exact H. Qed.

Lemma add_fields (ps : list Program) (pz : t) :
  _zoom (add ps pz) = _zoom pz /\ _zmin (add ps pz) = _zmin pz
  /\ _zmax (add ps pz) = _zmax pz /\ _canvas (add ps pz) = _canvas pz
  /\ _u_zoom (add ps pz) = _u_zoom pz /\ _aspect (add ps pz) = _aspect pz
  /\ _canvas_aspect (add ps pz) = _canvas_aspect pz /\ _pan (add ps pz) = _pan pz
  /\ _u_pan (add ps pz) = _u_pan pz.
Proof.
  unfold add. revert pz.
  induction ps as [| p ps IH]; intro pz; simpl; [repeat split; reflexivity |].
  destruct (IH (with_programs
                  (_programs pz ++ [set_u_pan (_u_pan pz) (set_u_zoom (_u_zoom pz) p)])
                  pz)) as (H1 & H2 & H3 & H4 & H5 & H6 & H7 & H8 & H9).
  rewrite H1, H2, H3, H4, H5, H6, H7, H8, H9. repeat split; reflexivity.
Qed.

Lemma in_bounds_add (ps : list Program) (pz : t) : in_bounds pz -> in_bounds (add ps pz).
Proof.
  unfold in_bounds. destruct (add_fields ps pz) as (H1 & H2 & H3 & _).
  rewrite H1, H2, H3. tauto.
Qed.

Lemma in_bounds_resize (sz : R * R) (pz : t) :
  in_bounds pz -> in_bounds (snd (on_resize sz pz)).
Proof.
  intro H. unfold on_resize, bind, modify, get, lift. simpl.
  destruct (div (fst sz) (snd sz)) as [a | e]; simpl; [| exact H].
  apply in_bounds_zoom. exact H.
Qed.

Lemma in_bounds_after (f32 : R -> R) (pz : t) (c : call) :
  is_bound_call c = false -> in_bounds pz -> in_bounds (after f32 pz c).
Proof.
  intros Hc H. destruct c as [v | z | b | a | n | b | ps | sz | e | e | e]; simpl.
  - exact H.
  - apply in_bounds_zoom; exact H.
  - discriminate.
  - exact H.
  - exact H.
  - exact H.
  - apply in_bounds_add; exact H.
  - apply in_bounds_resize; exact H.
  - apply on_mouse_wheel_keeps;
      [exact in_bounds_pan | exact in_bounds_zoom | exact in_bounds_update | exact H].
  - apply on_mouse_move_keeps;
      [exact in_bounds_pan | exact in_bounds_update | exact H].
  - apply on_key_press_keeps;
      [exact in_bounds_pan | exact in_bounds_zoom | exact in_bounds_update | exact H].
Qed.

(** X2. A zoom that lies within its bounds stays within them under every
    sequence of calls that does not move the bounds: the pan and zoom
    setters, the other attribute setters, [add], and the resize, wheel, drag
    and key handlers, returning or raising. *)
Theorem zoom_stays_in_bounds
    (f32 : R -> R) (cs : list call) (pz : t)
    (Hcs : forallb (fun c => negb (is_bound_call c)) cs = true)
    (Hin : in_bounds pz) :
  in_bounds (after_all f32 cs pz).
Proof.
  unfold after_all. revert pz Hin.
  induction cs as [| c cs IH]; intros pz H; simpl; [exact H |].
  simpl in Hcs. apply andb_prop in Hcs. destruct Hcs as [Hc Hcs].
  apply IH; [exact Hcs |].
  apply in_bounds_after; [| exact H].
  destruct (is_bound_call c); [discriminate | reflexivity].
Qed.

Lemma zoom_stays_in_bounds_witness :
  in_bounds default
  /\ in_bounds (after_all (fun x => x)
                  [SetZoom 1000000; Key (mkKey "+" []); Wheel wheel_up_origin] default).
Proof.
  assert (H : in_bounds default) by (unfold in_bounds; simpl; lra).
  split; [exact H |].
  apply (zoom_stays_in_bounds (fun x => x)
           [SetZoom 1000000; Key (mkKey "+" []); Wheel wheel_up_origin] default
           eq_refl H).
Defined.

(** X3. The bound setters never touch the stored zoom, so they can leave it
    outside the new bounds: lowering [zmax] below the current zoom (but not
    below [zmin]) leaves the zoom above [zmax], and raising [zmin] above the
    current zoom leaves it below [zmin], until the zoom setter runs again. *)
Theorem bound_setters_do_not_reclamp (pz : t) (v : R) :
  _zoom (zmax_setter v pz) = _zoom pz
  /\ _zoom (zmin_setter v pz) = _zoom pz
  /\ (_zmin pz <= v -> v < _zoom pz ->
      _zmax (zmax_setter v pz) = v /\ _zmax (zmax_setter v pz) < _zoom (zmax_setter v pz))
  /\ (v <= _zmax pz -> _zoom pz < v ->
      _zmin (zmin_setter v pz) = v /\ _zoom (zmin_setter v pz) < _zmin (zmin_setter v pz)).
Proof.
  split; [reflexivity |]. split; [reflexivity |]. split.
  - intros Hlo Hlt. simpl. unfold py_max.
    destruct (Rlt_dec v (_zmin pz)); split; lra.
  - intros Hhi Hlt. simpl. unfold py_min.
    destruct (Rlt_dec (_zmax pz) v); split; lra.
Qed.

(** *** The zoom uniform of an attached transform *)

Lemma up_to_date_zoom (z : R) (pz : t) : up_to_date pz -> up_to_date (zoom_setter z pz).
Proof.
  intros [Ha _].
  destruct (zoom_setter_attached z pz Ha) as [Hu _].
  destruct (zoom_setter_fields z pz) as (_ & _ & _ & _ & Hc & _).
  split; [| exact Hu].
  unfold is_attached in *. rewrite Hc. exact Ha.
Qed.

Lemma up_to_date_pan (v : npfloat * npfloat) (pz : t) :
  up_to_date pz -> up_to_date (pan_setter v pz).
Proof. intro H. exact H. Qed.

Lemma up_to_date_update (c : Canvas) (pz : t) :
  _canvas pz = Some c -> up_to_date pz ->
  up_to_date (with_canvas (Some (mkCanvas (size c) (connected c) (S (updates c)))) pz).
Proof. intros _ [_ Hu]. split; [reflexivity | exact Hu]. Qed.

Lemma up_to_date_add (ps : list Program) (pz : t) : up_to_date pz -> up_to_date (add ps pz).
Proof.
  unfold up_to_date, is_attached, effective_zoom, aspect_factor.
  destruct (add_fields ps pz) as (H1 & _ & _ & H4 & H5 & H6 & H7 & _).
  rewrite H1, H4, H5, H6, H7. tauto.
Qed.

Lemma up_to_date_resize (sz : R * R) (pz : t) :
  up_to_date pz -> up_to_date (snd (on_resize sz pz)).
Proof.
  intros [Ha Hu]. unfold on_resize, bind, modify, get, lift. simpl.
  destruct (div (fst sz) (snd sz)) as [a | e]; simpl.
  - assert (Hatt : is_attached
                     (with_size (fst sz) (snd sz) (canvas_aspect_of a)
                        (with_size (fst sz) (snd sz) (_canvas_aspect pz) pz)) = true)
      by exact Ha.
    destruct (zoom_setter_attached (_zoom pz) _ Hatt) as [Hu' _].
    destruct (zoom_setter_fields (_zoom pz)
                (with_size (fst sz) (snd sz) (canvas_aspect_of a)
                   (with_size (fst sz) (snd sz) (_canvas_aspect pz) pz)))
      as (_ & _ & _ & _ & Hc & _).
    split; [| exact Hu'].
    unfold is_attached in *. rewrite Hc. exact Ha.
  - split; [exact Ha | exact Hu].
Qed.

Lemma up_to_date_after (f32 : R -> R) (pz : t) (c : call) :
  is_aspect_call c = false -> up_to_date pz -> up_to_date (after f32 pz c).
Proof.
  intros Hc H. destruct c as [v | z | b | a | n | b | ps | sz | e | e | e]; simpl.
  - exact H.
  - apply up_to_date_zoom; exact H.
  - destruct b; exact H.
  - discriminate.
  - exact H.
  - exact H.
  - apply up_to_date_add; exact H.
  - apply up_to_date_resize; exact H.
  - apply on_mouse_wheel_keeps;
      [exact up_to_date_pan | exact up_to_date_zoom | exact up_to_date_update | exact H].
  - apply on_mouse_move_keeps;
      [exact up_to_date_pan | exact up_to_date_update | exact H].
  - apply on_key_press_keeps;
      [exact up_to_date_pan | exact up_to_date_zoom | exact up_to_date_update | exact H].
Qed.

(** X4. On a transform that [attach] has just bound to a canvas of non-zero
    height, the zoom uniform is the effective zoom
    [zoom * canvas_aspect * aspect], and it stays so, the transform staying
    attached, under every sequence of calls that does not assign [aspect]:
    the aspect setter alone changes a factor of the effective zoom without
    recomputing the uniform.  Together with X1, every registered program then
    holds the effective zoom as soon as one zoom setter call or resize has
    run. *)
Theorem zoom_uniform_up_to_date
    (f32 : R -> R) (c : Canvas) (pz : t) (cs : list call)
    (Hh : snd (size c) <> 0)
    (Hcs : forallb (fun c => negb (is_aspect_call c)) cs = true) :
  up_to_date (snd (attach c pz))
  /\ up_to_date (after_all f32 cs (snd (attach c pz)))
  /\ forall a0 a,
       _aspect pz = Some a0 -> a <> a0 -> _zoom pz <> 0 ->
       ~ up_to_date (aspect_setter (Some a) (snd (attach c pz))).
Proof.
  rewrite (attach_ok c pz Hh).
  cbn [snd].
  assert (H0 : up_to_date (attached c pz)) by (split; reflexivity).
  split; [exact H0 |]. split.
  - generalize dependent (attached c pz). clear Hh.
    unfold after_all.
    induction cs as [| k cs IH]; intros s Hs; simpl; [exact Hs |].
    simpl in Hcs. apply andb_prop in Hcs. destruct Hcs as [Hk Hcs].
    apply IH; [exact Hcs |].
    apply up_to_date_after; [| exact Hs].
    destruct (is_aspect_call k); [discriminate | reflexivity].
  - intros a0 a Ha0 Hne Hz [_ Hu].
    unfold effective_zoom, aspect_factor in Hu. simpl in Hu.
    unfold aspect_factor in Hu. simpl in Hu.
    rewrite Ha0 in Hu. simpl in Hu.
    unfold canvas_aspect_of in Hu.
    destruct (Rlt_dec 1 (fst (size c) / snd (size c))); simpl in Hu;
      injection Hu as Hx Hy; apply Hne.
    + apply (Rmult_eq_reg_l (_zoom pz)); [lra | exact Hz].
    + apply (Rmult_eq_reg_l (_zoom pz)); [lra | exact Hz].
Qed.

Lemma zoom_uniform_up_to_date_witness :
  snd (size canvas_2x2) <> 0
  /\ up_to_date (after_all (fun x => x)
                   [SetZoom 2; Resize (800, 400); Key (mkKey "R" [])]
                   (snd (attach canvas_2x2 default))).
Proof.
  assert (Hh : snd (size canvas_2x2) <> 0) by (simpl; lra).
  split; [exact Hh |].
  destruct (zoom_uniform_up_to_date (fun x => x) canvas_2x2 default
              [SetZoom 2; Resize (800, 400); Key (mkKey "R" [])] Hh eq_refl)
    as (_ & H & _).
  exact H.
Defined.

(** *** Canvas size *)

Lemma canvas_aspect_of_ratio (w h : R) :
  0 < w -> 0 < h ->
  canvas_aspect_of (w / h) = (if Rlt_dec h w then (h / w, 1) else (1, w / h)).
Proof.
  intros Hw Hh. unfold canvas_aspect_of.
  assert (Hiff : 1 < w / h <-> h < w).
  { split; intro H.
    - apply (Rmult_lt_compat_r h) in H; [| exact Hh].
      replace (w / h * h) with w in H by (field; lra). lra.
    - apply (Rmult_lt_reg_r h); [exact Hh |].
      replace (w / h * h) with w by (field; lra). lra. }
  destruct (Rlt_dec 1 (w / h)) as [H1 | H1], (Rlt_dec h w) as [H2 | H2].
  - f_equal. field. lra.
  - exfalso. apply H2, Hiff, H1.
  - exfalso. apply H1, Hiff, H2.
  - f_equal. field. lra.
Qed.

Lemma ratio_le_1 (a b : R) : 0 < a -> a <= b -> 0 < a / b <= 1.
Proof.
  intros Ha Hab. split.
  - apply Rdiv_lt_0_compat; lra.
  - apply (Rmult_le_reg_r b); [lra |].
    replace (a / b * b) with a by (field; lra). lra.
Qed.

(** X5. A resize to a size with positive width and height returns; the
    transform records the size and the aspect correction [(h/w, 1)] of a
    landscape canvas or [(1, w/h)] otherwise, so the shorter side is scaled
    by 1 and the longer by the ratio short/long, both factors in [(0, 1]];
    the zoom is clamped again, and on an attached transform every registered
    program receives the new effective zoom.  [attach] computes the same
    correction from the canvas size. *)
Theorem resize_sets_aspect_correction
    (w h : R) (pz : t) (Hw : 0 < w) (Hh : 0 < h) :
  fst (on_resize (w, h) pz) = Ret tt
  /\ _width (snd (on_resize (w, h) pz)) = w
  /\ _height (snd (on_resize (w, h) pz)) = h
  /\ _canvas_aspect (snd (on_resize (w, h) pz))
     = (if Rlt_dec h w then (h / w, 1) else (1, w / h))
  /\ 0 < fst (_canvas_aspect (snd (on_resize (w, h) pz))) <= 1
  /\ 0 < snd (_canvas_aspect (snd (on_resize (w, h) pz))) <= 1
  /\ _zoom (snd (on_resize (w, h) pz)) = py_max (py_min (_zoom pz) (_zmax pz)) (_zmin pz)
  /\ (is_attached pz = true ->
      forall p, In p (_programs (snd (on_resize (w, h) pz))) ->
        u_zoom p = Some (effective_zoom (snd (on_resize (w, h) pz))))
  /\ (forall c, size c = (w, h) ->
        _canvas_aspect (snd (attach c pz)) = _canvas_aspect (snd (on_resize (w, h) pz))).
Proof.
  assert (Hrun : on_resize (w, h) pz
                 = (Ret tt, zoom_setter (_zoom pz)
                              (with_size w h (canvas_aspect_of (w / h))
                                 (with_size w h (_canvas_aspect pz) pz)))).
  { unfold on_resize, bind, modify, get, lift. simpl.
    rewrite div_Ret by lra. reflexivity. }
  rewrite Hrun. cbn [fst snd].
  set (pz1 := with_size w h (canvas_aspect_of (w / h))
                (with_size w h (_canvas_aspect pz) pz)).
  destruct (zoom_setter_fields (_zoom pz) pz1)
    as (Hz & _ & _ & _ & _ & _ & Hca & _).
  assert (Hw' : _width (zoom_setter (_zoom pz) pz1) = w
                /\ _height (zoom_setter (_zoom pz) pz1) = h).
  { unfold zoom_setter, is_attached. simpl.
    destruct (_canvas pz); simpl; split; reflexivity. }
  destruct Hw' as [Hw1 Hh1].
  rewrite Hca, Hz, Hw1, Hh1. simpl.
  rewrite (canvas_aspect_of_ratio w h Hw Hh).
  split; [reflexivity |]. split; [reflexivity |]. split; [reflexivity |].
  split; [reflexivity |].
  split; [destruct (Rlt_dec h w); simpl; [apply ratio_le_1; lra | lra] |].
  split; [destruct (Rlt_dec h w); simpl; [lra | apply ratio_le_1; lra] |].
  split; [reflexivity |].
  split.
  - intros Ha p Hin.
    assert (Ha1 : is_attached pz1 = true) by exact Ha.
    destruct (zoom_setter_attached (_zoom pz) pz1 Ha1) as [_ Hps].
    rewrite Hps in Hin. apply in_map_iff in Hin.
    destruct Hin as (q & <- & _). reflexivity.
  - intros c Hc.
    rewrite attach_ok by (rewrite Hc; simpl; lra).
    simpl. rewrite Hc. simpl. apply canvas_aspect_of_ratio; assumption.
Qed.

(** Scenario: a resize to 800 by 400 gives the correction (0.5, 1). *)
Lemma resize_sets_aspect_correction_witness :
  0 < 800 /\ 0 < 400
  /\ _canvas_aspect (snd (on_resize (800, 400) default)) = (400 / 800, 1).
Proof.
  assert (Hw : 0 < 800) by lra. assert (Hh : 0 < 400) by lra.
  split; [exact Hw |]. split; [exact Hh |].
  destruct (resize_sets_aspect_correction 800 400 default Hw Hh)
    as (_ & _ & _ & H & _).
  rewrite H. destruct (Rlt_dec 400 800); [reflexivity | lra].
Defined.

(** X6. A size of zero height makes both [on_resize] and [attach] raise
    [ZeroDivisionError] half way: the width and height are already
    overwritten (and, for [attach], the canvas already bound, so the transform
    counts as attached), while the aspect correction, the zoom, the zoom
    uniform and the programs are as before and no handler is connected. *)
Theorem zero_height_raises_midway
    (w : R) (pz : t) (handlers : list string) (n : nat) :
  on_resize (w, 0) pz
  = (Raise ZeroDivisionError, with_size w 0 (_canvas_aspect pz) pz)
  /\ attach (mkCanvas (w, 0) handlers n) pz
     = (Raise ZeroDivisionError,
        with_size w 0 (_canvas_aspect pz)
          (with_canvas (Some (mkCanvas (w, 0) handlers n)) pz))
  /\ is_attached (snd (attach (mkCanvas (w, 0) handlers n) pz)) = true
  /\ _canvas (snd (attach (mkCanvas (w, 0) handlers n) pz))
     = Some (mkCanvas (w, 0) handlers n)
  /\ _u_zoom (snd (attach (mkCanvas (w, 0) handlers n) pz)) = _u_zoom pz
  /\ _canvas_aspect (snd (attach (mkCanvas (w, 0) handlers n) pz)) = _canvas_aspect pz.
Proof.
  assert (Hrun : attach (mkCanvas (w, 0) handlers n) pz
                 = (Raise ZeroDivisionError,
                    with_size w 0 (_canvas_aspect pz)
                      (with_canvas (Some (mkCanvas (w, 0) handlers n)) pz))).
  { unfold attach, bind, modify, get, lift. simpl.
    rewrite div_Raise. reflexivity. }
  split.
  - unfold on_resize, bind, modify, get, lift. simpl.
    rewrite div_Raise. reflexivity.
  - rewrite Hrun. repeat split; reflexivity.
Qed.

(** *** What the wheel, drag and key handlers leave alone *)

Lemma settings_pan (pz0 : t) (v : npfloat * npfloat) (pz : t) :
  settings pz = settings pz0 -> settings (pan_setter v pz) = settings pz0.
Proof. intro H. exact H. Qed.

Lemma settings_zoom (pz0 : t) (z : R) (pz : t) :
  settings pz = settings pz0 -> settings (zoom_setter z pz) = settings pz0.
Proof.
  intro H. rewrite <- H. unfold zoom_setter, is_attached. simpl.
  destruct (_canvas pz) eqn:Hc; unfold settings, is_attached; simpl; rewrite Hc;
    reflexivity.
Qed.

Lemma settings_update (pz0 : t) (c : Canvas) (pz : t) :
  _canvas pz = Some c -> settings pz = settings pz0 ->
  settings (with_canvas (Some (mkCanvas (size c) (connected c) (S (updates c)))) pz)
  = settings pz0.
Proof.
  intros Hc H. rewrite <- H. unfold settings, is_attached. simpl. rewrite Hc.
  reflexivity.
Qed.

Lemma on_mouse_wheel_settings (event : WheelEvent) (pz : t) :
  settings (snd (on_mouse_wheel event pz)) = settings pz.
Proof.
  apply (on_mouse_wheel_keeps (fun s => settings s = settings pz));
    [apply settings_pan | apply settings_zoom | apply settings_update | reflexivity].
Qed.

Lemma on_mouse_move_settings (f32 : R -> R) (event : MoveEvent) (pz : t) :
  settings (snd (on_mouse_move f32 event pz)) = settings pz.
Proof.
  apply (on_mouse_move_keeps (fun s => settings s = settings pz));
    [apply settings_pan | apply settings_update | reflexivity].
Qed.

Lemma on_key_press_settings (event : KeyEvent) (pz : t) :
  settings (snd (on_key_press event pz)) = settings pz.
Proof.
  apply (on_key_press_keeps (fun s => settings s = settings pz));
    [apply settings_pan | apply settings_zoom | apply settings_update | reflexivity].
Qed.

(** X7. The wheel, drag and key handlers, however they end, change nothing
    but pan, zoom, the uniforms and the canvas's update count: the aspect, the
    zoom-to-pointer flag, the grid rows, the recorded canvas size and aspect
    correction, both zoom bounds, the attachment and the canvas's size and
    connected handlers are as before. *)
Theorem handlers_keep_settings (pz : t) :
  (forall event, settings (snd (on_mouse_wheel event pz)) = settings pz)
  /\ (forall f32 event, settings (snd (on_mouse_move f32 event pz)) = settings pz)
  /\ (forall event, settings (snd (on_key_press event pz)) = settings pz).
Proof.
  split; [| split].
  - intro event. apply on_mouse_wheel_settings.
  - intros f32 event. apply on_mouse_move_settings.
  - intro event. apply on_key_press_settings.
Qed.

(** *** Wheel events *)

(** The zoom after a wheel event: untouched when the pointer could not be
    normalized, the clamped product otherwise, however the handler ends. *)
Lemma on_mouse_wheel_zoom (event : WheelEvent) (pz : t) :
  _zoom (snd (on_mouse_wheel event pz)) = _zoom pz
  \/ _zoom (snd (on_mouse_wheel event pz))
     = py_max (py_min (_zoom pz * wheel_factor event) (_zmax pz)) (_zmin pz).
Proof.
  enough (H : forall Q : R -> Prop,
            Q (_zoom pz) ->
            Q (py_max (py_min (_zoom pz * wheel_factor event) (_zmax pz)) (_zmin pz)) ->
            Q (_zoom (snd (on_mouse_wheel event pz))))
    by (apply H; [left | right]; reflexivity).
  intros Q Hold Hnew.
  unfold on_mouse_wheel. unfold bind at 1.
  pose proof (normalize_grid_state (pos event) pz) as Hs.
  destruct (_normalize_grid (pos event) pz) as [[xy | e] s]; simpl in Hs; subst s;
    [| exact Hold].
  unfold bind at 1. unfold get at 1.
  unfold bind at 1. unfold modify at 1.
  unfold bind at 1. unfold get at 1.
  fold (wheel_factor event).
  destruct (zoom_setter_fields (_zoom pz * wheel_factor event) pz) as (Hz & _).
  rewrite <- Hz in Hnew.
  set (pz1 := zoom_setter (_zoom pz * wheel_factor event) pz) in *. clearbody pz1.
  apply (then_update_keeps (fun s => Q (_zoom s))).
  - intros c s _ H. exact H.
  - destruct (_zoom_to_pointer pz1); [| exact Hnew].
    destruct (aspect_factor pz1) as [r | a0 a1]; exact Hnew.
Qed.

(** X8. The wheel zooms in the direction it is turned.  On a transform whose
    zoom is non-negative and within its bounds, a wheel event with a positive
    vertical delta never lowers the zoom, one with a negative delta never
    raises it, and one with a zero delta leaves it as it is; the zoom stays
    within the bounds.  This holds however the handler ends. *)
Theorem wheel_direction
    (event : WheelEvent) (pz : t) (Hin : in_bounds pz) (Hpos : 0 <= _zoom pz) :
  (0 < snd (delta event) -> _zoom pz <= _zoom (snd (on_mouse_wheel event pz)))
  /\ (snd (delta event) < 0 -> _zoom (snd (on_mouse_wheel event pz)) <= _zoom pz)
  /\ (snd (delta event) = 0 -> _zoom (snd (on_mouse_wheel event pz)) = _zoom pz)
  /\ _zmin pz <= _zoom (snd (on_mouse_wheel event pz)) <= _zmax pz.
Proof.
  destruct Hin as [Hlo Hhi].
  pose proof (wheel_factor_pos event) as Hk.
  assert (Hclamp : forall z,
            _zmin pz <= py_max (py_min z (_zmax pz)) (_zmin pz) <= _zmax pz).
  { intro z. unfold py_min, py_max.
    destruct (Rlt_dec (_zmax pz) z); destruct (Rlt_dec _ (_zmin pz)); lra. }
  assert (Hup : 0 < snd (delta event) -> 1 < wheel_factor event).
  { intro Hd. unfold wheel_factor. rewrite sign_pos by exact Hd.
    apply exp_gt_1. lra. }
  assert (Hdown : snd (delta event) < 0 -> wheel_factor event < 1).
  { intro Hd. unfold wheel_factor, sign.
    destruct (Rlt_dec 0 (snd (delta event))); [lra |].
    destruct (Rlt_dec (snd (delta event)) 0); [| lra].
    rewrite <- exp_0. apply exp_increasing. lra. }
  assert (Hzero : snd (delta event) = 0 -> wheel_factor event = 1).
  { intro Hd. unfold wheel_factor, sign. rewrite Hd.
    destruct (Rlt_dec 0 0); [lra |].
    replace (25 / 10 * (0 * (5 / 100))) with 0 by lra. apply exp_0. }
  destruct (on_mouse_wheel_zoom event pz) as [-> | ->].
  - repeat split; intros; lra.
  - specialize (Hclamp (_zoom pz * wheel_factor event)).
    split; [| split; [| split]].
    + intro Hd. specialize (Hup Hd).
      assert (Hz : _zoom pz <= _zoom pz * wheel_factor event) by nra.
      unfold py_min, py_max.
      destruct (Rlt_dec (_zmax pz) (_zoom pz * wheel_factor event));
        destruct (Rlt_dec _ (_zmin pz)); lra.
    + intro Hd. specialize (Hdown Hd).
      assert (Hz : _zoom pz * wheel_factor event <= _zoom pz) by nra.
      unfold py_min, py_max.
      destruct (Rlt_dec (_zmax pz) (_zoom pz * wheel_factor event));
        destruct (Rlt_dec _ (_zmin pz)); lra.
    + intro Hd. rewrite (Hzero Hd), Rmult_1_r.
      apply clamp_inside. lra.
    + exact Hclamp.
Qed.

(** One notch up on [PanZoom()] attached to a 2x2 canvas. *)
Lemma wheel_direction_witness :
  in_bounds (attached canvas_2x2 default)
  /\ 0 <= _zoom (attached canvas_2x2 default)
  /\ _zoom (attached canvas_2x2 default)
     <= _zoom (snd (on_mouse_wheel wheel_up_origin (attached canvas_2x2 default))).
Proof.
  assert (Hin : in_bounds (attached canvas_2x2 default))
    by (unfold in_bounds; simpl; lra).
  assert (Hpos : 0 <= _zoom (attached canvas_2x2 default)) by (simpl; lra).
  split; [exact Hin |]. split; [exact Hpos |].
  destruct (wheel_direction wheel_up_origin (attached canvas_2x2 default) Hin Hpos)
    as (Hup & _).
  apply Hup. simpl. lra.
Defined.

(** X9. With zoom-to-pointer off, a wheel event on an attached transform only
    zooms: it returns, the zoom is the clamped product
    [zoom * exp(2.5 * sign(delta) * 0.05)] pushed by the zoom setter, one
    canvas update is requested, and pan and the pan uniforms are untouched.
    A wheel event whose vertical delta is zero multiplies the zoom by 1. *)
Theorem wheel_without_pointer_only_zooms
    (event : WheelEvent) (pz : t) (c : Canvas)
    (Hc : _canvas pz = Some c) (Hp : _zoom_to_pointer pz = false)
    (Hw : _width pz <> 0) (Hh : _height pz <> 0) (Hn : IZR (_n_rows pz) <> 0) :
  on_mouse_wheel event pz
  = (Ret tt, updated c (zoom_setter (_zoom pz * wheel_factor event) pz))
  /\ _pan (snd (on_mouse_wheel event pz)) = _pan pz
  /\ _zoom (snd (on_mouse_wheel event pz))
     = py_max (py_min (_zoom pz * wheel_factor event) (_zmax pz)) (_zmin pz)
  /\ (snd (delta event) = 0 -> wheel_factor event = 1).
Proof.
  assert (Hrun : on_mouse_wheel event pz
                 = (Ret tt, updated c (zoom_setter (_zoom pz * wheel_factor event) pz))).
  { rewrite (on_mouse_wheel_steps event pz Hw Hh Hn). cbv zeta.
    destruct (zoom_setter_fields (_zoom pz * wheel_factor event) pz)
      as (_ & _ & _ & _ & Hc1 & _ & _ & Hp1).
    rewrite Hp1, Hp.
    apply canvas_update_attached. rewrite Hc1. exact Hc. }
  rewrite Hrun. cbn [snd].
  destruct (zoom_setter_fields (_zoom pz * wheel_factor event) pz)
    as (Hz & _ & _ & Hpan & _).
  split; [reflexivity |].
  split; [exact Hpan |].
  split; [exact Hz |].
  intro Hd. unfold wheel_factor. rewrite Hd.
  unfold sign. destruct (Rlt_dec 0 0); [lra |].
  replace (25 / 10 * (0 * (5 / 100))) with 0 by lra. apply exp_0.
Qed.

Lemma wheel_without_pointer_only_zooms_witness :
  _pan (snd (on_mouse_wheel wheel_up_origin
               (zoom_to_pointer_setter false (attached canvas_2x2 default))))
  = (Fin 0, Fin 0).
Proof.
  destruct (wheel_without_pointer_only_zooms wheel_up_origin
              (zoom_to_pointer_setter false (attached canvas_2x2 default))
              (mkCanvas (2, 2)
                 ["on_resize"%string; "on_mouse_wheel"%string;
                  "on_mouse_move"%string; "on_key_press"%string] 0))
    as (_ & H & _); try reflexivity; try (simpl; lra).
  exact H.
Defined.



(** *** Key events *)

Lemma zoom_setter_canvas (z : R) (pz : t) : _canvas (zoom_setter z pz) = _canvas pz.
Proof. destruct (zoom_setter_fields z pz) as (_ & _ & _ & _ & H & _). exact H. Qed.

(** X11. The key [R], pressed without modifiers on an attached transform,
    returns with pan reset to [(0, 0)] and pushed to every program, the zoom
    set to 1 clamped to the bounds (exactly 1 when [zmin <= 1 <= zmax]), and
    one canvas update requested. *)
Theorem key_R_resets (pz : t) (c : Canvas) (Hc : _canvas pz = Some c) :
  on_key_press (mkKey "R" []) pz
  = (Ret tt, updated c (zoom_setter 1 (pan_setter (Fin 0, Fin 0) pz)))
  /\ _pan (snd (on_key_press (mkKey "R" []) pz)) = (Fin 0, Fin 0)
  /\ _zoom (snd (on_key_press (mkKey "R" []) pz)) = py_max (py_min 1 (_zmax pz)) (_zmin pz)
  /\ (_zmin pz <= 1 <= _zmax pz -> _zoom (snd (on_key_press (mkKey "R" []) pz)) = 1)
  /\ (forall p, In p (_programs (snd (on_key_press (mkKey "R" []) pz))) ->
        u_pan p = Some (Fin 0, Fin 0)).
Proof.
  assert (Hrun : on_key_press (mkKey "R" []) pz
                 = (Ret tt, updated c (zoom_setter 1 (pan_setter (Fin 0, Fin 0) pz)))).
  { unfold on_key_press. cbn [key key_modifiers truthy key_in _arrows _pm existsb
                               String.eqb Ascii.eqb Bool.eqb orb].
    unfold bind, ret, modify. cbn [fst snd].
    apply canvas_update_attached. rewrite zoom_setter_canvas. exact Hc. }
  rewrite Hrun. cbn [snd].
  destruct (zoom_setter_fields 1 (pan_setter (Fin 0, Fin 0) pz))
    as (Hz & _ & _ & Hpan & _).
  split; [reflexivity |].
  split; [exact Hpan |].
  split; [exact Hz |].
  split; [intro Hin; etransitivity; [exact Hz | apply (clamp_inside 1 _ _ Hin)] |].
  intros p Hin.
  assert (Hpans : Forall (fun q => u_pan q = Some (Fin 0, Fin 0))
                    (_programs (zoom_setter 1 (pan_setter (Fin 0, Fin 0) pz)))).
  { unfold zoom_setter, is_attached. simpl. rewrite Hc. simpl.
    rewrite map_map. apply Forall_map. apply Forall_forall. intros q _. reflexivity. }
  rewrite Forall_forall in Hpans. apply Hpans. exact Hin.
Qed.

Lemma key_R_resets_witness :
  _canvas (attached canvas_2x2 (pan_setter (Fin 3, Fin 4) (zoom_setter 7 default)))
  = Some (mkCanvas (2, 2)
            ["on_resize"%string; "on_mouse_wheel"%string;
             "on_mouse_move"%string; "on_key_press"%string] 0)
  /\ _pan (snd (on_key_press (mkKey "R" [])
                  (attached canvas_2x2 (pan_setter (Fin 3, Fin 4) (zoom_setter 7 default)))))
     = (Fin 0, Fin 0).
Proof.
  split; [reflexivity |].
  destruct (key_R_resets
              (attached canvas_2x2 (pan_setter (Fin 3, Fin 4) (zoom_setter 7 default)))
              (mkCanvas (2, 2)
                 ["on_resize"%string; "on_mouse_wheel"%string;
                  "on_mouse_move"%string; "on_key_press"%string] 0) eq_refl)
    as (_ & H & _).
  exact H.
Defined.

Lemma arrow_key_ok (name : string) (pz : t) (c : Canvas) :
  In name _arrows -> _canvas pz = Some c -> _zoom pz <> 0 ->
  on_key_press (mkKey name []) pz
  = (Ret tt,
     updated c
       (pan_setter
          (np_add (fst (_pan pz)) (Fin (fst (arrow_step name (1 / 10 / _zoom pz)))),
           np_add (snd (_pan pz)) (Fin (snd (arrow_step name (1 / 10 / _zoom pz)))))
          pz)).
Proof.
  intros Hin Hc Hz.
  assert (Hupd : forall v, canvas_update (pan_setter v pz)
                           = (Ret tt, updated c (pan_setter v pz)))
    by (intro v; apply canvas_update_attached; exact Hc).
  simpl in Hin.
  destruct Hin as [<- | [<- | [<- | [<- | []]]]];
    unfold on_key_press;
    cbn [key key_modifiers truthy key_in _arrows _pm existsb
           String.eqb Ascii.eqb Bool.eqb orb];
    unfold pan_iadd; unfold bind, get, lift, ret, modify;
    rewrite (div_Ret _ _ Hz); cbn [fst snd];
    rewrite Hupd; reflexivity.
Qed.

(** X12. An arrow key pressed without modifiers on an attached transform of
    non-zero zoom returns and moves pan by [0.1 / zoom] along one axis: Left
    adds it to x, Right subtracts it from x, Down adds it to y, Up subtracts
    it from y; the zoom is untouched, every registered program receives the
    new pan and one canvas update is requested.  With a zoom of zero the key
    raises [ZeroDivisionError] and changes nothing. *)
Theorem arrow_keys_pan
    (name : string) (pz : t) (c : Canvas)
    (Hname : In name _arrows) (Hc : _canvas pz = Some c) :
  (_zoom pz <> 0 ->
   exists pz1,
     on_key_press (mkKey name []) pz = (Ret tt, pz1)
     /\ _pan pz1
        = (np_add (fst (_pan pz)) (Fin (fst (arrow_step name (1 / 10 / _zoom pz)))),
           np_add (snd (_pan pz)) (Fin (snd (arrow_step name (1 / 10 / _zoom pz)))))
     /\ _zoom pz1 = _zoom pz
     /\ (forall p, In p (_programs pz1) -> u_pan p = Some (_pan pz1))
     /\ _canvas pz1 = Some (mkCanvas (size c) (connected c) (S (updates c))))
  /\ (_zoom pz = 0 ->
      on_key_press (mkKey name []) pz = (Raise ZeroDivisionError, pz)).
Proof.
  split.
  - intro Hz.
    rewrite (arrow_key_ok name pz c Hname Hc Hz).
    eexists. split; [reflexivity |].
    split; [reflexivity |]. split; [reflexivity |].
    split; [| reflexivity].
    intros p Hin.
    cbn [_programs _pan updated with_canvas pan_setter with_pan] in Hin |- *.
    apply in_map_iff in Hin. destruct Hin as (q & <- & _). reflexivity.
  - intro Hz.
    simpl in Hname.
    destruct Hname as [<- | [<- | [<- | [<- | []]]]];
      unfold on_key_press;
      cbn [key key_modifiers truthy key_in _arrows _pm existsb
             String.eqb Ascii.eqb Bool.eqb orb];
      unfold bind, get, lift, ret; rewrite Hz, div_Raise; reflexivity.
Qed.

Lemma arrow_keys_pan_witness :
  In "Left"%string _arrows
  /\ exists pz1,
       on_key_press (mkKey "Left" []) (attached canvas_2x2 default) = (Ret tt, pz1)
       /\ _pan pz1 = (Fin (0 + 1 / 10 / 1), Fin (0 + 0)).
Proof.
  assert (Hin : In "Left"%string _arrows) by (simpl; tauto).
  split; [exact Hin |].
  destruct (arrow_keys_pan "Left" (attached canvas_2x2 default)
              (mkCanvas (2, 2)
                 ["on_resize"%string; "on_mouse_wheel"%string;
                  "on_mouse_move"%string; "on_key_press"%string] 0) Hin eq_refl)
    as [H _].
  destruct H as (pz1 & H1 & H2 & _); [simpl; lra |].
  exists pz1. split; [exact H1 | exact H2].
Defined.

Lemma plus_minus_key_ok (name : string) (f : R) (pz : t) (c : Canvas) :
  (name = "+"%string /\ f = 1 + 5 / 100) \/ (name = "-"%string /\ f = 1 - 5 / 100) ->
  _canvas pz = Some c ->
  on_key_press (mkKey name []) pz
  = (Ret tt, updated c (zoom_setter (_zoom pz * f) pz)).
Proof.
  intros Hname Hc.
  assert (Hupd : canvas_update (zoom_setter (_zoom pz * f) pz)
                 = (Ret tt, updated c (zoom_setter (_zoom pz * f) pz)))
    by (apply canvas_update_attached; rewrite zoom_setter_canvas; exact Hc).
  destruct Hname as [[-> ->] | [-> ->]];
    unfold on_key_press;
    cbn [key key_modifiers truthy key_in _arrows _pm existsb
           String.eqb Ascii.eqb Bool.eqb orb];
    unfold zoom_imul; unfold bind, get, lift, ret, modify; cbn [fst snd];
    rewrite Hupd; reflexivity.
Qed.

(** X13. The keys [+] and [-], pressed without modifiers on an attached
    transform, multiply the zoom by 1.05 and by 0.95 through the zoom setter.
    They do not undo each other: away from the bounds [+] followed by [-]
    leaves the zoom at 0.9975 times what it was. *)
Theorem plus_then_minus_shrinks
    (pz : t) (c : Canvas) (Hc : _canvas pz = Some c)
    (Hplus : _zmin pz <= _zoom pz * (1 + 5 / 100) <= _zmax pz)
    (Hboth : _zmin pz <= _zoom pz * (9975 / 10000) <= _zmax pz) :
  exists pz1 pz2,
    on_key_press (mkKey "+" []) pz = (Ret tt, pz1)
    /\ _zoom pz1 = _zoom pz * (1 + 5 / 100)
    /\ on_key_press (mkKey "-" []) pz1 = (Ret tt, pz2)
    /\ _zoom pz2 = _zoom pz * (9975 / 10000)
    /\ _pan pz2 = _pan pz
    /\ (_zoom pz <> 0 -> _zoom pz2 <> _zoom pz).
Proof.
  rewrite (plus_minus_key_ok "+" (1 + 5 / 100) pz c); [| left; split; reflexivity | exact Hc].
  eexists. eexists. split; [reflexivity |].
  destruct (zoom_setter_fields (_zoom pz * (1 + 5 / 100)) pz)
    as (Hz1 & Hmin1 & Hmax1 & Hpan1 & Hc1 & _).
  rewrite (clamp_inside _ _ _ Hplus) in Hz1.
  split; [exact Hz1 |].
  rewrite (plus_minus_key_ok "-" (1 - 5 / 100) _
             (mkCanvas (size c) (connected c) (S (updates c))));
    [| right; split; reflexivity | reflexivity].
  split; [reflexivity |].
  set (pz1 := updated c (zoom_setter (_zoom pz * (1 + 5 / 100)) pz)).
  destruct (zoom_setter_fields (_zoom pz1 * (1 - 5 / 100)) pz1)
    as (Hz2 & _ & _ & Hpan2 & _).
  assert (Hz1' : _zoom pz1 = _zoom pz * (1 + 5 / 100)) by exact Hz1.
  assert (Hmin : _zmin pz1 = _zmin pz) by exact Hmin1.
  assert (Hmax : _zmax pz1 = _zmax pz) by exact Hmax1.
  assert (Hz2' : _zoom (zoom_setter (_zoom pz1 * (1 - 5 / 100)) pz1)
                 = _zoom pz * (9975 / 10000)).
  { rewrite Hz2, Hz1', Hmin, Hmax.
    replace (_zoom pz * (1 + 5 / 100) * (1 - 5 / 100)) with (_zoom pz * (9975 / 10000))
      by lra.
    apply clamp_inside. exact Hboth. }
  split; [exact Hz2' |].
  split.
  - cbn [_pan updated with_canvas]. rewrite Hpan2. exact Hpan1.
  - intro Hnz. cbn [_zoom updated with_canvas]. rewrite Hz2'. lra.
Qed.

Lemma plus_then_minus_shrinks_witness :
  exists pz1 pz2,
    on_key_press (mkKey "+" []) (attached canvas_2x2 default) = (Ret tt, pz1)
    /\ on_key_press (mkKey "-" []) pz1 = (Ret tt, pz2)
    /\ _zoom pz2 = 1 * (9975 / 10000).
Proof.
  destruct (plus_then_minus_shrinks (attached canvas_2x2 default)
              (mkCanvas (2, 2)
                 ["on_resize"%string; "on_mouse_wheel"%string;
                  "on_mouse_move"%string; "on_key_press"%string] 0) eq_refl)
    as (pz1 & pz2 & H1 & _ & H2 & H3 & _); try (simpl; lra).
  exists pz1, pz2. split; [exact H1 |]. split; [exact H2 | exact H3].
Defined.

(** X14. A key event with a modifier held, or for a key that is neither an
    arrow, [+], [-] nor [R], returns without changing the transform at all:
    no pan, no zoom, no canvas update, attached or not. *)
Theorem other_keys_are_ignored (event : KeyEvent) (pz : t) :
  (key_modifiers event <> []
   \/ (key_in (key event) _arrows = false /\ key_in (key event) _pm = false
       /\ String.eqb (key event) "R" = false)) ->
  on_key_press event pz = (Ret tt, pz).
Proof.
  intros [Hmod | (Ha & Hpm & Hr)]; unfold on_key_press.
  - destruct (key_modifiers event); [contradiction | reflexivity].
  - destruct (truthy (key_modifiers event)); [reflexivity |].
    rewrite Ha, Hpm, Hr. reflexivity.
Qed.

Lemma other_keys_are_ignored_witness :
  on_key_press (mkKey "R" ["Control"%string]) default = (Ret tt, default)
  /\ on_key_press (mkKey "A" []) default = (Ret tt, default).
Proof.
  split.
  - apply other_keys_are_ignored. left. discriminate.
  - apply other_keys_are_ignored. right. repeat split; reflexivity.
Defined.

(** *** Drag events *)

(** The displacement a drag adds to pan: the [float32] difference of the
    normalized positions, the y axis flipped, each divided by the zoom
    uniform. *)
Lemma drag_ok
    (f32 : R -> R) (press last current : R * R) (pz : t) (c : Canvas) (zx zy : R) :
  _canvas pz = Some c -> _u_zoom pz = UVec zx zy ->
  on_mouse_move f32 (drag press last current) pz
  = (Ret tt,
     updated c
       (pan_setter
          (np_add (fst (_pan pz))
             (np_div (np_round f32 (np_sub (fst (_normalize f32 current pz))
                                          (fst (_normalize f32 last pz)))) zx),
           np_add (snd (_pan pz))
             (np_div (np_opp (np_round f32 (np_sub (snd (_normalize f32 current pz))
                                                  (snd (_normalize f32 last pz))))) zy))
          pz)).
Proof.
  intros Hc Hu.
  unfold on_mouse_move, drag.
  cbn [is_dragging modifiers truthy negb andb press_event_pos last_event_pos move_pos].
  unfold bind at 1. unfold get at 1. rewrite Hu.
  unfold bind, modify. cbn [fst snd].
  apply canvas_update_attached. exact Hc.
Qed.

Lemma normalize_finite (f32 : R -> R) (x_y : R * R) (pz : t) :
  f32 (f32 (_width pz) / 2) <> 0 -> f32 (f32 (_height pz) / 2) <> 0 ->
  _normalize f32 x_y pz
  = (Fin (f32 (f32 (f32 (fst x_y) / f32 (f32 (_width pz) / 2)) - 1)),
     Fin (f32 (f32 (f32 (snd x_y) / f32 (f32 (_height pz) / 2)) - 1))).
Proof.
  intros Hw Hh. unfold _normalize.
  rewrite (np_div_Fin _ _ Hw), (np_div_Fin _ _ Hh). reflexivity.
Qed.

(** X15. A drag event without modifiers on an attached transform whose zoom
    uniform is a vector never raises: it adds to pan the [float32] difference
    between the normalized positions of the event and of the last event,
    divided by the zoom uniform, with the y axis flipped, pushes the new pan
    and requests one canvas update; the press position plays no part.  With
    non-zero half sizes and a non-zero zoom uniform a finite pan stays finite;
    a zero component of the zoom uniform makes pan non-finite on that axis.
    An event that is not a drag, or has a modifier held, changes nothing. *)
Theorem drag_moves_pan
    (f32 : R -> R) (press last current : R * R) (pz : t) (c : Canvas) (zx zy : R)
    (Hc : _canvas pz = Some c) (Hu : _u_zoom pz = UVec zx zy) :
  (exists pz1,
     on_mouse_move f32 (drag press last current) pz = (Ret tt, pz1)
     /\ _pan pz1
        = (np_add (fst (_pan pz))
             (np_div (np_round f32 (np_sub (fst (_normalize f32 current pz))
                                          (fst (_normalize f32 last pz)))) zx),
           np_add (snd (_pan pz))
             (np_div (np_opp (np_round f32 (np_sub (snd (_normalize f32 current pz))
                                                  (snd (_normalize f32 last pz))))) zy))
     /\ (forall p, In p (_programs pz1) -> u_pan p = Some (_pan pz1))
     /\ _canvas pz1 = Some (mkCanvas (size c) (connected c) (S (updates c)))
     /\ (forall press', on_mouse_move f32 (drag press' last current) pz = (Ret tt, pz1))
     /\ (forall px py,
           _pan pz = (Fin px, Fin py) ->
           f32 (f32 (_width pz) / 2) <> 0 -> f32 (f32 (_height pz) / 2) <> 0 ->
           zx <> 0 -> zy <> 0 ->
           let hw := f32 (f32 (_width pz) / 2) in
           let hh := f32 (f32 (_height pz) / 2) in
           let n (x h : R) := f32 (f32 (f32 x / h) - 1) in
           _pan pz1
           = (Fin (px + f32 (n (fst current) hw - n (fst last) hw) / zx),
              Fin (py + - f32 (n (snd current) hh - n (snd last) hh) / zy)))
     /\ (zx = 0 -> fst (_pan pz1) = NonFinite)
     /\ (zy = 0 -> snd (_pan pz1) = NonFinite))
  /\ (forall event,
        is_dragging event = false \/ modifiers event <> [] ->
        on_mouse_move f32 event pz = (Ret tt, pz)).
Proof.
  split.
  - rewrite (drag_ok f32 press last current pz c zx zy Hc Hu).
    eexists. split; [reflexivity |].
    split; [reflexivity |].
    split.
    { intros p Hin.
      cbn [_programs _pan updated with_canvas pan_setter with_pan] in Hin |- *.
      apply in_map_iff in Hin. destruct Hin as (q & <- & _). reflexivity. }
    split; [reflexivity |].
    split.
    { intro press'. apply (drag_ok f32 press' last current pz c zx zy Hc Hu). }
    cbn [_pan updated with_canvas pan_setter with_pan fst snd].
    split; [| split].
    + intros px py Hpan Hw Hh Hzx Hzy. cbv zeta.
      rewrite !(normalize_finite f32 _ pz Hw Hh), Hpan.
      cbn [fst snd np_sub np_round np_opp].
      rewrite (np_div_Fin _ _ Hzx), (np_div_Fin _ _ Hzy).
      reflexivity.
    + intros ->. rewrite np_div_zero. destruct (fst (_pan pz)); reflexivity.
    + intros ->. rewrite np_div_zero. destruct (snd (_pan pz)); reflexivity.
  - intros event [Hd | Hm]; unfold on_mouse_move.
    + rewrite Hd. reflexivity.
    + destruct (modifiers event); [contradiction |].
      destruct (is_dragging event); reflexivity.
Qed.

(** A drag by one pixel to the right on [PanZoom()] attached to a 2x2 canvas,
    with the identity for the rounding. *)
Lemma drag_moves_pan_witness :
  exists pz1,
    on_mouse_move (fun x => x) (drag (0, 0) (1, 1) (2, 1)) (attached canvas_2x2 default)
    = (Ret tt, pz1)
    /\ _pan pz1
       = (Fin (0 + (2 / (2 / 2) - 1 - (1 / (2 / 2) - 1)) / (1 * (1 * 1))),
          Fin (0 + - (1 / (2 / 2) - 1 - (1 / (2 / 2) - 1)) / (1 * (1 * 1)))).
Proof.
  destruct (drag_moves_pan (fun x => x) (0, 0) (1, 1) (2, 1) (attached canvas_2x2 default)
              (mkCanvas (2, 2)
                 ["on_resize"%string; "on_mouse_wheel"%string;
                  "on_mouse_move"%string; "on_key_press"%string] 0)
              (1 * (1 * 1)) (1 * (1 * 1)) eq_refl)
    as [(pz1 & H1 & _ & _ & _ & _ & H2 & _) _].
  - simpl. rewrite canvas_aspect_square. reflexivity.
  - exists pz1. split; [exact H1 |].
    apply (H2 0 0); try reflexivity; simpl; lra.
Defined.

(** *** A pan that is no longer finite *)

Lemma on_mouse_wheel_pan (event : WheelEvent) (pz : t) (Q : npfloat * npfloat -> Prop) :
  Q (_pan pz) ->
  (forall u v, Q (np_sub (fst (_pan pz)) u, np_add (snd (_pan pz)) v)) ->
  Q (_pan (snd (on_mouse_wheel event pz))).
Proof.
  intros Hold Hnew.
  unfold on_mouse_wheel. unfold bind at 1.
  pose proof (normalize_grid_state (pos event) pz) as Hs.
  destruct (_normalize_grid (pos event) pz) as [[xy | e] s]; simpl in Hs; subst s;
    [| exact Hold].
  unfold bind at 1. unfold get at 1.
  unfold bind at 1. unfold modify at 1.
  unfold bind at 1. unfold get at 1.
  destruct (zoom_setter_fields
              (_zoom pz * exp (25 / 10 * (sign (snd (delta event)) * (5 / 100)))) pz)
    as (_ & _ & _ & Hpan & _).
  set (pz1 := zoom_setter _ pz) in *. clearbody pz1.
  apply (then_update_keeps (fun s => Q (_pan s))).
  - intros c s _ H. exact H.
  - destruct (_zoom_to_pointer pz1); [| simpl; rewrite Hpan; exact Hold].
    destruct (aspect_factor pz1) as [r | a0 a1]; [simpl; rewrite Hpan; exact Hold |].
    unfold modify. simpl. apply Hnew.
Qed.

Lemma on_mouse_move_pan
    (f32 : R -> R) (event : MoveEvent) (pz : t) (Q : npfloat * npfloat -> Prop) :
  Q (_pan pz) ->
  (forall u v, Q (np_add (fst (_pan pz)) u, np_add (snd (_pan pz)) v)) ->
  Q (_pan (snd (on_mouse_move f32 event pz))).
Proof.
  intros Hold Hnew. unfold on_mouse_move.
  destruct (is_dragging event && negb (truthy (modifiers event))); [| exact Hold].
  unfold bind at 1. unfold get at 1.
  destruct (_u_zoom pz) as [r | zoom_x zoom_y]; [exact Hold |].
  apply (then_update_keeps (fun s => Q (_pan s))).
  - intros c s _ H. exact H.
  - unfold modify. simpl. apply Hnew.
Qed.

Lemma on_key_press_pan (event : KeyEvent) (pz : t) (Q : npfloat * npfloat -> Prop) :
  String.eqb (key event) "R" = false ->
  Q (_pan pz) ->
  (forall u v, Q (np_add (fst (_pan pz)) u, np_add (snd (_pan pz)) v)) ->
  Q (_pan (snd (on_key_press event pz))).
Proof.
  intros HR Hold Hnew. unfold on_key_press.
  destruct (truthy (key_modifiers event)); [exact Hold |].
  apply (seq_keeps (fun s => Q (_pan s)));
    [| intros s Hs; apply (seq_keeps (fun s => Q (_pan s)))].
  - destruct (key_in (key event) _arrows); [| exact Hold].
    unfold bind at 1. unfold get at 1.
    unfold bind at 1. unfold lift at 1.
    destruct (div (1 / 10) (_zoom pz)) as [k | e]; [| exact Hold].
    apply (then_update_keeps (fun s => Q (_pan s))); [intros c s _ H; exact H |].
    repeat match goal with
           | |- context [if ?b then _ else _] => destruct b
           end;
      try (unfold pan_iadd, bind, get, modify; simpl; apply Hnew); exact Hold.
  - destruct (key_in (key event) _pm); [| exact Hs].
    apply (then_update_keeps (fun s => Q (_pan s))); [intros c s0 _ H; exact H |].
    repeat match goal with
           | |- context [if ?b then _ else _] => destruct b
           end;
      try (unfold zoom_imul, bind, get, modify; simpl;
           match goal with
           | |- Q (_pan (zoom_setter ?z ?s0)) =>
               destruct (zoom_setter_fields z s0) as (_ & _ & _ & Hp & _);
               rewrite Hp; exact Hs
           end);
      exact Hs.
  - intros s' Hs'. rewrite HR. exact Hs'.
Qed.

(** X29. A pan that is no longer finite stays so.  When a component of pan
    is an infinity or NaN, as after a wheel event at zero effective zoom, no
    wheel event, drag event or key other than [R] makes it finite again,
    however the handler ends; the key [R] without modifiers resets pan to
    [(0, 0)] even on an unattached transform, where it then raises. *)
Theorem nonfinite_pan_is_sticky (pz : t) :
  (fst (_pan pz) = NonFinite ->
   (forall event, fst (_pan (snd (on_mouse_wheel event pz))) = NonFinite)
   /\ (forall f32 event, fst (_pan (snd (on_mouse_move f32 event pz))) = NonFinite)
   /\ (forall event, String.eqb (key event) "R" = false ->
         fst (_pan (snd (on_key_press event pz))) = NonFinite))
  /\ (snd (_pan pz) = NonFinite ->
      (forall event, snd (_pan (snd (on_mouse_wheel event pz))) = NonFinite)
      /\ (forall f32 event, snd (_pan (snd (on_mouse_move f32 event pz))) = NonFinite)
      /\ (forall event, String.eqb (key event) "R" = false ->
            snd (_pan (snd (on_key_press event pz))) = NonFinite))
  /\ _pan (snd (on_key_press (mkKey "R" []) pz)) = (Fin 0, Fin 0).
Proof.
  split; [| split].
  - intro H. split; [| split].
    + intro event.
      apply (on_mouse_wheel_pan event pz (fun p => fst p = NonFinite));
        [exact H | intros u v; simpl; rewrite H; reflexivity].
    + intros f32 event.
      apply (on_mouse_move_pan f32 event pz (fun p => fst p = NonFinite));
        [exact H | intros u v; simpl; rewrite H; reflexivity].
    + intros event HR.
      apply (on_key_press_pan event pz (fun p => fst p = NonFinite) HR);
        [exact H | intros u v; simpl; rewrite H; reflexivity].
  - intro H. split; [| split].
    + intro event.
      apply (on_mouse_wheel_pan event pz (fun p => snd p = NonFinite));
        [exact H | intros u v; simpl; rewrite H; reflexivity].
    + intros f32 event.
      apply (on_mouse_move_pan f32 event pz (fun p => snd p = NonFinite));
        [exact H | intros u v; simpl; rewrite H; reflexivity].
    + intros event HR.
      apply (on_key_press_pan event pz (fun p => snd p = NonFinite) HR);
        [exact H | intros u v; simpl; rewrite H; reflexivity].
  - unfold on_key_press.
    cbn [key key_modifiers truthy key_in _arrows _pm existsb
           String.eqb Ascii.eqb Bool.eqb orb].
    unfold bind, ret, modify. cbn [fst snd].
    destruct (zoom_setter_fields 1 (pan_setter (Fin 0, Fin 0) pz))
      as (_ & _ & _ & Hpan & _).
    unfold canvas_update, bind, get, put, raise.
    destruct (_canvas (zoom_setter 1 (pan_setter (Fin 0, Fin 0) pz)));
      simpl; exact Hpan.
Qed.

(** One wheel notch on a transform of zero zoom makes pan non-finite on both
    axes, and a second notch leaves it so. *)
Lemma nonfinite_pan_is_sticky_witness :
  _pan (snd (on_mouse_wheel wheel_up_origin zero_zoom)) = (NonFinite, NonFinite)
  /\ fst (_pan (snd (on_mouse_wheel wheel_up_origin
                       (snd (on_mouse_wheel wheel_up_origin zero_zoom)))))
     = NonFinite.
Proof.
  assert (Hz : zero_zoom = attached canvas_2x2 (__init__ (Some 1) (Fin 0, Fin 0) 0 0 1)).
  { unfold zero_zoom. rewrite attach_ok by (simpl; lra). reflexivity. }
  assert (H1 : _pan (snd (on_mouse_wheel wheel_up_origin zero_zoom))
               = (NonFinite, NonFinite)).
  { rewrite Hz.
    destruct (on_mouse_wheel_attached wheel_up_origin
                (attached canvas_2x2 (__init__ (Some 1) (Fin 0, Fin 0) 0 0 1))
                (mkCanvas (2, 2)
                   ["on_resize"%string; "on_mouse_wheel"%string;
                    "on_mouse_move"%string; "on_key_press"%string] 0) 1)
      as (pz' & Hrun & _ & _ & Hpan);
      try reflexivity; try (simpl; lra).
    rewrite Hrun. cbn [snd]. rewrite Hpan.
    cbn [_zoom attached __init__].
    rewrite !Rmult_0_l, !np_div_zero. reflexivity. }
  split; [exact H1 |].
  destruct (nonfinite_pan_is_sticky (snd (on_mouse_wheel wheel_up_origin zero_zoom)))
    as (Hx & _).
  destruct (Hx ltac:(rewrite H1; reflexivity)) as (Hw & _).
  apply Hw.
Defined.

(** *** Registration *)

Lemma add_programs (ps : list Program) (pz : t) :
  _programs (add ps pz)
  = (_programs pz
     ++ map (fun p => set_u_pan (_u_pan pz) (set_u_zoom (_u_zoom pz) p)) ps)%list.
Proof.
  unfold add. revert pz.
  induction ps as [| p ps IH]; intro pz; simpl.
  - rewrite app_nil_r. reflexivity.
  - rewrite IH. simpl. rewrite <- app_assoc. reflexivity.
Qed.

Lemma add_app (ps qs : list Program) (pz : t) :
  add (ps ++ qs) pz = add qs (add ps pz).
Proof. unfold add. apply fold_left_app. Qed.

(** X16. [add] is append-only: the programs already registered stay where
    and as they are, the new ones follow in the order given, each holding the
    transform's current pan and zoom uniforms; nothing else in the transform
    changes, and adding two lists in turn is adding their concatenation. *)
Theorem add_appends (ps qs : list Program) (pz : t) :
  _programs (add ps pz)
  = (_programs pz
     ++ map (fun p => mkProgram (Some (_u_pan pz)) (Some (_u_zoom pz))) ps)%list
  /\ List.length (_programs (add ps pz))
     = (List.length (_programs pz) + List.length ps)%nat
  /\ add ps pz = with_programs (_programs (add ps pz)) pz
  /\ add qs (add ps pz) = add (ps ++ qs) pz.
Proof.
  split; [apply add_programs |].
  split; [rewrite add_programs, length_app, length_map; reflexivity |].
  split; [| symmetry; apply add_app].
  unfold add. revert pz.
  induction ps as [| p ps IH]; intro pz.
  - destruct pz; reflexivity.
  - cbn [fold_left]. rewrite IH. reflexivity.
Qed.

(** X17. [BaseSpikeCanvas.__init__] adds the visual's program to a new
    transform and only then attaches it.  On a canvas of positive size it
    returns with the program holding pan [(0, 0)] and zoom [(1, 1)], the
    values at registration, while the transform's zoom uniform is the aspect
    correction of the canvas: on a canvas that is not square the program does
    not hold the effective zoom.  The first resize event pushes it. *)
Theorem spike_canvas_starts_stale
    (w h : R) (handlers : list string) (n : nat) (Hw : 0 < w) (Hh : 0 < h) :
  exists pz,
    spike_canvas_init (mkCanvas (w, h) handlers n) default = (Ret tt, pz)
    /\ _programs pz = [mkProgram (Some (Fin 0, Fin 0)) (Some (UVec 1 1))]
    /\ _u_zoom pz = effective_zoom pz
    /\ effective_zoom pz
       = (if Rlt_dec h w then UVec (1 * (h / w * 1)) (1 * (1 * 1))
          else UVec (1 * (1 * 1)) (1 * (w / h * 1)))
    /\ (w <> h -> ~ coherent pz)
    /\ coherent (snd (on_resize (w, h) pz))
    /\ (forall p, In p (_programs (snd (on_resize (w, h) pz))) ->
          u_zoom p = Some (effective_zoom (snd (on_resize (w, h) pz)))).
Proof.
  assert (Hrun : spike_canvas_init (mkCanvas (w, h) handlers n) default
                 = (Ret tt, attached (mkCanvas (w, h) handlers n)
                              (add [mkProgram None None] default))).
  { unfold spike_canvas_init, bind, modify. cbn [fst snd].
    apply attach_ok. simpl. lra. }
  rewrite Hrun.
  set (pz := attached (mkCanvas (w, h) handlers n) (add [mkProgram None None] default)).
  exists pz. split; [reflexivity |].
  split; [reflexivity |].
  split; [reflexivity |].
  assert (Heff : effective_zoom pz
                 = (if Rlt_dec h w then UVec (1 * (h / w * 1)) (1 * (1 * 1))
                    else UVec (1 * (1 * 1)) (1 * (w / h * 1)))).
  { unfold effective_zoom, aspect_factor. simpl.
    rewrite (canvas_aspect_of_ratio w h Hw Hh).
    destruct (Rlt_dec h w); reflexivity. }
  split; [exact Heff |].
  assert (Hres : is_attached pz = true) by reflexivity.
  destruct (zoom_setter_attached (_zoom pz)
              (with_size w h (canvas_aspect_of (w / h))
                 (with_size w h (_canvas_aspect pz) pz)) Hres) as [_ Hps].
  assert (Hrz : on_resize (w, h) pz
                = (Ret tt, zoom_setter (_zoom pz)
                             (with_size w h (canvas_aspect_of (w / h))
                                (with_size w h (_canvas_aspect pz) pz)))).
  { unfold on_resize, bind, modify, get, lift. simpl.
    rewrite div_Ret by lra. reflexivity. }
  split.
  - intros Hne Hcoh. unfold coherent in Hcoh.
    inversion Hcoh as [| p l [_ Hz] _ Heq].
    assert (Hu' : effective_zoom pz = UVec 1 1).
    { change (effective_zoom pz) with (_u_zoom pz).
      change (Some (UVec 1 1) = Some (_u_zoom pz)) in Hz. congruence. }
    rewrite Heff in Hu'.
    destruct (Rlt_dec h w); injection Hu' as Hx Hy.
    + assert (Hq : h / w = 1) by lra.
      assert (Hhw : h = w); [| lra].
      apply (Rmult_eq_reg_r (/ w)); [| apply Rinv_neq_0_compat; lra].
      rewrite Rinv_r by lra. exact Hq.
    + assert (Hq : w / h = 1) by lra.
      assert (Hwh : w = h); [| lra].
      apply (Rmult_eq_reg_r (/ h)); [| apply Rinv_neq_0_compat; lra].
      rewrite Rinv_r by lra. exact Hq.
  - rewrite Hrz. cbn [snd]. split.
    + unfold coherent, zoom_setter. simpl.
      constructor; [split; reflexivity | constructor].
    + intros p Hin. unfold zoom_setter in Hin |- *. simpl in Hin |- *.
      destruct Hin as [<- | []]. reflexivity.
Qed.

Lemma spike_canvas_starts_stale_witness :
  0 < 800 /\ 0 < 400
  /\ exists pz,
       spike_canvas_init (mkCanvas (800, 400) [] 0) default = (Ret tt, pz)
       /\ _programs pz = [mkProgram (Some (Fin 0, Fin 0)) (Some (UVec 1 1))].
Proof.
  assert (Hw : 0 < 800) by lra. assert (Hh : 0 < 400) by lra.
  split; [exact Hw |]. split; [exact Hh |].
  destruct (spike_canvas_starts_stale 800 400 [] 0 Hw Hh) as (pz & H1 & H2 & _).
  exists pz. split; [exact H1 | exact H2].
Defined.

End PanZoomMore.

(** * Further properties of the bake pipeline *)

Module BakeMore.

Import Bake.
Import BakeSpec.
Local Open Scope string_scope.

(** *** Marking *)

Lemma mem_In (bake : string) (l : list string) : mem bake l = true <-> In bake l.
Proof.
  unfold mem. rewrite existsb_exists. split.
  - intros (x & Hin & Heq). apply String.eqb_eq in Heq. subst x. exact Hin.
  - intro Hin. exists bake. split; [exact Hin | apply String.eqb_refl].
Qed.

Lemma set_to_bake_marked (D : Type) (bakes : list string) (v : Visual D) :
  set_to_bake bakes v = (Ret tt, with_to_bake (marked bakes (_to_bake v)) v).
Proof.
  unfold set_to_bake, marked. revert v.
  induction bakes as [| bake bakes IH]; intro v.
  - destruct v; reflexivity.
  - cbn [for_each fold_left]. unfold bind at 1. unfold bind at 1. unfold get at 1.
    destruct (mem bake (_to_bake v)); cbn [negb]; unfold put, ret; rewrite IH.
    + reflexivity.
    + destruct v; reflexivity.
Qed.

Lemma marked_spec (bakes l : list string) :
  exists added,
    marked bakes l = (l ++ added)%list
    /\ (NoDup l -> NoDup (marked bakes l))
    /\ (forall x, In x (marked bakes l) <-> In x l \/ In x bakes).
Proof.
  unfold marked. revert l.
  induction bakes as [| bake bakes IH]; intro l; cbn [fold_left].
  - exists []. rewrite app_nil_r. split; [reflexivity |].
    split; [tauto |]. intro x. simpl. tauto.
  - destruct (mem bake l) eqn:Hm.
    + destruct (IH l) as (added & Heq & Hnd & Hin).
      exists added. split; [exact Heq |]. split; [exact Hnd |].
      intro x. rewrite Hin. simpl. split; [tauto |].
      intros [H | [<- | H]]; [tauto | left; apply mem_In; exact Hm | tauto].
    + destruct (IH (l ++ [bake])%list) as (added & Heq & Hnd & Hin).
      exists (bake :: added). split; [rewrite Heq, <- app_assoc; reflexivity |].
      split.
      * intro Hl. apply Hnd. apply NoDup_app; [exact Hl | repeat constructor; tauto |].
        intros x Hx [<- | []]. apply mem_In in Hx. congruence.
      * intro x. rewrite Hin, in_app_iff. simpl. tauto.
Qed.

Lemma marked_present (bakes l : list string) :
  (forall x, In x bakes -> In x l) -> marked bakes l = l.
Proof.
  unfold marked. revert l.
  induction bakes as [| bake bakes IH]; intros l H; cbn [fold_left]; [reflexivity |].
  assert (Hm : mem bake l = true) by (apply mem_In, H; left; reflexivity).
  rewrite Hm. apply IH. intros x Hx. apply H. right. exact Hx.
Qed.

(** X18. [set_to_bake] never raises and changes nothing but the dirty list,
    which it only extends: the names already marked keep their places, each
    new name is appended once, so a duplicate-free list stays duplicate-free,
    and afterwards the list holds exactly the old names and the given ones. *)
Theorem set_to_bake_extends (D : Type) (bakes : list string) (v : Visual D) :
  fst (set_to_bake bakes v) = Ret tt
  /\ _empty (snd (set_to_bake bakes v)) = _empty v
  /\ fields (snd (set_to_bake bakes v)) = fields v
  /\ (exists added, _to_bake (snd (set_to_bake bakes v)) = (_to_bake v ++ added)%list)
  /\ (NoDup (_to_bake v) -> NoDup (_to_bake (snd (set_to_bake bakes v))))
  /\ (forall x, In x (_to_bake (snd (set_to_bake bakes v)))
                <-> In x (_to_bake v) \/ In x bakes).
Proof.
  rewrite set_to_bake_marked. cbn [fst snd _empty fields _to_bake with_to_bake].
  destruct (marked_spec bakes (_to_bake v)) as (added & Heq & Hnd & Hin).
  split; [reflexivity |]. split; [reflexivity |]. split; [reflexivity |].
  split; [exists added; exact Heq |]. split; assumption.
Qed.

(** X19. Marking is idempotent: marking names that are all marked already
    leaves the visual exactly as it is, so marking the same names twice gives
    what marking them once gives. *)
Theorem set_to_bake_idempotent (D : Type) (bakes : list string) (v : Visual D) :
  ((forall x, In x bakes -> In x (_to_bake v)) -> snd (set_to_bake bakes v) = v)
  /\ snd (set_to_bake bakes (snd (set_to_bake bakes v))) = snd (set_to_bake bakes v).
Proof.
  assert (Hpresent : forall u : Visual D,
            (forall x, In x bakes -> In x (_to_bake u)) -> snd (set_to_bake bakes u) = u).
  { intros u H. rewrite set_to_bake_marked. cbn [snd].
    rewrite (marked_present bakes (_to_bake u) H). destruct u; reflexivity. }
  split; [apply Hpresent |].
  apply Hpresent. intros x Hx.
  rewrite set_to_bake_marked. cbn [snd _to_bake with_to_bake].
  destruct (marked_spec bakes (_to_bake v)) as (_ & _ & _ & Hin).
  apply Hin. right. exact Hx.
Qed.

(** *** Frames *)

Section Frames.

Variable D : Type.
Variable mode : string.
Variable methods : string -> option (M (Visual D) unit).

(** However the loop of [_bake] ends, it has logged bake methods only. *)
Lemma loop_logs_bakes_only (names : list string) :
  forall (w : World D) (o : outcome unit) (w1 : World D),
    for_each names (bake_one methods) w = (o, w1) ->
    exists done, gl_log w1 = (gl_log w ++ map Baked done)%list.
Proof.
  induction names as [| bake names IH]; intros w o w1 Hrun.
  - simpl in Hrun. unfold ret in Hrun. injection Hrun as _ <-.
    exists []. simpl. rewrite app_nil_r. reflexivity.
  - cbn [for_each] in Hrun. unfold bind in Hrun.
    destruct (bake_one methods bake w) as [[[] | e] w2] eqn:Hone.
    + destruct (IH _ _ _ Hrun) as (done & Hd).
      rewrite (bake_one_log D methods _ _ _ Hone) in Hd.
      eexists. rewrite Hd, <- app_assoc, <- map_app. reflexivity.
    + injection Hrun as _ <-.
      unfold bake_one in Hone.
      destruct (methods ("_bake_" ++ bake)) as [m |].
      * unfold bind, emit, modify, on_visual in Hone. cbn [fst snd visual gl_log] in Hone.
        destruct (m (visual w)) as [[[] | e'] v1]; cbn [fst snd] in Hone;
          injection Hone as _ <-.
        -- exists ["_bake_" ++ bake]. reflexivity.
        -- exists ["_bake_" ++ bake]. reflexivity.
      * discriminate.
Qed.

(** X20. After a bake pass over a non-empty visual has completed, a second
    pass with nothing newly marked bakes nothing: it returns [False] (or the
    bare [None] if a routine emptied the visual) and leaves the visual and the
    log as they are, and [draw] on a still non-empty visual does nothing but
    issue the draw call. *)
Theorem second_pass_bakes_nothing
    (w : World D) (r : option bool) (w' : World D)
    (Hne : _empty (visual w) = false)
    (Hrun : _bake methods w = (Ret r, w')) :
  _bake methods w' = (Ret (if _empty (visual w') then None else Some false), w')
  /\ draw mode methods w'
     = (Ret tt,
        if _empty (visual w') then w'
        else mkWorld (visual w') (gl_log w' ++ [GLDraw mode])%list).
Proof.
  destruct (bake_nonempty_effect D methods w r w' Hne Hrun) as (Hclear & _ & _).
  assert (Hb : _bake methods w'
               = (Ret (if _empty (visual w') then None else Some false), w')).
  { destruct (_empty (visual w')) eqn:He.
    - apply bake_empty. exact He.
    - unfold _bake, bind, get. rewrite He, Hclear. simpl.
      unfold on_visual, modify, ret. simpl.
      destruct w' as [[tb em fs] lg]. simpl in *. subst tb. reflexivity. }
  split; [exact Hb |].
  unfold draw. unfold bind at 1. rewrite Hb.
  unfold bind, get, emit, modify, ret.
  destruct (_empty (visual w')); reflexivity.
Qed.

(** X21. When a bake routine raises, the pass stops there: [_bake] and
    [draw] raise the same exception with the visual as the routine left it,
    the final reset of the dirty list is not reached, and no draw call is
    issued; only bake methods were logged. *)
Theorem failing_routine_stops_the_frame
    (w : World D) (e : exn) (w1 : World D)
    (Hne : _empty (visual w) = false)
    (Hrun : _bake methods w = (Raise e, w1)) :
  for_each (sorted (_to_bake (visual w))) (bake_one methods) w = (Raise e, w1)
  /\ draw mode methods w = (Raise e, w1)
  /\ draw_calls (gl_log w1) = draw_calls (gl_log w)
  /\ exists done, gl_log w1 = (gl_log w ++ map Baked done)%list.
Proof.
  assert (Hloop : for_each (sorted (_to_bake (visual w))) (bake_one methods) w
                  = (Raise e, w1)).
  { unfold _bake in Hrun. unfold bind at 1 in Hrun. unfold get in Hrun.
    rewrite Hne in Hrun. unfold bind in Hrun.
    destruct (for_each (sorted (_to_bake (visual w))) (bake_one methods) w)
      as [[[] | e'] w2].
    - unfold on_visual, modify, ret in Hrun. simpl in Hrun. discriminate.
    - injection Hrun as <- <-. reflexivity. }
  split; [exact Hloop |].
  split; [unfold draw; unfold bind at 1; rewrite Hrun; reflexivity |].
  destruct (loop_logs_bakes_only _ _ _ _ Hloop) as (done & Hd).
  split; [| exists done; exact Hd].
  rewrite Hd, draw_calls_app, draw_calls_map_Baked, app_nil_r. reflexivity.
Qed.

End Frames.

Lemma second_pass_bakes_nothing_witness :
  exists r w',
    _bake axis_methods (fresh axis_positions_then_rows) = (Ret r, w')
    /\ _bake axis_methods w' = (Ret (Some false), w').
Proof.
  destruct (_bake axis_methods (fresh axis_positions_then_rows))
    as [[r | e] w'] eqn:Hrun.
  - exists r, w'. split; [reflexivity |].
    destruct (second_pass_bakes_nothing AxisFields axis_gl_draw_mode axis_methods
                (fresh axis_positions_then_rows) r w' eq_refl Hrun) as [H _].
    rewrite H.
    assert (He : _empty (visual w') = false).
    { vm_compute in Hrun. injection Hrun as _ <-. reflexivity. }
    rewrite He. reflexivity.
  - vm_compute in Hrun. discriminate.
Defined.

Lemma failing_routine_stops_the_frame_witness :
  exists w1,
    _bake (spike_methods np_unique) (fresh clusters_too_short) = (Raise IndexError, w1)
    /\ _to_bake (visual w1) = _to_bake clusters_too_short
    /\ draw "" (spike_methods np_unique) (fresh clusters_too_short)
       = (Raise IndexError, w1).
Proof.
  destruct (_bake (spike_methods np_unique) (fresh clusters_too_short))
    as [[r | e] w1] eqn:Hrun.
  - vm_compute in Hrun. discriminate.
  - assert (He : e = IndexError) by (vm_compute in Hrun; congruence).
    subst e. exists w1. split; [reflexivity |].
    split; [vm_compute in Hrun; injection Hrun as <-; reflexivity |].
    destruct (failing_routine_stops_the_frame SpikeFields "" (spike_methods np_unique)
                (fresh clusters_too_short) IndexError w1 eq_refl Hrun) as (_ & H & _).
    exact H.
Defined.

(** *** BoxVisual and AxisVisual *)

(** X22. The [n_rows] and [positions] setters check before they store: a
    negative [n_rows], or [positions] that is not a pair, raises
    [AssertionError] and leaves the visual exactly as it was.  An accepted
    [n_rows] is stored, marks [n_rows] and makes the visual empty exactly
    when it is zero; accepted positions are stored and mark [positions]
    without touching the empty flag. *)
Theorem axis_setters_check_first (v : AxisVisual) (n : Z) (value : list Q) :
  ((n < 0)%Z -> n_rows_setter n v = (Raise AssertionError, v))
  /\ ((0 <= n)%Z ->
      fst (n_rows_setter n v) = Ret tt
      /\ _n_rows (fields (snd (n_rows_setter n v))) = Some n
      /\ _empty (snd (n_rows_setter n v)) = (n =? 0)%Z
      /\ _to_bake (snd (n_rows_setter n v)) = marked ["n_rows"] (_to_bake v)
      /\ _positions (fields (snd (n_rows_setter n v))) = _positions (fields v))
  /\ (List.length value <> 2%nat -> positions_setter value v = (Raise AssertionError, v))
  /\ (List.length value = 2%nat ->
      fst (positions_setter value v) = Ret tt
      /\ _positions (fields (snd (positions_setter value v))) = value
      /\ _empty (snd (positions_setter value v)) = _empty v
      /\ _to_bake (snd (positions_setter value v)) = marked ["positions"] (_to_bake v)
      /\ _n_rows (fields (snd (positions_setter value v))) = _n_rows (fields v)).
Proof.
  split; [| split; [| split]].
  - intro Hn. unfold n_rows_setter, bind, assert.
    destruct (Z.leb_spec 0 n); [lia | reflexivity].
  - intro Hn. unfold n_rows_setter, bind, assert, modify.
    destruct (Z.leb_spec 0 n); [| lia]. unfold ret. cbn [fst snd].
    rewrite set_to_bake_marked. cbn [fst snd _empty fields _to_bake with_to_bake
                                       with_fields with_empty _n_rows _positions].
    repeat split; try reflexivity.
    destruct (Z.ltb_spec 0 n), (Z.eqb_spec n 0); simpl; try reflexivity; lia.
  - intro Hl. unfold positions_setter, bind, assert.
    destruct (Nat.eqb_spec (List.length value) 2); [contradiction | reflexivity].
  - intro Hl. unfold positions_setter, bind, assert, modify.
    rewrite Hl. unfold ret. cbn [Nat.eqb fst snd].
    rewrite set_to_bake_marked. cbn [fst snd _empty fields _to_bake with_to_bake
                                       with_fields _n_rows _positions].
    repeat split; reflexivity.
Qed.

Lemma axis_rows_length (x y : Q) (l : list nat) :
  List.length (flat_map (axis_rows x y) l) = (16 * List.length l)%nat.
Proof.
  induction l as [| i l IH]; [reflexivity |].
  cbn [flat_map]. rewrite length_app, IH. simpl. lia.
Qed.

(** X23. A new [AxisVisual] given [n] rows ([n > 0]) and a pair of positions
    and then drawn makes one frame: [_bake_n_rows] runs before
    [_bake_positions], then one draw call of mode [lines] is issued; the
    program holds [n_rows = n] and a position array of [4 n^2] rows by 4
    columns, and the dirty list is empty. *)
Theorem axis_first_frame (n : Z) (x y : Q) (Hn : (0 < n)%Z) :
  exists w,
    axis_frame n x y (fresh new_axis_visual) = (Ret tt, w)
    /\ gl_log w = [Baked "_bake_n_rows"; Baked "_bake_positions"; GLDraw "lines"]
    /\ _to_bake (visual w) = []
    /\ _empty (visual w) = false
    /\ program_n_rows (fields (visual w)) = Some n
    /\ exists position,
         program_a_position (fields (visual w)) = Some position
         /\ shape position = [(4 * Z.to_nat (n * n))%nat; 4%nat]
         /\ List.length (flat position) = (4 * Z.to_nat (n * n) * 4)%nat.
Proof.
  assert (H1 : (0 <=? n)%Z = true) by (apply Z.leb_le; lia).
  assert (H2 : (0 <? n)%Z = true) by (apply Z.ltb_lt; lia).
  assert (H3 : (n =? 0)%Z = false) by (apply Z.eqb_neq; lia).
  unfold axis_frame, draw, _bake, n_rows_setter, positions_setter.
  unfold bind, on_visual, assert, modify, get, ret, emit.
  cbn -[Z.mul Z.to_nat flat_map Nat.mul]. rewrite H1.
  cbn -[Z.mul Z.to_nat flat_map Nat.mul]. rewrite H2.
  cbn -[Z.mul Z.to_nat flat_map Nat.mul].
  unfold _bake_positions, bind, get, put, ret.
  cbn -[Z.mul Z.to_nat flat_map Nat.mul]. rewrite H3.
  cbn -[Z.mul Z.to_nat flat_map Nat.mul].
  eexists. split; [reflexivity |].
  cbn -[Z.mul Z.to_nat flat_map Nat.mul].
  repeat split.
  eexists. split; [reflexivity |].
  cbn -[Z.mul Z.to_nat flat_map Nat.mul].
  split; [reflexivity |].
  rewrite axis_rows_length, length_seq. lia.
Qed.

Lemma axis_first_frame_witness :
  (0 < 2)%Z
  /\ exists w,
       axis_frame 2 (1 # 2) (1 # 2) (fresh new_axis_visual) = (Ret tt, w)
       /\ gl_log w = [Baked "_bake_n_rows"; Baked "_bake_positions"; GLDraw "lines"].
Proof.
  assert (H : (0 < 2)%Z) by lia.
  split; [exact H |].
  destruct (axis_first_frame 2 (1 # 2) (1 # 2) H) as (w & H1 & H2 & _).
  exists w. split; [exact H1 | exact H2].
Defined.

(** *** BaseSpikeVisual *)

Section SpikeSetters.

Variable _as_array : forall A : Type, ndarray A -> ndarray A.
Variable _unique : ndarray Z -> ndarray Z.

Lemma set_to_bake_n_spikes (bakes : list string) (v : SpikeVisual) :
  n_spikes (fields (snd (set_to_bake bakes v))) = n_spikes (fields v).
Proof. rewrite set_to_bake_marked. reflexivity. Qed.

Lemma n_clusters_n_spikes (v : SpikeVisual) :
  n_spikes (fields (snd (n_clusters _unique v))) = n_spikes (fields v).
Proof.
  unfold n_clusters, cluster_ids, spike_ids, bind, get, modify, lift, ret, raise.
  destruct (_spike_ids (fields v)) as [ids |]; simpl.
  - destruct (_spike_clusters (fields v)) as [sc |]; simpl; [| reflexivity].
    destruct (getitem sc ids) as [sel | e]; simpl; [| reflexivity].
    destruct (len (_unique sel)); reflexivity.
  - destruct (n_spikes (fields v)) as [n |] eqn:Hn; simpl; [| exact Hn].
    destruct (_spike_clusters (fields v)) as [sc |]; simpl; [| exact Hn].
    destruct (getitem sc (arange n)) as [sel | e]; simpl; [| exact Hn].
    destruct (len (_unique sel)); exact Hn.
Qed.

(** The check of the row count, with the count established. *)
Lemma set_or_assert_established (A : Type) (arr : ndarray A) (v : SpikeVisual) (n : nat) :
  n_spikes (fields v) = Some n ->
  _set_or_assert_n_spikes arr v
  = (match shape arr with
     | [] => Raise IndexError
     | m :: _ => if (m =? n)%nat then Ret tt else Raise AssertionError
     end, v).
Proof.
  intro Hn. unfold _set_or_assert_n_spikes, bind, get, lift, ret, shape0, assert, raise.
  rewrite Hn. cbn [fst snd].
  destruct (shape arr) as [| m rest]; [reflexivity |].
  rewrite Hn. destruct (m =? n)%nat; reflexivity.
Qed.

(** The setters that check the row count, with the count established. *)
Lemma masks_setter_established (value : ndarray Q) (v : SpikeVisual) (n : nat) :
  n_spikes (fields v) = Some n ->
  masks_setter _as_array value v
  = match shape (_as_array Q value) with
    | [] => (Raise IndexError, v)
    | m :: _ =>
        if (m =? n)%nat then
          if (ndim (_as_array Q value) =? 2)%nat then
            match n_channels (fields v) with
            | None => (Raise AttributeError, v)
            | Some n_ch =>
                if shape_eqb (shape (_as_array Q value)) [n; n_ch]
                then set_to_bake ["spikes"] (set__masks (Some (_as_array Q value)) v)
                else (Raise AssertionError, v)
            end
          else (Raise AssertionError, v)
        else (Raise AssertionError, v)
    end.
Proof.
  intro Hn. unfold masks_setter. unfold bind at 1.
  rewrite (set_or_assert_established Q (_as_array Q value) v n Hn).
  destruct (shape (_as_array Q value)) as [| m rest]; [reflexivity |].
  destruct (m =? n)%nat; [| reflexivity].
  unfold bind, assert, get, getattr, modify, ret, raise.
  destruct (ndim (_as_array Q value) =? 2)%nat; [| reflexivity].
  destruct (n_channels (fields v)) as [n_ch |]; [| reflexivity].
  rewrite Hn.
  destruct (shape_eqb (m :: rest) [n; n_ch]); reflexivity.
Qed.

Lemma spike_ids_setter_established (value : ndarray Z) (v : SpikeVisual) (n : nat) :
  n_spikes (fields v) = Some n ->
  spike_ids_setter _as_array value v
  = match shape (_as_array Z value) with
    | [] => (Raise IndexError, v)
    | m :: _ =>
        if (m =? n)%nat
        then set_to_bake ["spikes"] (set__spike_ids (Some (_as_array Z value)) v)
        else (Raise AssertionError, v)
    end.
Proof.
  intro Hn. unfold spike_ids_setter. unfold bind at 1.
  rewrite (set_or_assert_established Z (_as_array Z value) v n Hn).
  destruct (shape (_as_array Z value)) as [| m rest]; [reflexivity |].
  destruct (m =? n)%nat; reflexivity.
Qed.

(** X24. Once the number of spikes is established, no attribute setter
    changes it, whether the setter returns or raises; and the masks and
    spike-ids setters return only for arrays with that number of rows. *)
Theorem n_spikes_is_fixed (v : SpikeVisual) (n : nat) (Hn : n_spikes (fields v) = Some n) :
  (forall value,
     n_spikes (fields (snd (masks_setter _as_array value v))) = Some n
     /\ (fst (masks_setter _as_array value v) = Ret tt ->
         shape0 (_as_array Q value) = Ret n))
  /\ (forall value,
        n_spikes (fields (snd (spike_ids_setter _as_array value v))) = Some n
        /\ (fst (spike_ids_setter _as_array value v) = Ret tt ->
            shape0 (_as_array Z value) = Ret n))
  /\ (forall value,
        n_spikes (fields (snd (spike_clusters_setter _as_array value v))) = Some n)
  /\ (forall value,
        n_spikes (fields (snd (cluster_colors_setter _as_array _unique value v)))
        = Some n).
Proof.
  split; [| split; [| split]]; intro value.
  - rewrite (masks_setter_established value v n Hn). unfold shape0.
    destruct (shape (_as_array Q value)) as [| m rest];
      [split; [exact Hn | intro Hf; discriminate Hf] |].
    destruct (Nat.eqb_spec m n) as [-> | Hne];
      [| split; [exact Hn | intro Hf; discriminate Hf]].
    split; [| reflexivity].
    destruct (ndim (_as_array Q value) =? 2)%nat; [| exact Hn].
    destruct (n_channels (fields v)) as [n_ch |]; [| exact Hn].
    destruct (shape_eqb (n :: rest) [n; n_ch]); [| exact Hn].
    rewrite set_to_bake_n_spikes. exact Hn.
  - rewrite (spike_ids_setter_established value v n Hn). unfold shape0.
    destruct (shape (_as_array Z value)) as [| m rest];
      [split; [exact Hn | intro Hf; discriminate Hf] |].
    destruct (Nat.eqb_spec m n) as [-> | Hne];
      [| split; [exact Hn | intro Hf; discriminate Hf]].
    split; [| reflexivity].
    rewrite set_to_bake_n_spikes. exact Hn.
  - unfold spike_clusters_setter, bind, modify. cbn [fst snd].
    rewrite set_to_bake_n_spikes. exact Hn.
  - rewrite cluster_colors_setter_steps. cbv zeta.
    destruct (len (_as_array Q value)) as [k | e]; [| exact Hn].
    pose proof (n_clusters_n_spikes (set__cluster_colors (Some (_as_array Q value)) v))
      as Hf.
    destruct (n_clusters _unique (set__cluster_colors (Some (_as_array Q value)) v))
      as [[n_cl | e] v1]; cbn [fst snd] in *; [| rewrite Hf; exact Hn].
    destruct (k =? n_cl)%nat; cbn [snd]; [| rewrite Hf; exact Hn].
    rewrite set_to_bake_n_spikes, Hf. exact Hn.
Qed.

(** X25. On a visual whose number of spikes is not established yet, the
    masks setter establishes it from the rows of its argument before the
    remaining checks: given a one-dimensional array of [m] elements it raises
    [AssertionError], stores no masks and marks nothing, but the visual now
    has [m] spikes.  Given a zero-dimensional array it raises [IndexError] and
    changes nothing. *)
Theorem failed_masks_establish_n_spikes (v : SpikeVisual) (value : ndarray Q)
    (Hnone : n_spikes (fields v) = None) :
  (forall m, shape (_as_array Q value) = [m] ->
     masks_setter _as_array value v = (Raise AssertionError, set_n_spikes (Some m) v))
  /\ (shape (_as_array Q value) = [] ->
      masks_setter _as_array value v = (Raise IndexError, v)).
Proof.
  split.
  - intros m Hs.
    unfold masks_setter, _set_or_assert_n_spikes.
    unfold bind, get, lift, ret, shape0, assert, raise, modify, ndim.
    rewrite Hnone, Hs. cbn [fst snd n_spikes fields set_n_spikes with_fields List.length].
    rewrite Nat.eqb_refl. reflexivity.
  - intro Hs.
    unfold masks_setter, _set_or_assert_n_spikes.
    unfold bind, get, lift, ret, shape0, assert, raise, modify, ndim.
    rewrite Hnone, Hs. reflexivity.
Qed.

(** X26. Reading [spike_ids] before any were assigned gives
    [arange(n_spikes)] and stores it, so a second read returns the same array
    and changes nothing; assigned ids are returned as they are; with neither
    ids nor a number of spikes the read raises [TypeError]. *)
Theorem spike_ids_default (v : SpikeVisual) :
  (forall n, _spike_ids (fields v) = None -> n_spikes (fields v) = Some n ->
     spike_ids v = (Ret (arange n), set__spike_ids (Some (arange n)) v)
     /\ spike_ids (snd (spike_ids v)) = (Ret (arange n), snd (spike_ids v)))
  /\ (forall ids, _spike_ids (fields v) = Some ids -> spike_ids v = (Ret ids, v))
  /\ (_spike_ids (fields v) = None -> n_spikes (fields v) = None ->
      spike_ids v = (Raise TypeError, v)).
Proof.
  split; [| split].
  - intros n Hi Hn.
    assert (H : spike_ids v = (Ret (arange n), set__spike_ids (Some (arange n)) v)).
    { unfold spike_ids, bind, get, modify, ret. rewrite Hi, Hn. reflexivity. }
    split; [exact H |]. rewrite H. reflexivity.
  - intros ids Hi. unfold spike_ids, bind, get, ret. rewrite Hi. reflexivity.
  - intros Hi Hn. unfold spike_ids, bind, get, raise. rewrite Hi, Hn. reflexivity.
Qed.

End SpikeSetters.

Lemma failed_masks_establish_n_spikes_witness :
  n_spikes (fields new_spike_visual) = None
  /\ masks_setter as_array_id (mkArray [7%nat] (repeat 1%Q 7)) new_spike_visual
     = (Raise AssertionError, set_n_spikes (Some 7%nat) new_spike_visual).
Proof.
  split; [reflexivity |].
  destruct (failed_masks_establish_n_spikes as_array_id new_spike_visual
              (mkArray [7%nat] (repeat 1%Q 7)) eq_refl) as [H _].
  apply (H 7%nat). reflexivity.
Defined.

Lemma spike_ids_default_witness :
  _spike_ids (fields two_clusters) = Some (arange 2)
  /\ spike_ids two_clusters = (Ret (arange 2), two_clusters).
Proof.
  split; [reflexivity |].
  destruct (spike_ids_default two_clusters) as (_ & H & _).
  apply (H (arange 2)). reflexivity.
Defined.

Lemma n_spikes_is_fixed_witness :
  n_spikes (fields two_clusters) = Some 2%nat
  /\ n_spikes (fields (snd (cluster_colors_setter as_array_id np_unique colors_3x3
                              two_clusters))) = Some 2%nat.
Proof.
  split; [reflexivity |].
  destruct (n_spikes_is_fixed as_array_id np_unique two_clusters 2 eq_refl)
    as (_ & _ & _ & H).
  apply H.
Defined.

End BakeMore.

(** * Properties of the histogram tesselation *)

Module HistogramMore.

Import Bake Histogram.

Lemma update_length (A : Type) (i : nat) (v : A) (l : list A) :
  List.length (update i v l) = List.length l.
Proof.
  revert i. induction l as [| a l IH]; intros [| i]; simpl; auto.
Qed.

Lemma nth_update_eq (A : Type) (i : nat) (v d : A) (l : list A) :
  (i < List.length l)%nat -> nth i (update i v l) d = v.
Proof.
  revert i. induction l as [| a l IH]; intros [| i] H; simpl in *; try lia; auto.
  apply IH. lia.
Qed.

Lemma nth_update_neq (A : Type) (i j : nat) (v d : A) (l : list A) :
  i <> j -> nth j (update i v l) d = nth j l d.
Proof.
  revert i j. induction l as [| a l IH]; intros [| i] [| j] H; simpl; auto.
  contradiction.
Qed.

Lemma write_length (A : Type) (idx : list nat) (src l : list A) :
  List.length (write idx src l) = List.length l.
Proof.
  revert src l. induction idx as [| i idx IH]; intros [| v src] l; simpl; auto.
  rewrite IH. apply update_length.
Qed.

Lemma nth_write_miss (A : Type) (i : nat) (d : A) (idx : list nat) (src l : list A) :
  ~ In i idx -> nth i (write idx src l) d = nth i l d.
Proof.
  revert src l. induction idx as [| j idx IH]; intros [| v src] l H; simpl; auto.
  rewrite IH.
  - apply nth_update_neq. intro E. apply H. left. exact E.
  - intro E. apply H. right. exact E.
Qed.

Lemma In_range_from (i start step count : nat) :
  In i (range_from start step count) ->
  exists k, (k < count)%nat /\ i = (start + step * k)%nat.
Proof.
  revert start. induction count as [| c IH]; intros start H; simpl in H.
  - contradiction.
  - destruct H as [<- | H].
    + exists 0%nat. split; lia.
    + destruct (IH _ H) as (k & Hk & ->). exists (S k). split; lia.
Qed.

Lemma range_from_length (start step count : nat) :
  List.length (range_from start step count) = count.
Proof.
  revert start. induction count as [| c IH]; intro start; simpl; auto.
Qed.

Lemma nth_write_hit (A : Type) (d : A) (step count : nat) :
  (0 < step)%nat ->
  forall (start : nat) (src l : list A) (k : nat),
    List.length src = count ->
    (forall k', (k' < count)%nat -> (start + step * k' < List.length l)%nat) ->
    (k < count)%nat ->
    nth (start + step * k) (write (range_from start step count) src l) d = nth k src d.
Proof.
  intro Hstep. induction count as [| c IH]; intros start src l k Hlen Hin Hk; [lia |].
  destruct src as [| v src]; [discriminate Hlen |].
  simpl in Hlen. simpl range_from. simpl write.
  destruct k as [| k].
  - rewrite nth_write_miss.
    + replace (start + step * 0)%nat with start by lia.
      apply nth_update_eq. specialize (Hin 0%nat). lia.
    + intro H. apply In_range_from in H. destruct H as (k' & _ & E). nia.
  - replace (start + step * S k)%nat with (start + step + step * k)%nat by lia.
    change (nth (S k) (v :: src) d) with (nth k src d).
    apply IH.
    + lia.
    + intros k' Hk'. rewrite update_length. specialize (Hin (S k')). 
      replace (start + step + step * k')%nat with (start + step * S k')%nat by lia.
      apply Hin. lia.
    + lia.
Qed.

Lemma nth_interleave (x y : list Q) (k : nat) :
  List.length x = List.length y -> (k < List.length x)%nat ->
  nth (2 * k) (interleave x y) 0%Q = nth k x 0%Q
  /\ nth (2 * k + 1) (interleave x y) 0%Q = nth k y 0%Q.
Proof.
  revert y k. induction x as [| a x IH]; intros [| b y] k Hlen Hk;
    simpl in Hlen, Hk; try lia.
  change (interleave (a :: x) (b :: y)) with (a :: b :: interleave x y).
  destruct k as [| k]; [split; reflexivity |].
  replace (2 * S k)%nat with (S (S (2 * k))) by lia.
  replace (S (S (2 * k)) + 1)%nat with (S (S (2 * k + 1))) by lia.
  cbn [nth]. apply IH; lia.
Qed.

Lemma interleave_length (x y : list Q) :
  List.length x = List.length y ->
  List.length (interleave x y) = (2 * List.length x)%nat.
Proof.
  revert y. induction x as [| a x IH]; intros [| b y] Hlen;
    simpl in Hlen; try lia; [reflexivity |].
  change (interleave (a :: x) (b :: y)) with (a :: b :: interleave x y).
  cbn [List.length]. rewrite (IH y); lia.
Qed.

(** The five strided slices of a column of [5 * n + 1] cells select [n]
    cells each. *)
Lemma set_slice_head (n : nat) (src x : list Q) :
  List.length x = (5 * n + 1)%nat -> List.length src = n ->
  set_slice (Some 0%Z) (Some (-1)%Z) 5 src x = Ret (write (range_from 0 5 n) src x).
Proof.
  intros Hx Hs. unfold set_slice, range, slice_bound. rewrite Hx.
  change (0 <? 0)%Z with false. change (-1 <? 0)%Z with true. cbv iota.
  replace (Nat.min (Z.to_nat 0) (5 * n + 1)) with 0%nat by lia.
  replace (Z.to_nat (Z.of_nat (5 * n + 1) + -1)) with (5 * n)%nat by lia.
  replace ((5 * n - 0 + (5 - 1)) / 5)%nat with n
    by (apply Nat.div_unique with (r := 4%nat); lia).
  rewrite range_from_length, Hs, Nat.eqb_refl. reflexivity.
Qed.

Lemma set_slice_tail (j n : nat) (src x : list Q) :
  (1 <= j <= 4)%nat -> (0 < n)%nat ->
  List.length x = (5 * n + 1)%nat -> List.length src = n ->
  set_slice (Some (Z.of_nat j)) None 5 src x = Ret (write (range_from j 5 n) src x).
Proof.
  intros Hj Hn Hx Hs. unfold set_slice, range, slice_bound. rewrite Hx.
  replace (Z.of_nat j <? 0)%Z with false by (symmetry; apply Z.ltb_ge; lia).
  replace (Nat.min (Z.to_nat (Z.of_nat j)) (5 * n + 1)) with j by lia.
  replace ((5 * n + 1 - j + (5 - 1)) / 5)%nat with n
    by (apply Nat.div_unique with (r := (5 - j)%nat); lia).
  rewrite range_from_length, Hs, Nat.eqb_refl. reflexivity.
Qed.

Lemma set_item_last (m : nat) (v : Q) (x : list Q) :
  List.length x = S m -> set_item (-1) v x = Ret (update m v x).
Proof.
  intro Hx. unfold set_item, index_one. rewrite Hx.
  change (0 <=? -1)%Z with false. cbv [andb].
  replace (- Z.of_nat (S m) <=? -1)%Z with true by (symmetry; apply Z.leb_le; lia).
  change (-1 <? 0)%Z with true. cbv [andb].
  replace (Z.to_nat (Z.of_nat (S m) + -1)) with m by lia. reflexivity.
Qed.

(** The columns that [_tesselate_histogram] returns for [n] bins. *)
Lemma tesselate_columns (hist : ndarray Q) (n : nat) :
  shape hist = [n] -> List.length (flat hist) = n -> (0 < n)%nat ->
  let dx := (2 / inject_Z (Z.of_nat n))%Q in
  let x0 := map (fun k => (-1 + dx * inject_Z (Z.of_nat k))%Q) (seq 0 n) in
  let xd := map (fun a => (a + dx)%Q) x0 in
  let top := map (fun h => (-1 + 2 * h)%Q) (flat hist) in
  let x :=
    update (5 * n) 1%Q
      (write (range_from 4 5 n) xd
         (write (range_from 3 5 n) x0
            (write (range_from 2 5 n) xd
               (write (range_from 1 5 n) x0
                  (write (range_from 0 5 n) x0 (repeat 0%Q (5 * n + 1))))))) in
  let y :=
    write (range_from 2 5 n) top
      (write (range_from 1 5 n) top (repeat (-1 * 1)%Q (5 * n + 1))) in
  _tesselate_histogram hist = Ret (mkArray [(5 * n + 1)%nat; 2%nat] (interleave x y))
  /\ List.length x = (5 * n + 1)%nat /\ List.length y = (5 * n + 1)%nat.
Proof.
  intros Hshape Hflat Hn dx x0 xd top x y.
  assert (Lx0 : List.length x0 = n) by (unfold x0; rewrite length_map, length_seq; reflexivity).
  assert (Lxd : List.length xd = n) by (unfold xd; rewrite length_map; exact Lx0).
  assert (Ltop : List.length top = n) by (unfold top; rewrite length_map; exact Hflat).
  assert (Lx : List.length x = (5 * n + 1)%nat)
    by (unfold x; rewrite update_length, !write_length, repeat_length; reflexivity).
  assert (Ly : List.length y = (5 * n + 1)%nat)
    by (unfold y; rewrite !write_length, repeat_length; reflexivity).
  split; [| split; assumption].
  unfold _tesselate_histogram, ndim, len, fdiv. rewrite Hshape.
  cbn [List.length Nat.eqb negb obind].
  replace (n =? 0)%nat with false by (symmetry; apply Nat.eqb_neq; lia).
  cbn [obind]. fold dx. fold x0. fold xd. fold top.
  rewrite (set_slice_head n) by (rewrite ?repeat_length; auto).
  cbn [obind].
  change (Some 1%Z) with (Some (Z.of_nat 1)).
  change (Some 2%Z) with (Some (Z.of_nat 2)).
  change (Some 3%Z) with (Some (Z.of_nat 3)).
  change (Some 4%Z) with (Some (Z.of_nat 4)).
  rewrite (set_slice_tail 1 n) by (rewrite ?write_length, ?repeat_length; auto; lia).
  cbn [obind].
  rewrite (set_slice_tail 2 n) by (rewrite ?write_length, ?repeat_length; auto; lia).
  cbn [obind].
  rewrite (set_slice_tail 3 n) by (rewrite ?write_length, ?repeat_length; auto; lia).
  cbn [obind].
  rewrite (set_slice_tail 4 n) by (rewrite ?write_length, ?repeat_length; auto; lia).
  cbn [obind].
  rewrite (set_item_last (5 * n))
    by (rewrite ?write_length, ?repeat_length; lia).
  cbn [obind].
  rewrite (set_slice_tail 1 n) by (rewrite ?write_length, ?repeat_length; auto; lia).
  cbn [obind].
  rewrite (set_slice_tail 2 n) by (rewrite ?write_length, ?repeat_length; auto; lia).
  cbn [obind]. fold x. fold y.
  unfold c_. rewrite Lx, Ly, Nat.eqb_refl. reflexivity.
Qed.

Lemma not_in_stride (i j j' n : nat) :
  (j < 5)%nat -> (j' < 5)%nat -> j <> j' -> ~ In (5 * i + j)%nat (range_from j' 5 n).
Proof.
  intros Hj Hj' Hne H. apply In_range_from in H. destruct H as (k & _ & E). lia.
Qed.

Lemma last_not_in_stride (j n : nat) :
  (j < 5)%nat -> ~ In (5 * n)%nat (range_from j 5 n).
Proof.
  intros Hj H. apply In_range_from in H. destruct H as (k & Hk & E). lia.
Qed.

Lemma nth_repeat_lt (v d : Q) (i m : nat) :
  (i < m)%nat -> nth i (repeat v m) d = v.
Proof.
  revert i. induction m as [| m IH]; intros [| i] H; simpl; try lia; auto.
  apply IH. lia.
Qed.

Lemma nth_map_lt (A : Type) (f : A -> Q) (l : list A) (i : nat) (d : Q) (d' : A) :
  (i < List.length l)%nat -> nth i (map f l) d = f (nth i l d').
Proof.
  intro H. rewrite (nth_indep (map f l) d (f d')) by (rewrite length_map; exact H).
  apply map_nth.
Qed.

(** The cells of the first column after its six assignments. *)
Lemma x_cells (n i : nat) (x0 xd zeros : list Q) :
  List.length x0 = n -> List.length xd = n -> List.length zeros = (5 * n + 1)%nat ->
  (i < n)%nat ->
  let x :=
    update (5 * n) 1%Q
      (write (range_from 4 5 n) xd
         (write (range_from 3 5 n) x0
            (write (range_from 2 5 n) xd
               (write (range_from 1 5 n) x0
                  (write (range_from 0 5 n) x0 zeros))))) in
  nth (5 * i) x 0%Q = nth i x0 0%Q
  /\ nth (5 * i + 1) x 0%Q = nth i x0 0%Q
  /\ nth (5 * i + 2) x 0%Q = nth i xd 0%Q
  /\ nth (5 * i + 3) x 0%Q = nth i x0 0%Q
  /\ nth (5 * i + 4) x 0%Q = nth i xd 0%Q
  /\ nth (5 * n) x 0%Q = 1%Q.
Proof.
  intros L0 Ld Lz Hi x. unfold x.
  assert (Hit : forall j src l, (j < 5)%nat -> List.length src = n ->
                  List.length l = (5 * n + 1)%nat ->
                  nth (5 * i + j) (write (range_from j 5 n) src l) 0%Q = nth i src 0%Q).
  { intros j src l Hj Hs Hl. replace (5 * i + j)%nat with (j + 5 * i)%nat by lia.
    apply nth_write_hit; auto; lia. }
  assert (Miss : forall j j' src l, (j < 5)%nat -> (j' < 5)%nat -> j <> j' ->
                   nth (5 * i + j) (write (range_from j' 5 n) src l) 0%Q
                   = nth (5 * i + j) l 0%Q).
  { intros j j' src l Hj Hj' Hne. apply nth_write_miss. apply not_in_stride; assumption. }
  repeat split.
  - replace (5 * i)%nat with (5 * i + 0)%nat by lia.
    rewrite nth_update_neq by lia. rewrite !Miss by lia. apply Hit; auto; lia.
  - rewrite nth_update_neq by lia. rewrite !Miss by lia.
    apply Hit; rewrite ?write_length; auto; lia.
  - rewrite nth_update_neq by lia. rewrite !Miss by lia.
    apply Hit; rewrite ?write_length; auto; lia.
  - rewrite nth_update_neq by lia. rewrite !Miss by lia.
    apply Hit; rewrite ?write_length; auto; lia.
  - rewrite nth_update_neq by lia.
    apply Hit; rewrite ?write_length; auto; lia.
  - apply nth_update_eq. rewrite !write_length. lia.
Qed.

(** The cells of the second column after its two assignments. *)
Lemma y_cells (n i : nat) (top : list Q) (v : Q) :
  List.length top = n -> (i < n)%nat ->
  let y :=
    write (range_from 2 5 n) top
      (write (range_from 1 5 n) top (repeat v (5 * n + 1))) in
  nth (5 * i) y 0%Q = v
  /\ nth (5 * i + 1) y 0%Q = nth i top 0%Q
  /\ nth (5 * i + 2) y 0%Q = nth i top 0%Q
  /\ nth (5 * i + 3) y 0%Q = v
  /\ nth (5 * i + 4) y 0%Q = v
  /\ nth (5 * n) y 0%Q = v.
Proof.
  intros Lt Hi y. unfold y.
  assert (Hit : forall j src l, (j < 5)%nat -> List.length src = n ->
                  List.length l = (5 * n + 1)%nat ->
                  nth (5 * i + j) (write (range_from j 5 n) src l) 0%Q = nth i src 0%Q).
  { intros j src l Hj Hs Hl. replace (5 * i + j)%nat with (j + 5 * i)%nat by lia.
    apply nth_write_hit; auto; lia. }
  assert (Miss : forall j j' src l, (j < 5)%nat -> (j' < 5)%nat -> j <> j' ->
                   nth (5 * i + j) (write (range_from j' 5 n) src l) 0%Q
                   = nth (5 * i + j) l 0%Q).
  { intros j j' src l Hj Hj' Hne. apply nth_write_miss. apply not_in_stride; assumption. }
  repeat split.
  - replace (5 * i)%nat with (5 * i + 0)%nat by lia.
    rewrite !Miss by lia. apply nth_repeat_lt. lia.
  - rewrite Miss by lia. apply Hit; rewrite ?repeat_length; auto; lia.
  - apply Hit; rewrite ?write_length, ?repeat_length; auto; lia.
  - rewrite !Miss by lia. apply nth_repeat_lt. lia.
  - rewrite !Miss by lia. apply nth_repeat_lt. lia.
  - rewrite !nth_write_miss by (apply last_not_in_stride; lia).
    apply nth_repeat_lt. lia.
Qed.

(** X27. For a one-dimensional histogram of [n > 0] bins the function
    returns an array of [5 * n + 1] rows and two columns.  Bin [i] gives the
    five rows [(x0, -1)], [(x0, h)], [(x0 + dx, h)], [(x0, -1)],
    [(x0 + dx, -1)], where [dx = 2 / n], [x0 = -1 + dx * i] and
    [h = -1 + 2 * hist[i]]; the last row is [(1, -1)].  No slice assignment
    raises. *)
Theorem tesselate_rows (hist : ndarray Q) (n : nat)
    (Hshape : shape hist = [n]) (Hflat : List.length (flat hist) = n) (Hn : (0 < n)%nat) :
  exists r,
    _tesselate_histogram hist = Ret r
    /\ shape r = [(5 * n + 1)%nat; 2%nat]
    /\ List.length (flat r) = (2 * (5 * n + 1))%nat
    /\ (forall i, (i < n)%nat ->
          let dx := (2 / inject_Z (Z.of_nat n))%Q in
          let x0 := (-1 + dx * inject_Z (Z.of_nat i))%Q in
          let h := (-1 + 2 * nth i (flat hist) 0)%Q in
          row r (5 * i) = (x0, (-1)%Q)
          /\ row r (5 * i + 1) = (x0, h)
          /\ row r (5 * i + 2) = ((x0 + dx)%Q, h)
          /\ row r (5 * i + 3) = (x0, (-1)%Q)
          /\ row r (5 * i + 4) = ((x0 + dx)%Q, (-1)%Q))
    /\ row r (5 * n) = (1%Q, (-1)%Q).
Proof.
  pose proof (tesselate_columns hist n Hshape Hflat Hn) as H. cbv zeta in H.
  destruct H as (Hr & Lx & Ly).
  set (dx := (2 / inject_Z (Z.of_nat n))%Q) in *.
  set (x0 := map (fun k => (-1 + dx * inject_Z (Z.of_nat k))%Q) (seq 0 n)) in *.
  set (xd := map (fun a => (a + dx)%Q) x0) in *.
  set (top := map (fun h => (-1 + 2 * h)%Q) (flat hist)) in *.
  assert (L0 : List.length x0 = n) by (unfold x0; rewrite length_map, length_seq; reflexivity).
  assert (Ld : List.length xd = n) by (unfold xd; rewrite length_map; exact L0).
  assert (Lt : List.length top = n) by (unfold top; rewrite length_map; exact Hflat).
  eexists. split; [exact Hr |]. split; [reflexivity |]. cbn [flat].
  split; [rewrite interleave_length, Lx by congruence; reflexivity |].
  assert (Row : forall k a b x y,
            List.length x = (5 * n + 1)%nat -> List.length y = (5 * n + 1)%nat ->
            (k < 5 * n + 1)%nat -> nth k x 0%Q = a -> nth k y 0%Q = b ->
            row (mkArray [(5 * n + 1)%nat; 2%nat] (interleave x y)) k = (a, b)).
  { intros k a b x y Hx Hy Hk Ha Hb. unfold row. cbn [flat].
    destruct (nth_interleave x y k) as [E1 E2]; [congruence | lia |].
    rewrite E1, E2, Ha, Hb. reflexivity. }
  split.
  - intros i Hi. cbv zeta.
    destruct (x_cells n i x0 xd (repeat 0%Q (5 * n + 1)) L0 Ld
                (repeat_length _ _) Hi) as (X0 & X1 & X2 & X3 & X4 & _).
    destruct (y_cells n i top (-1 * 1)%Q Lt Hi) as (Y0 & Y1 & Y2 & Y3 & Y4 & _).
    assert (E0 : nth i x0 0%Q = (-1 + dx * inject_Z (Z.of_nat i))%Q).
    { unfold x0. rewrite (nth_map_lt _ _ _ i 0%Q 0%nat) by (rewrite length_seq; exact Hi).
      rewrite seq_nth by exact Hi. reflexivity. }
    assert (Ed : nth i xd 0%Q = (-1 + dx * inject_Z (Z.of_nat i) + dx)%Q).
    { unfold xd. rewrite (nth_map_lt _ _ _ i 0%Q 0%Q) by (rewrite L0; exact Hi).
      rewrite E0. reflexivity. }
    assert (Et : nth i top 0%Q = (-1 + 2 * nth i (flat hist) 0)%Q).
    { unfold top. rewrite (nth_map_lt _ _ _ i 0%Q 0%Q) by (rewrite Hflat; exact Hi).
      reflexivity. }
    change (-1 * 1)%Q with (-1)%Q in *.
    repeat split; apply Row; auto; try lia; congruence.
  - destruct (x_cells n 0 x0 xd (repeat 0%Q (5 * n + 1)) L0 Ld
                (repeat_length _ _) Hn) as (_ & _ & _ & _ & _ & X).
    destruct (y_cells n 0 top (-1 * 1)%Q Lt Hn) as (_ & _ & _ & _ & _ & Y).
    change (-1 * 1)%Q with (-1)%Q in *.
    apply Row; auto; lia.
Qed.

Lemma tesselate_rows_witness :
  exists r,
    _tesselate_histogram hist_3 = Ret r
    /\ row r 6 = ((-1 + 2 / inject_Z 3 * inject_Z 1)%Q, (-1 + 2 * 1)%Q)
    /\ row r 15 = (1%Q, (-1)%Q).
Proof.
  destruct (tesselate_rows hist_3 3 eq_refl eq_refl ltac:(lia))
    as (r & Hr & _ & _ & Hrows & Hlast).
  exists r. split; [exact Hr |]. split; [| exact Hlast].
  destruct (Hrows 1%nat ltac:(lia)) as (_ & H1 & _). exact H1.
Defined.

(** X28. The function rejects what it cannot tesselate: an array that is not
    one-dimensional raises [AssertionError], and an empty one-dimensional
    array raises [ZeroDivisionError] when the bin width is computed. *)
Theorem tesselate_rejects (hist : ndarray Q) :
  (ndim hist <> 1%nat -> _tesselate_histogram hist = Raise AssertionError)
  /\ (shape hist = [0%nat] -> _tesselate_histogram hist = Raise ZeroDivisionError).
Proof.
  split.
  - intro H. unfold _tesselate_histogram.
    replace (ndim hist =? 1)%nat with false by (symmetry; apply Nat.eqb_neq; exact H).
    reflexivity.
  - intro H. unfold _tesselate_histogram, ndim, len. rewrite H. reflexivity.
Qed.

Lemma tesselate_rejects_witness :
  _tesselate_histogram (mkArray [2%nat; 2%nat] [0; 0; 0; 0]%Q) = Raise AssertionError
  /\ _tesselate_histogram (mkArray [0%nat] []) = Raise ZeroDivisionError.
Proof.
  split.
  - apply (proj1 (tesselate_rejects (mkArray [2%nat; 2%nat] [0; 0; 0; 0]%Q))).
    unfold ndim. simpl. lia.
  - apply (proj2 (tesselate_rejects (mkArray [0%nat] []))). reflexivity.
Defined.

End HistogramMore.
